(** * multi-llm-ts: the completion orchestration engine

    A shallow embedding of [LlmEngine] (engine.ts) and of the Ollama provider
    (providers/ollama.ts):

    - the payload builder ([buildPayload], [addTextToPayload],
      [addImageToPayload], [requiresFlatTextPayload]);
    - the tool execution orchestrator ([callTool],
      [processToolExecutionResult]);
    - the stream orchestration loop ([generate]);
    - the Ollama chunk normalizer ([nativeChunkToLlmChunk], [doStream]).

    Asynchronous generators are modelled as resumptions (type [Gen]): a
    generator either returns, throws, is suspended at a [yield], or reads the
    cancellation signal.  The cancellation signal is an oracle indexed by the
    number of reads performed so far. *)

From Stdlib Require Import String Ascii List Bool Arith Lia ZArith.
From Stdlib Require Import DecimalString DecimalNat.
Import ListNotations.
Open Scope string_scope.

Set Implicit Arguments.
Set Warnings "-register-all".

(* ===================================================================== *)
(** * 1. Data model (types/llm.ts, models/message.ts, models/attachment.ts) *)
(* ===================================================================== *)

(** [LlmRole = 'system'|'developer'|'user'|'assistant'|'tool'] *)
Inductive LlmRole : Type := system | developer | user | assistant | tool.

Definition LlmRole_eqb (a b : LlmRole) : bool :=
  match a, b with
  | system, system | developer, developer | user, user
  | assistant, assistant | tool, tool => true
  | _, _ => false
  end.

(** Modelled from the spec: the class [Attachment] (models/attachment.ts) is
    not part of the sources at hand.  The data model gives an attachment a
    kind (text / image / other), a raw content that may be absent and a mime
    type; [isText()] and [isImage()] test the kind. *)
Inductive AttachmentKind : Type := TextKind | ImageKind | OtherKind.

Record Attachment : Type := {
  content : option string;
  mimeType : string;
  kind : AttachmentKind
}.

Definition isText (a : Attachment) : bool :=
  match kind a with TextKind => true | _ => false end.

Definition isImage (a : Attachment) : bool :=
  match kind a with ImageKind => true | _ => false end.

(** The text an attachment contributes.  Every use is guarded by the
    null test of [buildPayload]. *)
Definition contentText (a : Attachment) : string :=
  match content a with Some s => s | None => EmptyString end.

(** Modelled from the spec: the class [Message] (models/message.ts) is not
    part of the sources at hand.  A message has a role, a content for the
    model and a list of attachments; [buildPayload] shows that
    [contentForModel] may be [null] and that the [attachments] array may be
    absent when message-like objects are supplied. *)
Record Message : Type := {
  role : LlmRole;
  contentForModel : option string;
  attachments : option (list Attachment)
}.

(** Modelled from the spec: [ChatModel] and [ModelCapabilities]
    (types/index.ts) are not part of the sources at hand.  A model has an id,
    a display name and the capability set tools, vision, reasoning,
    caching. *)
Record ModelCapabilities : Type := {
  tools : bool;
  vision : bool;
  reasoning : bool;
  caching : bool
}.

Record ChatModel : Type := {
  model_id : string;
  model_name : string;
  capabilities : ModelCapabilities
}.

(** [LlmContentPayload], restricted to the two segment types the engine
    builds. *)
Inductive LlmContentPayload : Type :=
| ContentPayloadText (text : string)
| ContentPayloadImageOpenai (url : string).

(** [content: string | LlmContentPayload[]] *)
Inductive PayloadContent : Type :=
| ContentString (s : string)
| ContentArray (l : list LlmContentPayload).

Record LLmCompletionPayload : Type := {
  payload_role : LlmRole;
  payload_content : PayloadContent;
  images : option (list string)
}.

Definition set_content (p : LLmCompletionPayload) (c : PayloadContent)
  : LLmCompletionPayload :=
  {| payload_role := payload_role p; payload_content := c; images := images p |}.

Definition set_images (p : LLmCompletionPayload) (i : list string)
  : LLmCompletionPayload :=
  {| payload_role := payload_role p; payload_content := payload_content p;
     images := Some i |}.

(** The separator of the template literals [`${a}\n\n${b}`]. *)
Definition nl : string := String (ascii_of_nat 10) EmptyString.
Definition nl2 : string := nl ++ nl.

(* ===================================================================== *)
(** * 2. Payload builder (engine.ts) *)
(* ===================================================================== *)

(** The methods of [LlmEngine] a provider may override. *)
Class EngineHooks : Type := {
  requiresFlatTextPayload : Message -> bool;
  addImageToPayload : Attachment -> LLmCompletionPayload -> LLmCompletionPayload
}.

(** [payload.content.find((c) => c.type === 'text')] followed by the
    in-place update [existingText.text = `${existingText.text}\n\n${...}`]:
    [None] when the array holds no text segment. *)
Fixpoint appendToExistingText (l : list LlmContentPayload) (t : string)
  : option (list LlmContentPayload) :=
  match l with
  | [] => None
  | ContentPayloadText s :: rest => Some (ContentPayloadText (s ++ nl2 ++ t) :: rest)
  | c :: rest =>
      match appendToExistingText rest t with
      | Some rest' => Some (c :: rest')
      | None => None
      end
  end.

Definition addTextToPayload `{EngineHooks} (message : Message) (attachment : Attachment)
  (payload : LLmCompletionPayload) : LLmCompletionPayload :=
  match payload_content payload with
  | ContentArray l =>
      let pushed :=
        set_content payload
          (ContentArray (l ++ [ContentPayloadText (contentText attachment)])) in
      if requiresFlatTextPayload message then
        match appendToExistingText l (contentText attachment) with
        | Some l' => set_content payload (ContentArray l')
        | None => pushed
        end
      else pushed
  | ContentString s =>
      set_content payload (ContentString (s ++ nl2 ++ contentText attachment))
  end.

(** [`data:${attachment.mimeType};base64,${attachment.content}`] *)
Definition dataUrl (a : Attachment) : string :=
  "data:" ++ mimeType a ++ ";base64," ++ contentText a.

(** [LlmEngine.addImageToPayload] *)
Definition base_addImageToPayload (attachment : Attachment)
  (payload : LLmCompletionPayload) : LLmCompletionPayload :=
  let l :=
    match payload_content payload with
    | ContentString s => [ContentPayloadText s]
    | ContentArray l => l
    end in
  set_content payload (ContentArray (l ++ [ContentPayloadImageOpenai (dataUrl attachment)])).

(** [LlmEngine.requiresFlatTextPayload]:
    [['system', 'assistant'].includes(msg.role)] *)
Definition base_requiresFlatTextPayload (msg : Message) : bool :=
  existsb (LlmRole_eqb (role msg)) [system; assistant].

(** The engine as [engine.ts] defines it, no method overridden. *)
Definition BaseEngine : EngineHooks := {|
  requiresFlatTextPayload := base_requiresFlatTextPayload;
  addImageToPayload := base_addImageToPayload
|}.

(** The Ollama provider overrides both methods (ollama.ts). *)
Definition ollama_requiresFlatTextPayload (msg : Message) : bool := true.

Definition ollama_addImageToPayload (attachment : Attachment)
  (payload : LLmCompletionPayload) : LLmCompletionPayload :=
  let imgs := match images payload with Some i => i | None => [] end in
  set_images payload (imgs ++ [contentText attachment]).

Definition OllamaEngine : EngineHooks := {|
  requiresFlatTextPayload := ollama_requiresFlatTextPayload;
  addImageToPayload := ollama_addImageToPayload
|}.

(** One round of the loop [for (const attachment of atts)] of [buildPayload]. *)
Definition addAttachment `{EngineHooks} (model : ChatModel) (msg : Message)
  (payload : LLmCompletionPayload) (attachment : Attachment) : LLmCompletionPayload :=
  match content attachment with
  | None => payload
  | Some _ =>
      let payload1 :=
        if isText attachment then addTextToPayload msg attachment payload
        else payload in
      if isImage attachment && vision (capabilities model)
      then addImageToPayload attachment payload1
      else payload1
  end.

(** [msg.contentForModel] read as a string; [buildPayload] reads it only
    after the filter [msg.contentForModel !== null]. *)
Definition textForModel (msg : Message) : string :=
  match contentForModel msg with Some s => s | None => EmptyString end.

Definition hasContentForModel (msg : Message) : bool :=
  match contentForModel msg with Some _ => true | None => false end.

(** The callback of [thread.filter(...).map((msg) => ...)]. *)
Definition messagePayload `{EngineHooks} (model : ChatModel) (msg : Message)
  : LLmCompletionPayload :=
  let payload :=
    {| payload_role := role msg;
       payload_content :=
         if requiresFlatTextPayload msg then ContentString (textForModel msg)
         else ContentArray [ContentPayloadText (textForModel msg)];
       images := None |} in
  let atts := match attachments msg with Some l => l | None => [] end in
  fold_left (addAttachment model msg) atts payload.

(** [thread: Message[] | string] *)
Inductive ThreadInput : Type :=
| ThreadString (s : string)
| ThreadMessages (l : list Message).

Definition buildPayload `{EngineHooks} (model : ChatModel) (thread : ThreadInput)
  : list LLmCompletionPayload :=
  match thread with
  | ThreadString s =>
      [{| payload_role := user;
          payload_content := ContentArray [ContentPayloadText s];
          images := None |}]
  | ThreadMessages l =>
      map (messagePayload model) (filter hasContentForModel l)
  end.

(* ===================================================================== *)
(** * 3. Values, validation responses, tool updates *)
(* ===================================================================== *)

(** Values of type [any] (tool arguments, tool results). *)
Inductive Json : Type :=
| JUndefined
| JNull
| JBool (b : bool)
| JNumber (z : Z)
| JString (s : string)
| JArray (l : list Json)
| JObject (fields : list (string * Json)).

(** JavaScript truthiness, as [||] and [if] test it. *)
Definition truthy (j : Json) : bool :=
  match j with
  | JUndefined | JNull => false
  | JBool b => b
  | JNumber z => negb (Z.eqb z 0)
  | JString s => negb (String.eqb s EmptyString)
  | JArray _ | JObject _ => true
  end.

(** [a || b] *)
Definition orElse (a b : Json) : Json := if truthy a then a else b.

(** Property access [v.name]; [undefined] when absent. *)
Fixpoint lookupField (fields : list (string * Json)) (name : string) : Json :=
  match fields with
  | [] => JUndefined
  | (k, v) :: rest => if String.eqb k name then v else lookupField rest name
  end.

Definition getField (v : Json) (name : string) : Json :=
  match v with
  | JObject fields => lookupField fields name
  | _ => JUndefined
  end.

Definition optString (o : option string) : Json :=
  match o with Some s => JString s | None => JUndefined end.

(** [{ error: message }] *)
Definition errorResult (message : string) : Json :=
  JObject [("error", JString message)].

(** [LlmToolExecutionValidationDecision = 'allow'|'deny'|'abort'] *)
Inductive LlmToolExecutionValidationDecision : Type := allow | deny | abort.

Record LlmToolExecutionValidationResponse : Type := {
  decision : LlmToolExecutionValidationDecision;
  reason : option string;
  extra : Json
}.

(** [LlmChunkToolAbort] without its constant [type: 'tool_abort']. *)
Record LlmChunkToolAbort : Type := {
  abort_name : string;
  abort_params : Json;
  abort_reason : LlmToolExecutionValidationResponse
}.

(** What a [throw] can carry: the tool-abort object the engine builds, an
    [Error] with its message (and no [type] property), or any other value,
    [null], [undefined] and objects that carry a [type] of their own
    included. *)
Inductive Thrown : Type :=
| ThrowToolAbort (a : LlmChunkToolAbort)
| ThrowError (message : string)
| ThrowValue (v : Json).

(** The [TypeError] JavaScript throws when the property [property] of
    [undefined] or [null] is read. *)
Definition typeError (what property : string) : Thrown :=
  ThrowError
    ("Cannot read properties of " ++ what ++ " (reading '" ++ property ++ "')").

(** [v.type === 'tool_abort'], for a value that is neither [null] nor
    [undefined]. *)
Definition isTaggedToolAbort (v : Json) : bool :=
  match getField v "type" with
  | JString tag => String.eqb tag "tool_abort"
  | _ => false
  end.

(** Modelled from the spec: [PluginExecutionUpdate], [PluginExecutionResult]
    and [PluginExecutionContext] (types/plugin.ts) are not part of the sources
    at hand.  An update is a progress status or a terminal result
    [{ type: 'result', result, canceled?, validation? }]; an absent
    [canceled] reads as [false] ([canceled === true] is the only test made on
    it). *)
Record PluginExecutionResult : Type := {
  result : Json;
  canceled : bool;
  validation : option LlmToolExecutionValidationResponse
}.

(** [PluginExecutionUpdate] *)
Inductive PluginExecutionUpdate : Type :=
| UpdateStatus (status : string)
| UpdateResult (r : PluginExecutionResult).

(** [PluginExecutionContext]: the model id; its [abortSignal] is the
    cancellation signal of the run (see [Ask] below). *)
Record PluginExecutionContext : Type := { context_model : string }.

Definition LlmToolExecutionValidationCallback : Type :=
  PluginExecutionContext -> string -> Json -> LlmToolExecutionValidationResponse.

(* ===================================================================== *)
(** * 4. Asynchronous generators as resumptions *)
(* ===================================================================== *)

(** A run of an async generator (or async function) that yields values of
    type [Y], shares a mutable state [S] with its consumer and returns an [R]:
    - [Ret r s]: returned [r], leaving the state [s];
    - [Raise e s]: threw [e], leaving the state [s];
    - [Yield y s k]: suspended at [yield y] with the state [s]; the consumer
      resumes it with the state as it then is;
    - [Ask k]: reads [abortSignal?.aborted] and goes on with the answer. *)
Inductive Gen (Y S R : Type) : Type :=
| Ret (r : R) (s : S)
| Raise (e : Thrown) (s : S)
| Yield (y : Y) (s : S) (k : S -> Gen Y S R)
| Ask (k : bool -> Gen Y S R).

Arguments Ret {Y S R} r s.
Arguments Raise {Y S R} e s.
Arguments Yield {Y S R} y s k.
Arguments Ask {Y S R} k.

Fixpoint bind {Y S A B} (g : Gen Y S A) (f : A -> S -> Gen Y S B) : Gen Y S B :=
  match g with
  | Ret a s => f a s
  | Raise e s => Raise e s
  | Yield y s k => Yield y s (fun s' => bind (k s') f)
  | Ask k => Ask (fun b => bind (k b) f)
  end.

(** [try { g } catch (error) { h error }] *)
Fixpoint catch {Y S A} (g : Gen Y S A) (h : Thrown -> S -> Gen Y S A) : Gen Y S A :=
  match g with
  | Ret a s => Ret a s
  | Raise e s => h e s
  | Yield y s k => Yield y s (fun s' => catch (k s') h)
  | Ask k => Ask (fun b => catch (k b) h)
  end.

(** A generator with no access to the shared state (a plugin), run next to
    the state [s]. *)
Fixpoint liftGen {Y S R} (g : Gen Y unit R) (s : S) : Gen Y S R :=
  match g with
  | Ret r _ => Ret r s
  | Raise e _ => Raise e s
  | Yield y _ k => Yield y s (fun s' => liftGen (k tt) s')
  | Ask k => Ask (fun b => liftGen (k b) s)
  end.

(** How the body of a loop ends: it falls through to the next round with
    the loop variables [a], or executes [return]. *)
Inductive Ctl (A R : Type) : Type :=
| Next (a : A)
| Return (r : R).

Arguments Next {A R} a.
Arguments Return {A R} r.

(** [for await (const y of g) { body }], inside a generator yielding [Y2]. *)
Fixpoint forAwait {Y1 Y2 S A R} (g : Gen Y1 S unit)
  (body : Y1 -> A -> S -> Gen Y2 S (Ctl A R)) (acc : A) : Gen Y2 S (Ctl A R) :=
  match g with
  | Ret _ s => Ret (Next acc) s
  | Raise e s => Raise e s
  | Yield y s k =>
      bind (body y acc s)
        (fun c s' =>
           match c with
           | Next a => forAwait (k s') body a
           | Return r => Ret (Return r) s'
           end)
  | Ask k => Ask (fun b => forAwait (k b) body acc)
  end.

(** [for (const x of l) { body }] *)
Fixpoint forOf {Y S X R} (l : list X) (body : X -> S -> Gen Y S (Ctl unit R))
  (s : S) : Gen Y S (Ctl unit R) :=
  match l with
  | [] => Ret (Next tt) s
  | x :: rest =>
      bind (body x s)
        (fun c s' =>
           match c with
           | Next _ => forOf rest body s'
           | Return r => Ret (Return r) s'
           end)
  end.

(** State-passing computations and their notation. *)
Definition M (Y S R : Type) : Type := S -> Gen Y S R.

Definition ret {Y S R} (r : R) : M Y S R := fun s => Ret r s.
Definition throw {Y S R} (e : Thrown) : M Y S R := fun s => Raise e s.
Definition yield {Y S} (y : Y) : M Y S unit := fun s => Yield y s (fun s' => Ret tt s').
Definition aborted {Y S} : M Y S bool := fun s => Ask (fun b => Ret b s).
Definition gets {Y S R} (f : S -> R) : M Y S R := fun s => Ret (f s) s.
Definition modify {Y S} (f : S -> S) : M Y S unit := fun s => Ret tt (f s).
Definition bindM {Y S A B} (m : M Y S A) (f : A -> M Y S B) : M Y S B :=
  fun s => bind (m s) f.
Definition tryCatch {Y S A} (m : M Y S A) (h : Thrown -> M Y S A) : M Y S A :=
  fun s => catch (m s) h.

Declare Scope gen_scope.
Delimit Scope gen_scope with gen.
Notation "x <- m ;; k" := (bindM m (fun x => k))
  (at level 61, m at next level, right associativity) : gen_scope.
Notation "m ;; k" := (bindM m (fun _ => k))
  (at level 61, right associativity) : gen_scope.

(** A consumer that takes every value and resumes the generator at once,
    with the cancellation signal [signal] read for the [clock]-th time. *)
Inductive Ending (S R : Type) : Type :=
| Returned (r : R) (s : S)
| Threw (e : Thrown) (s : S).

Arguments Returned {S R} r s.
Arguments Threw {S R} e s.

Record Collected (Y S R : Type) : Type := {
  yielded : list Y;
  ending : Ending S R;
  reads : nat
}.

Fixpoint collect {Y St R} (signal : nat -> bool) (clock : nat) (g : Gen Y St R)
  : Collected Y St R :=
  match g with
  | Ret r s => {| yielded := []; ending := Returned r s; reads := clock |}
  | Raise e s => {| yielded := []; ending := Threw e s; reads := clock |}
  | Yield y s k =>
      let c := collect signal clock (k s) in
      {| yielded := y :: yielded c; ending := ending c; reads := reads c |}
  | Ask k => collect signal (S clock) (k (signal clock))
  end.

Definition liftResult {Y St R} (r : R + Thrown) : M Y St R :=
  match r with
  | inl v => ret v
  | inr e => throw e
  end.

(* ===================================================================== *)
(** * 5. Plugins and the tool execution orchestrator (engine.ts) *)
(* ===================================================================== *)

(** Modelled from the spec: the plugin classes (plugin.ts) are not part of
    the sources at hand.  A plugin has a name, descriptions per tool name,
    and either a single-shot [execute] (which resolves with a result or
    rejects with a thrown value) or a progressive [executeWithUpdates]
    (['executeWithUpdates' in toolOwner]); a multi-tool plugin
    ([plugin instanceof MultiToolPlugin]) also declares which tool names it
    handles. *)
Inductive PluginExecution : Type :=
| Execute (execute : PluginExecutionContext -> Json -> Json + Thrown)
| ExecuteWithUpdates
    (executeWithUpdates :
       PluginExecutionContext -> Json -> Gen PluginExecutionUpdate unit unit).

Record Plugin : Type := {
  getName : string;
  handlesTool : option (string -> bool);
  execution : PluginExecution;
  getPreparationDescription : string -> string;
  getRunningDescription : string -> Json -> string;
  getCompletedDescription : string -> Json -> Json -> option string;
  getCanceledDescription : string -> Json -> option string
}.

(** The calls the orchestrator makes to code it does not own. *)
Inductive CallEvent : Type :=
| CalledValidation (tool : string) (args : Json)
| CalledExecute (plugin : string) (payload : Json)
| CalledExecuteWithUpdates (plugin : string) (payload : Json).

Definition isMultiToolFor (tool : string) (plugin : Plugin) : bool :=
  match handlesTool plugin with
  | Some handles => handles tool
  | None => false
  end.

Definition hasName (tool : string) (plugin : Plugin) : bool :=
  String.eqb (getName plugin) tool.

(** [{ type: 'result', result: { error: 'Operation cancelled' }, canceled: true,
       ...(validation !== undefined ? { validation } : {}) }] *)
Definition canceledUpdate (v : option LlmToolExecutionValidationResponse)
  : PluginExecutionUpdate :=
  UpdateResult {| result := errorResult "Operation cancelled";
                  canceled := true; validation := v |}.

Definition notFoundUpdate (tool : string) : PluginExecutionUpdate :=
  UpdateResult
    {| result := errorResult
         ("Tool " ++ tool ++ " does not exist. Check the tool list and try again.");
       canceled := false; validation := None |}.

(** [validation.reason || 'forbidden'] *)
Definition reasonOrForbidden (v : LlmToolExecutionValidationResponse) : string :=
  match reason v with
  | Some r => if String.eqb r EmptyString then "forbidden" else r
  | None => "forbidden"
  end.

Definition deniedUpdate (tool : string) (v : LlmToolExecutionValidationResponse)
  : PluginExecutionUpdate :=
  UpdateResult
    {| result := errorResult
         ("Tool " ++ tool ++ " execution denied by validation function. Reason: "
            ++ reasonOrForbidden v);
       canceled := false; validation := Some v |}.

(** [error instanceof Error && error.message === 'Operation cancelled'] *)
Definition isCancellationError (e : Thrown) : bool :=
  match e with
  | ThrowError message => String.eqb message "Operation cancelled"
  | _ => false
  end.

Definition isAllow (d : LlmToolExecutionValidationDecision) : bool :=
  match d with allow => true | _ => false end.

(** [lastUpdate.validation?.decision === 'abort']: the validation object
    when it says so. *)
Definition abortDecision (v : option LlmToolExecutionValidationResponse)
  : option LlmToolExecutionValidationResponse :=
  match v with
  | Some r => match decision r with abort => Some r | _ => None end
  | None => None
  end.

(** [lastUpdate.validation?.decision === 'deny'] *)
Definition isDenied (v : option LlmToolExecutionValidationResponse) : bool :=
  match v with
  | Some r => match decision r with deny => true | _ => false end
  | None => false
  end.

(** [{ content, canceled }] *)
Record ToolExecutionOutcome : Type := {
  outcome_content : Json;
  outcome_canceled : bool
}.

(** [LlmEngine.processToolExecutionResult] *)
Definition processToolExecutionResult (providerId toolName : string) (params : Json)
  (lastUpdate : option PluginExecutionResult) : ToolExecutionOutcome + Thrown :=
  match lastUpdate with
  | None =>
      inr (ThrowError ("[" ++ providerId ++ "] tool call " ++ toolName
                         ++ " did not return any result"))
  | Some u =>
      let content := orElse (result u) (errorResult "No result from tool") in
      match abortDecision (validation u) with
      | Some v =>
          inr (ThrowToolAbort
                 {| abort_name := toolName; abort_params := params; abort_reason := v |})
      | None =>
          inl {| outcome_content := content;
                 outcome_canceled := canceled u || isDenied (validation u) |}
      end
  end.

Section Orchestrator.

(** The state the engine's generators share, with the record of the calls
    made to validation callbacks and plugins; [plugins] is the registry
    [this.plugins]. *)
Variable World : Type.
Variable logCall : CallEvent -> World -> World.
Variable plugins : list Plugin.

(** [LlmEngine.getPluginForTool] *)
Definition getPluginForTool (tool : string) : option Plugin :=
  match find (hasName tool) plugins with
  | Some plugin => Some plugin
  | None => find (isMultiToolFor tool) plugins
  end.

(** The first lines of [callTool]: the owner of the tool and the payload
    it will receive. *)
Definition resolveToolOwner (tool : string) (args : Json) : option (Plugin * Json) :=
  match find (hasName tool) plugins with
  | Some toolOwner => Some (toolOwner, args)
  | None =>
      match find (isMultiToolFor tool) plugins with
      | Some plugin =>
          Some (plugin, JObject [("tool", JString tool); ("parameters", args)])
      | None => None
      end
  end.

Local Open Scope gen_scope.

(** The body of [for await (const update of toolOwner.executeWithUpdates(...))]. *)
Definition forwardUpdate (v : option LlmToolExecutionValidationResponse)
  (update : PluginExecutionUpdate) (_ : unit)
  : M PluginExecutionUpdate World (Ctl unit unit) :=
  isAborted <- aborted ;;
  if isAborted : bool
  then yield (canceledUpdate v) ;; ret (Return tt)
  else yield update ;; ret (Next tt).

(** The last part of [callTool]: run the plugin. *)
Definition runTool (context : PluginExecutionContext) (toolOwner : Plugin)
  (payload : Json) (v : option LlmToolExecutionValidationResponse)
  : M PluginExecutionUpdate World unit :=
  match execution toolOwner with
  | ExecuteWithUpdates executeWithUpdates =>
      modify (logCall (CalledExecuteWithUpdates (getName toolOwner) payload)) ;;
      (fun w => forAwait (liftGen (executeWithUpdates context payload) w)
                  (forwardUpdate v) tt) ;;
      ret tt
  | Execute execute =>
      modify (logCall (CalledExecute (getName toolOwner) payload)) ;;
      match execute context payload with
      | inl res =>
          yield (UpdateResult {| result := res; canceled := false; validation := v |})
      | inr error =>
          isAborted <- aborted ;;
          if (isAborted : bool) || isCancellationError error
          then yield (canceledUpdate v)
          else throw error
      end
  end.

(** [LlmEngine.callTool] *)
Definition callTool (context : PluginExecutionContext) (tool : string) (args : Json)
  (toolExecutionValidation : option LlmToolExecutionValidationCallback)
  : M PluginExecutionUpdate World unit :=
  match resolveToolOwner tool args with
  | None => yield (notFoundUpdate tool)
  | Some (toolOwner, payload) =>
      isAborted <- aborted ;;
      if isAborted : bool
      then yield (canceledUpdate None)
      else
        match toolExecutionValidation with
        | Some validate =>
            modify (logCall (CalledValidation tool args)) ;;
            let v := validate context tool args in
            if isAllow (decision v)
            then runTool context toolOwner payload (Some v)
            else yield (deniedUpdate tool v)
        | None => runTool context toolOwner payload None
        end
  end.

(** [getToolPreparationDescription] and its siblings. *)
Definition getToolPreparationDescription (tool : string) : string :=
  match getPluginForTool tool with
  | Some plugin => getPreparationDescription plugin tool
  | None => EmptyString
  end.

Definition getToolRunningDescription (tool : string) (args : Json) : string :=
  match getPluginForTool tool with
  | Some plugin => getRunningDescription plugin tool args
  | None => EmptyString
  end.

Definition getToolCompletedDescription (tool : string) (args results : Json)
  : option string :=
  match getPluginForTool tool with
  | Some plugin => getCompletedDescription plugin tool args results
  | None => None
  end.

Definition getToolCanceledDescription (tool : string) (args : Json) : option string :=
  match getPluginForTool tool with
  | Some plugin => getCanceledDescription plugin tool args
  | None => None
  end.

End Orchestrator.

(* ===================================================================== *)
(** * 6. Streams, chunks and the stream orchestration loop (engine.ts) *)
(* ===================================================================== *)

Inductive ContentType : Type := TypeContent | TypeReasoning.

(** [ToolExecutionState = 'preparing'|'running'|'completed'|'canceled'|'error'] *)
Inductive ToolExecutionState : Type :=
| Preparing | Running | Completed | Canceled | Error.

Record LlmUsage : Type := {
  prompt_tokens : nat;
  completion_tokens : nat
}.

Section Streaming.

Local Open Scope list_scope.

(** The provider's native chunk type ([any] in engine.ts). *)
Variable Native : Type.

(** [LlmStream]: the native chunks the stream delivers, and the abort
    controller the provider may have attached ([controller?]). *)
Record LlmStream : Type := {
  chunks : list Native;
  controller : option nat
}.

(** [LlmChunk].  [ChunkThrown error] is a thrown object whose [type] is
    ['tool_abort'] and which is not the tool-abort object of the engine,
    yielded as it is by [yield error as LlmChunkToolAbort]. *)
Inductive LlmChunk : Type :=
| ChunkToolAbort (a : LlmChunkToolAbort)
| ChunkContent (type : ContentType) (text : string) (done : bool)
| ChunkStream (stream : LlmStream)
| ChunkTool (id name : string) (state : ToolExecutionState) (status : Json)
    (call : option (Json * Json)) (done : bool)
| ChunkUsage (usage : LlmUsage)
| ChunkOpenAIMessageId (id : string)
| ChunkThrown (error : Json).

(** What a run of [generate] does that its caller or the transport sees:
    a chunk yielded to the caller, or a call of
    [currentStream.controller.abort(...)]. *)
Inductive Event : Type :=
| Forwarded (msg : LlmChunk)
| TransportAbort (controller : nat).

(** The provider's context ([LlmStreamingContext = any]). *)
Variable World : Type.

Inductive Outcome : Type :=
| Finished
| Cancelled
| Failed (error : Thrown)
| OutOfFuel.

(** A piece of a run: the events so far, and either the control goes on
    with a value and the number of reads of the signal so far, or the
    generator has ended. *)
Inductive Flow (A : Type) : Type :=
| Continues (a : A) (clock : nat)
| Stops (o : Outcome) (w : World).

Arguments Stops {A} o w.

Definition Trace (A : Type) : Type := (list Event * Flow A)%type.

Definition emit {A} (evs : list Event) (t : Trace A) : Trace A :=
  (evs ++ fst t, snd t).

Definition andThen {A B} (t : Trace A) (f : A -> nat -> Trace B) : Trace B :=
  match snd t with
  | Continues a clock => emit (fst t) (f a clock)
  | Stops o w => (fst t, Stops o w)
  end.

(** The abstract [nativeChunkToLlmChunk] and the cancellation signal:
    [signal n] is what the [n]-th read of [opts?.abortSignal?.aborted]
    gives. *)
Variable nativeChunkToLlmChunk : Native -> World -> Gen LlmChunk World unit.
Variable signal : nat -> bool.

(** [currentStream.controller?.abort(opts?.abortSignal?.reason)] *)
Definition abortTransport (currentStream : LlmStream) : list Event :=
  match controller currentStream with
  | Some c => [TransportAbort c]
  | None => []
  end.

(** [if (nextStream !== null && msg.type === 'content' && msg.done)
       msg.done = false] *)
Definition clearStaleDone (nextStream : option LlmStream) (msg : LlmChunk) : LlmChunk :=
  match nextStream, msg with
  | Some _, ChunkContent TypeContent text true => ChunkContent TypeContent text false
  | _, _ => msg
  end.

(** The [catch] of the inner loop:
    [if (error.type === 'tool_abort') yield error else throw error].  It
    gives the chunk to yield or the value thrown; reading [error.type]
    throws a [TypeError] when the value caught is [null] or [undefined]. *)
Definition caughtToolAbort (error : Thrown) : LlmChunk + Thrown :=
  match error with
  | ThrowToolAbort a => inl (ChunkToolAbort a)
  | ThrowError _ => inr error
  | ThrowValue JUndefined => inr (typeError "undefined" "type")
  | ThrowValue JNull => inr (typeError "null" "type")
  | ThrowValue v => if isTaggedToolAbort v then inl (ChunkThrown v) else inr error
  end.

(** The inner loop [for await (const msg of llmChunkStream)] with its
    [try]/[catch]: gives the value of [nextStream] and the context after
    the native chunk. *)
Fixpoint drainChunk (currentStream : LlmStream)
  (llmChunkStream : Gen LlmChunk World unit) (nextStream : option LlmStream)
  (clock : nat) : Trace (option LlmStream * World) :=
  match llmChunkStream with
  | Ret _ w => ([], Continues (nextStream, w) clock)
  | Raise error w =>
      match caughtToolAbort error with
      | inl msg => ([Forwarded msg], Continues (nextStream, w) clock)
      | inr rethrown => ([], Stops (Failed rethrown) w)
      end
  | Ask k => drainChunk currentStream (k (signal clock)) nextStream (S clock)
  | Yield msg w k =>
      let out :=
        match msg with
        | ChunkStream _ => []
        | _ => [Forwarded (clearStaleDone nextStream msg)]
        end in
      let nextStream' :=
        match msg with
        | ChunkStream s => Some s
        | _ => nextStream
        end in
      if signal clock
      then (out ++ abortTransport currentStream, Stops Cancelled w)
      else emit out (drainChunk currentStream (k w) nextStream' (S clock))
  end.

(** The loop [for await (const chunk of currentStream)] over the native
    chunks [rest] still to come. *)
Fixpoint drainStream (currentStream : LlmStream) (rest : list Native)
  (nextStream : option LlmStream) (w : World) (clock : nat)
  : Trace (option LlmStream * World) :=
  match rest with
  | [] => ([], Continues (nextStream, w) clock)
  | chunk :: rest' =>
      if signal clock
      then (abortTransport currentStream, Stops Cancelled w)
      else
        andThen
          (drainChunk currentStream (nativeChunkToLlmChunk chunk w) nextStream
             (S clock))
          (fun '(nextStream', w') clock' =>
             drainStream currentStream rest' nextStream' w' clock')
  end.

(** The loop over the native chunks, taken up while the normalized chunks
    [llmChunkStream] of one native chunk are being consumed and [rest] is
    still to come. *)
Definition resumeStream (currentStream : LlmStream)
  (llmChunkStream : Gen LlmChunk World unit) (rest : list Native)
  (nextStream : option LlmStream) (clock : nat)
  : Trace (option LlmStream * World) :=
  andThen (drainChunk currentStream llmChunkStream nextStream clock)
    (fun '(nextStream', w') clock' =>
       drainStream currentStream rest nextStream' w' clock').

(** What [generate] gives when run to its end. *)
Record Generation : Type := {
  events : list Event;
  outcome : Outcome;
  world : World
}.

Definition after (evs : list Event) (g : Generation) : Generation :=
  {| events := evs ++ events g; outcome := outcome g; world := world g |}.

(** The end of a round of [while (true)], once the native stream has been
    drained: [if (!nextStream) break; currentStream = nextStream]. *)
Definition nextRound (loop : LlmStream -> World -> nat -> Generation)
  (t : Trace (option LlmStream * World)) : Generation :=
  match t with
  | (evs, Continues (Some nextStream, w') clock') =>
      after evs (loop nextStream w' clock')
  | (evs, Continues (None, w') _) =>
      {| events := evs; outcome := Finished; world := w' |}
  | (evs, Stops o w') => {| events := evs; outcome := o; world := w' |}
  end.

(** The loop [while (true)] over the chain of streams; [fuel] bounds the
    number of streams. *)
Fixpoint streamLoop (fuel : nat) (currentStream : LlmStream) (w : World)
  (clock : nat) : Generation :=
  match fuel with
  | 0 => {| events := []; outcome := OutOfFuel; world := w |}
  | S fuel' =>
      nextRound (streamLoop fuel')
        (drainStream currentStream (chunks currentStream) None w clock)
  end.

(** [LlmStreamingResponse] *)
Record LlmStreamingResponse : Type := {
  stream : LlmStream;
  context : World
}.

(** [LlmEngine.generate], from the response of [this.stream(...)] on. *)
Definition generate (fuel : nat) (response : LlmStreamingResponse) : Generation :=
  streamLoop fuel (stream response) (context response) 0.

(** The chunks a run yields to its caller, and its transport aborts. *)
Fixpoint forwarded (evs : list Event) : list LlmChunk :=
  match evs with
  | [] => []
  | Forwarded msg :: rest => msg :: forwarded rest
  | TransportAbort _ :: rest => forwarded rest
  end.

Fixpoint transportAborts (evs : list Event) : list nat :=
  match evs with
  | [] => []
  | Forwarded _ :: rest => transportAborts rest
  | TransportAbort c :: rest => c :: transportAborts rest
  end.

(** [msg.type === 'content' && msg.done] *)
Definition isDoneContent (msg : LlmChunk) : bool :=
  match msg with
  | ChunkContent TypeContent _ true => true
  | _ => false
  end.

Definition isToolAbort (msg : LlmChunk) : bool :=
  match msg with
  | ChunkToolAbort _ => true
  | ChunkThrown error => isTaggedToolAbort error
  | _ => false
  end.

End Streaming.

Arguments Stops {World A} o w.
Arguments Continues {World A} a clock.
Arguments Forwarded {Native} msg.
Arguments TransportAbort {Native} controller.
Arguments ChunkToolAbort {Native} a.
Arguments ChunkContent {Native} type text done.
Arguments ChunkTool {Native} id name state status call done.
Arguments ChunkUsage {Native} usage.
Arguments ChunkOpenAIMessageId {Native} id.
Arguments ChunkThrown {Native} error.
Arguments caughtToolAbort {Native} error.

(* ===================================================================== *)
(** * 7. The Ollama provider (providers/ollama.ts) *)
(* ===================================================================== *)

(** [`${n}`] for a length. *)
Definition string_of_nat (n : nat) : string :=
  NilEmpty.string_of_uint (Nat.to_uint n).

(** The parts of Ollama's [ChatResponse] the normalizer reads:
    [tool.function.name] and [tool.function.arguments], [chunk.message],
    [chunk.done] and the two counters. *)
Record OllamaToolCall : Type := {
  function_name : string;
  function_arguments : Json
}.

Record OllamaMessage : Type := {
  message_content : string;
  message_thinking : option string;
  tool_calls : option (list OllamaToolCall)
}.

Record ChatResponse : Type := {
  message : OllamaMessage;
  done : bool;
  eval_count : option nat;
  prompt_eval_count : option nat
}.

(** [LlmToolCall].  [call_args] is the value whose JSON text the source
    stores ([JSON.stringify]) and reads back ([JSON.parse]). *)
Record LlmToolCall : Type := {
  call_id : string;
  call_message : OllamaToolCall;
  call_function : string;
  call_args : Json
}.

(** [LlmToolChoice] *)
Inductive LlmToolChoice : Type :=
| ToolChoiceNone
| ToolChoiceAuto
| ToolChoiceRequired
| ToolChoiceNamed (name : string).

(** The options of [LlmCompletionOpts] the engine reads; its [abortSignal]
    is the cancellation signal of the run. *)
Record LlmCompletionOpts : Type := {
  toolChoice : option LlmToolChoice;
  toolExecutionValidation : option LlmToolExecutionValidationCallback;
  visionFallbackModel : option ChatModel;
  opts_usage : bool
}.

(** [opts || {}] *)
Definition noOpts : LlmCompletionOpts :=
  {| toolChoice := None; toolExecutionValidation := None;
     visionFallbackModel := None; opts_usage := false |}.

(** The entries of [context.thread]: the payloads built from the
    conversation, the assistant messages that carried tool calls, and the
    tool results ([{ role: 'tool', content: JSON.stringify(content) }]). *)
Inductive ThreadEntry : Type :=
| ThreadPayload (p : LLmCompletionPayload)
| ThreadAssistant (m : OllamaMessage)
| ThreadToolResult (content : Json).

(** [OllamaStreamingContext] *)
Record OllamaStreamingContext : Type := {
  ctx_model : ChatModel;
  thread : list ThreadEntry;
  opts : LlmCompletionOpts;
  toolCalls : list LlmToolCall;
  usage : LlmUsage;
  thinking : bool
}.

(** The context together with the record of the calls made to validation
    callbacks and plugins. *)
Record OllamaWorld : Type := {
  ollama_context : OllamaStreamingContext;
  calls : list CallEvent
}.

Definition logCall (e : CallEvent) (w : OllamaWorld) : OllamaWorld :=
  {| ollama_context := ollama_context w; calls := (calls w ++ [e])%list |}.

Definition onContext (f : OllamaStreamingContext -> OllamaStreamingContext)
  (w : OllamaWorld) : OllamaWorld :=
  {| ollama_context := f (ollama_context w); calls := calls w |}.

Definition pushToolCall (c : LlmToolCall) (x : OllamaStreamingContext)
  : OllamaStreamingContext :=
  {| ctx_model := ctx_model x; thread := thread x; opts := opts x;
     toolCalls := (toolCalls x ++ [c])%list; usage := usage x;
     thinking := thinking x |}.

Definition pushThread (e : ThreadEntry) (x : OllamaStreamingContext)
  : OllamaStreamingContext :=
  {| ctx_model := ctx_model x; thread := (thread x ++ [e])%list; opts := opts x;
     toolCalls := toolCalls x; usage := usage x; thinking := thinking x |}.

Definition setThinking (b : bool) (x : OllamaStreamingContext)
  : OllamaStreamingContext :=
  {| ctx_model := ctx_model x; thread := thread x; opts := opts x;
     toolCalls := toolCalls x; usage := usage x; thinking := b |}.

(** [context.toolCalls = []; context.thinking = false] *)
Definition resetForStream (x : OllamaStreamingContext) : OllamaStreamingContext :=
  {| ctx_model := ctx_model x; thread := thread x; opts := opts x;
     toolCalls := []; usage := usage x; thinking := false |}.

(** [x ?? 0] *)
Definition orZero (n : option nat) : nat :=
  match n with Some v => v | None => 0 end.

Definition addUsage (chunk : ChatResponse) (x : OllamaStreamingContext)
  : OllamaStreamingContext :=
  {| ctx_model := ctx_model x; thread := thread x; opts := opts x;
     toolCalls := toolCalls x;
     usage :=
       {| prompt_tokens := prompt_tokens (usage x) + orZero (prompt_eval_count chunk);
          completion_tokens := completion_tokens (usage x) + orZero (eval_count chunk) |};
     thinking := thinking x |}.

(** [if (context.opts.toolChoice?.type === 'tool') delete context.opts.toolChoice] *)
Definition clearForcedToolChoice (x : OllamaStreamingContext) : OllamaStreamingContext :=
  match toolChoice (opts x) with
  | Some (ToolChoiceNamed _) =>
      {| ctx_model := ctx_model x; thread := thread x;
         opts := {| toolChoice := None;
                    toolExecutionValidation := toolExecutionValidation (opts x);
                    visionFallbackModel := visionFallbackModel (opts x);
                    opts_usage := opts_usage (opts x) |};
         toolCalls := toolCalls x; usage := usage x; thinking := thinking x |}
  | _ => x
  end.

Definition nonEmpty (s : string) : bool := negb (String.eqb s EmptyString).

(** Truthiness of an optional counter. *)
Definition nonZero (n : option nat) : bool :=
  match n with Some (S _) => true | _ => false end.

Definition OllamaChunk : Type := LlmChunk ChatResponse.

Section Ollama.

Local Open Scope gen_scope.

(** The plugin registry [this.plugins], and the Ollama client answering a
    streaming request ([this.client.chat({..., stream: true})]) for the
    context it is asked with. *)
Variable plugins : list Plugin.
Variable chat : OllamaStreamingContext -> LlmStream ChatResponse.

(** [doStream] *)
Definition doStream : M OllamaChunk OllamaWorld (LlmStream ChatResponse) :=
  modify (onContext resetForStream) ;;
  x <- gets ollama_context ;;
  ret (chat x).

(** The body of [for await (const update of this.callTool(...))]. *)
Definition onUpdate (toolCall : LlmToolCall) (args : Json)
  (update : PluginExecutionUpdate) (lastUpdate : option PluginExecutionResult)
  : M OllamaChunk OllamaWorld (Ctl (option PluginExecutionResult) Empty_set) :=
  match update with
  | UpdateStatus status =>
      yield (ChunkTool (call_id toolCall) (call_function toolCall) Running
               (JString status) (Some (args, JUndefined)) false) ;;
      ret (Next lastUpdate)
  | UpdateResult r => ret (Next (Some r))
  end.

Definition loopValue {A} (c : Ctl A Empty_set) : A :=
  match c with
  | Next a => a
  | Return r => match r with end
  end.

(** The status of the last tool chunk. *)
Definition finalStatus (toolCall : LlmToolCall) (args : Json)
  (o : ToolExecutionOutcome) : Json :=
  if outcome_canceled o
  then orElse (optString (getToolCanceledDescription plugins (call_function toolCall) args))
         (orElse (getField (outcome_content o) "error")
            (JString "Tool execution was canceled"))
  else optString (getToolCompletedDescription plugins (call_function toolCall) args
                    (outcome_content o)).

(** The body of [for (const tool of chunk.message.tool_calls)]. *)
Definition processToolCall (chunk : ChatResponse) (tool : OllamaToolCall)
  : M OllamaChunk OllamaWorld (Ctl unit unit) :=
  n <- gets (fun w => length (toolCalls (ollama_context w))) ;;
  let toolCall :=
    {| call_id := string_of_nat n;
       call_message := tool;
       call_function := function_name tool;
       call_args := orElse (function_arguments tool) (JString EmptyString) |} in
  modify (onContext (pushToolCall toolCall)) ;;
  yield (ChunkTool (call_id toolCall) (call_function toolCall) Preparing
           (JString (getToolPreparationDescription plugins (call_function toolCall)))
           None false) ;;
  let args := call_args toolCall in
  tryCatch
    (yield (ChunkTool (call_id toolCall) (call_function toolCall) Running
              (JString (getToolRunningDescription plugins (call_function toolCall) args))
              (Some (args, JUndefined)) false) ;;
     x <- gets ollama_context ;;
     c <- (fun w =>
             forAwait
               (callTool logCall plugins
                  {| context_model := model_id (ctx_model x) |}
                  (call_function toolCall) args
                  (toolExecutionValidation (opts x)) w)
               (onUpdate toolCall args) None) ;;
     o <- liftResult
            (processToolExecutionResult "ollama" (call_function toolCall) args
               (loopValue c)) ;;
     yield (ChunkTool (call_id toolCall) (call_function toolCall)
              (if outcome_canceled o then Canceled else Completed)
              (finalStatus toolCall args o)
              (Some (args, outcome_content o)) true) ;;
     modify (onContext (pushThread (ThreadAssistant (message chunk)))) ;;
     modify (onContext (pushThread (ThreadToolResult (outcome_content o)))) ;;
     isAborted <- aborted ;;
     if isAborted : bool then ret (Return tt) else ret (Next tt))
    (fun error =>
       isAborted <- aborted ;;
       if isAborted : bool
       then
         yield (ChunkTool (call_id toolCall) (call_function toolCall) Canceled
                  (optString (getToolCanceledDescription plugins
                                (call_function toolCall) args))
                  (Some (args, JUndefined)) true) ;;
         ret (Return tt)
       else throw error).

(** The last part of [nativeChunkToLlmChunk]: a chunk without tool calls. *)
Definition textChunk (chunk : ChatResponse) : M OllamaChunk OllamaWorld unit :=
  let text := message_content (message chunk) in
  if String.eqb text "<think>" then modify (onContext (setThinking true))
  else if String.eqb text "</think>" then modify (onContext (setThinking false))
  else
    match message_thinking (message chunk) with
    | Some t =>
        if nonEmpty t then yield (ChunkContent TypeReasoning t (done chunk))
        else ret tt
    | None => ret tt
    end ;;
    (if nonEmpty text || done chunk
     then
       x <- gets ollama_context ;;
       yield (ChunkContent (if thinking x then TypeReasoning else TypeContent)
                text (done chunk))
     else ret tt) ;;
    x <- gets ollama_context ;;
    if opts_usage (opts x) && done chunk
    then yield (ChunkUsage (usage x))
    else ret tt.

(** [nativeChunkToLlmChunk] of the Ollama provider. *)
Definition nativeChunkToLlmChunk (chunk : ChatResponse) : M OllamaChunk OllamaWorld unit :=
  (if done chunk && (nonZero (eval_count chunk) || nonZero (prompt_eval_count chunk))
   then modify (onContext (addUsage chunk))
   else ret tt) ;;
  match tool_calls (message chunk) with
  | Some (first :: others) =>
      c <- forOf (first :: others) (processToolCall chunk) ;;
      match c with
      | Return _ => ret tt
      | Next _ =>
          modify (onContext clearForcedToolChoice) ;;
          s <- doStream ;;
          yield (ChunkStream s)
      end
  | _ => textChunk chunk
  end.

(** [thread.some((msg) => msg.attachments.some(a => a.isImage()))]: the
    messages are visited in order up to the first that carries an image;
    visiting a message whose attachments array is absent throws a
    [TypeError]. *)
Fixpoint someImage (thread : list Message) : bool + Thrown :=
  match thread with
  | [] => inl false
  | msg :: rest =>
      match attachments msg with
      | None => inr (typeError "undefined" "some")
      | Some l => if existsb isImage l then inl true else someImage rest
      end
  end.

(** [requiresVisionModelSwitch] and [selectModel] (engine.ts). *)
Definition requiresVisionModelSwitch (thread : list Message) (currentModel : ChatModel)
  : bool + Thrown :=
  if vision (capabilities currentModel) then inl false
  else someImage thread.

Definition selectModel (model : ChatModel) (thread : list Message)
  (o : option LlmCompletionOpts) : ChatModel + Thrown :=
  match o with
  | None => inl model
  | Some opts =>
      match requiresVisionModelSwitch thread model with
      | inr error => inr error
      | inl true =>
          match visionFallbackModel opts with
          | None => inl model
          | Some fallback => inl fallback
          end
      | inl false => inl model
      end
  end.

(** The context [stream] builds for the model selected, as [doStream]
    leaves it. *)
Definition streamContext (model : ChatModel) (thread : list Message)
  (o : option LlmCompletionOpts) : OllamaStreamingContext :=
  resetForStream
    {| ctx_model := model;
       thread := map ThreadPayload
                   (@buildPayload OllamaEngine model (ThreadMessages thread));
       opts := match o with Some opts => opts | None => noOpts end;
       toolCalls := [];
       usage := {| prompt_tokens := 0; completion_tokens := 0 |};
       thinking := false |}.

(** [stream] of the Ollama provider: the context of the generation and its
    first native stream, or what [selectModel] throws. *)
Definition ollama_stream (model : ChatModel) (thread : list Message)
  (o : option LlmCompletionOpts)
  : LlmStreamingResponse ChatResponse OllamaWorld + Thrown :=
  match selectModel model thread o with
  | inr error => inr error
  | inl model =>
      let context := streamContext model thread o in
      inl {| stream := chat context;
             context := {| ollama_context := context; calls := [] |} |}
  end.

(** [generate] of an Ollama engine: the run, or what [stream] throws before
    any chunk is read. *)
Definition ollama_generate (signal : nat -> bool) (fuel : nat) (model : ChatModel)
  (thread : list Message) (o : option LlmCompletionOpts)
  : Generation ChatResponse OllamaWorld + Thrown :=
  match ollama_stream model thread o with
  | inr error => inr error
  | inl response => inl (generate nativeChunkToLlmChunk signal fuel response)
  end.

End Ollama.

(* ===================================================================== *)
(** * 8. Vocabulary of the properties *)
(* ===================================================================== *)

(** The texts a payload content carries as text: the flat string itself, or
    the texts of the text segments of the array, in order. *)
Definition segmentTexts (l : list LlmContentPayload) : list string :=
  flat_map (fun c => match c with
                     | ContentPayloadText t => [t]
                     | ContentPayloadImageOpenai _ => []
                     end) l.

Definition textSegments (c : PayloadContent) : list string :=
  match c with
  | ContentString s => [s]
  | ContentArray l => segmentTexts l
  end.

(** The contents of the text attachments that are loaded (non-null content),
    in order. *)
Definition loadedTexts (atts : list Attachment) : list string :=
  flat_map (fun a => match content a with
                     | Some s => if isText a then [s] else []
                     | None => []
                     end) atts.

(** [text], then each of [more], joined by a blank line. *)
Definition joinTexts (text : string) (more : list string) : string :=
  fold_left (fun acc t => acc ++ nl2 ++ t) more text.

Definition attachmentsOf (msg : Message) : list Attachment :=
  match attachments msg with Some l => l | None => [] end.

Definition withAttachments (msg : Message) (atts : list Attachment) : Message :=
  {| role := role msg; contentForModel := contentForModel msg;
     attachments := Some atts |}.

(** The image segment [addImageToPayload] builds for an attachment. *)
Definition isImageOf (a : Attachment) (c : LlmContentPayload) : bool :=
  match c with
  | ContentPayloadImageOpenai url => String.eqb url (dataUrl a)
  | ContentPayloadText _ => false
  end.

Definition isImageSegment (c : LlmContentPayload) : bool :=
  match c with
  | ContentPayloadImageOpenai _ => true
  | ContentPayloadText _ => false
  end.

Definition contentSegments (p : LLmCompletionPayload) : list LlmContentPayload :=
  match payload_content p with
  | ContentString _ => []
  | ContentArray l => l
  end.

(** The image attachment [a] appears in the payloads [ps]. *)
Definition imageIncluded (a : Attachment) (ps : list LLmCompletionPayload) : bool :=
  existsb (fun p => existsb (isImageOf a) (contentSegments p)) ps.

(** The ids of the tool calls a chunk sequence announces: each tool call is
    announced by one chunk in state ['preparing']. *)
Definition announcedIds {Native} (l : list (LlmChunk Native)) : list string :=
  flat_map (fun c => match c with
                     | ChunkTool id _ Preparing _ _ _ => [id]
                     | _ => []
                     end) l.

(** The last state reported for the tool call [id]. *)
Definition lastToolState {Native} (id : string) (l : list (LlmChunk Native))
  : option ToolExecutionState :=
  fold_left (fun acc c => match c with
                          | ChunkTool id' _ st _ _ _ =>
                              if String.eqb id' id then Some st else acc
                          | _ => acc
                          end) l None.

(** Nothing is forwarded after a tool-abort chunk. *)
Definition endsAtToolAbort {Native} (l : list (LlmChunk Native)) : Prop :=
  forall pre a post, l = (pre ++ ChunkToolAbort a :: post)%list -> post = [].


(** The record a run of [callTool] leaves of the execution of a plugin. *)
Definition executionEvent (plugin : Plugin) (payload : Json) : CallEvent :=
  match execution plugin with
  | Execute _ => CalledExecute (getName plugin) payload
  | ExecuteWithUpdates _ => CalledExecuteWithUpdates (getName plugin) payload
  end.

(** The validation callback, if any, allows the call. *)
Definition allows (validate : option LlmToolExecutionValidationCallback)
  (context : PluginExecutionContext) (tool : string) (args : Json) : bool :=
  match validate with
  | Some f => isAllow (decision (f context tool args))
  | None => true
  end.

(** The state after the validation callback, if any, has been called. *)
Definition afterValidation {World} (logCall : CallEvent -> World -> World)
  (validate : option LlmToolExecutionValidationCallback) (tool : string) (args : Json)
  (w : World) : World :=
  match validate with
  | Some _ => logCall (CalledValidation tool args) w
  | None => w
  end.

(** A property of the shared state holds wherever a generator is suspended
    or ends, provided its consumer keeps it. *)
Inductive Keeps {Y St R} (P : St -> Prop) : Gen Y St R -> Prop :=
| KeepsRet r s : P s -> Keeps P (Ret r s)
| KeepsRaise e s : P s -> Keeps P (Raise e s)
| KeepsYield y s k : P s -> (forall s', P s' -> Keeps P (k s')) -> Keeps P (Yield y s k)
| KeepsAsk k : (forall b, Keeps P (k b)) -> Keeps P (Ask k).

(** The recorded tool calls are numbered from 0, in order. *)
Definition numbered (x : OllamaStreamingContext) : Prop :=
  map call_id (toolCalls x) = map string_of_nat (seq 0 (length (toolCalls x))).

Definition endState {St R} (e : Ending St R) : St :=
  match e with
  | Returned _ s => s
  | Threw _ s => s
  end.

(** The world once [nativeChunkToLlmChunk] has counted the usage a native
    chunk reports. *)
Definition afterUsage (chunk : ChatResponse) (w : OllamaWorld) : OllamaWorld :=
  if done chunk && (nonZero (eval_count chunk) || nonZero (prompt_eval_count chunk))
  then onContext (addUsage chunk) w
  else w.

(** The [LlmToolCall] recorded for the native tool call [t] in the world [w]. *)
Definition recordedCall (w : OllamaWorld) (t : OllamaToolCall) : LlmToolCall :=
  {| call_id := string_of_nat (length (toolCalls (ollama_context w)));
     call_message := t;
     call_function := function_name t;
     call_args := orElse (function_arguments t) (JString EmptyString) |}.

(** The first two chunks of a tool call. *)
Definition preparingChunk (plugins : list Plugin) (c : LlmToolCall) : OllamaChunk :=
  ChunkTool (call_id c) (call_function c) Preparing
    (JString (getToolPreparationDescription plugins (call_function c))) None false.

Definition runningChunk (plugins : list Plugin) (c : LlmToolCall) : OllamaChunk :=
  ChunkTool (call_id c) (call_function c) Running
    (JString (getToolRunningDescription plugins (call_function c) (call_args c)))
    (Some (call_args c, JUndefined)) false.

(** The result [callTool] reports when validation does not allow the call. *)
Definition deniedResult (tool : string) (v : LlmToolExecutionValidationResponse) : Json :=
  errorResult ("Tool " ++ tool ++ " execution denied by validation function. Reason: "
                 ++ reasonOrForbidden v).

(** The last chunk of a tool call that validation denied. *)
Definition deniedChunk (plugins : list Plugin) (c : LlmToolCall)
  (v : LlmToolExecutionValidationResponse) : OllamaChunk :=
  ChunkTool (call_id c) (call_function c) Canceled
    (finalStatus plugins c (call_args c)
       {| outcome_content := deniedResult (call_function c) v;
          outcome_canceled := true |})
    (Some (call_args c, deniedResult (call_function c) v)) true.

(** The context a piece of a run of [generate] leaves. *)
Definition worldOf {Native World}
  (fl : Flow World (option (LlmStream Native) * World)) : World :=
  match fl with
  | Continues (_, w) _ => w
  | Stops _ w => w
  end.

(** The context of the world is numbered. *)
Definition numberedWorld (w : OllamaWorld) : Prop := numbered (ollama_context w).

(** One step of symbolic execution of the generators. *)
Ltac step :=
  cbn [bind catch forAwait forOf drainChunk caughtToolAbort emit fst snd app andThen
       bindM gets modify yield tryCatch aborted ret throw liftResult
       onContext ollama_context opts pushToolCall pushThread addUsage ctx_model
       call_function call_args call_id isAllow onUpdate loopValue
       deniedUpdate validation abortDecision isDenied result canceled
       outcome_canceled outcome_content orElse truthy errorResult orb].

(* ===================================================================== *)
(** * 9. Scenarios *)
(* ===================================================================== *)

Module Scenario.

Definition plainModel : ChatModel :=
  {| model_id := "llama3.2"; model_name := "llama3.2";
     capabilities := {| tools := true; vision := false; reasoning := false;
                        caching := false |} |}.

Definition visionModel : ChatModel :=
  {| model_id := "llava"; model_name := "llava";
     capabilities := {| tools := false; vision := true; reasoning := false;
                        caching := false |} |}.

Definition notes : Attachment :=
  {| content := Some "notes"; mimeType := "text/plain"; kind := TextKind |}.

Definition more : Attachment :=
  {| content := Some "more"; mimeType := "text/plain"; kind := TextKind |}.

Definition picture : Attachment :=
  {| content := Some "AAAA"; mimeType := "image/png"; kind := ImageKind |}.

Definition systemMessage : Message :=
  {| role := system; contentForModel := Some "be brief";
     attachments := Some [notes; more] |}.

Definition userMessage : Message :=
  {| role := user; contentForModel := Some "hi";
     attachments := Some [notes; more] |}.

Definition pictureMessage : Message :=
  {| role := user; contentForModel := Some "look";
     attachments := Some [picture] |}.

(** A message whose model-facing content is [null] (lazily loaded). *)
Definition emptyMessage : Message :=
  {| role := user; contentForModel := None; attachments := Some [picture] |}.

(** A single-shot plugin [search] answering [{ hits: 3 }]. *)
Definition search : Plugin :=
  {| getName := "search";
     handlesTool := None;
     execution := Execute (fun _ _ => inl (JObject [("hits", JNumber 3)]));
     getPreparationDescription := fun _ => "Preparing search";
     getRunningDescription := fun _ _ => "Searching";
     getCompletedDescription := fun _ _ _ => Some "Search done";
     getCanceledDescription := fun _ _ => None |}.

(** A multi-tool plugin handling every tool whose name starts with [fs_]. *)
Definition files : Plugin :=
  {| getName := "files";
     handlesTool := Some (fun tool => String.prefix "fs_" tool);
     execution := Execute (fun _ payload => inl payload);
     getPreparationDescription := fun _ => EmptyString;
     getRunningDescription := fun _ _ => EmptyString;
     getCompletedDescription := fun _ _ _ => None;
     getCanceledDescription := fun _ _ => None |}.

Definition registry : list Plugin := [search; files].

Definition searchCall : OllamaToolCall :=
  {| function_name := "search"; function_arguments := JString "cats" |}.

(** A native chunk declaring the tool call [search("cats")], and the native
    chunk that ends a stream. *)
Definition toolChunk : ChatResponse :=
  {| message := {| message_content := EmptyString; message_thinking := None;
                   tool_calls := Some [searchCall] |};
     done := false; eval_count := None; prompt_eval_count := None |}.

Definition doneChunk : ChatResponse :=
  {| message := {| message_content := "bye"; message_thinking := None;
                   tool_calls := None |};
     done := true; eval_count := None; prompt_eval_count := None |}.

(** An Ollama server that asks for [search] twice, then says goodbye: it
    answers by the length of the thread it is sent. *)
Definition server (x : OllamaStreamingContext) : LlmStream ChatResponse :=
  match length (thread x) with
  | 1 => {| chunks := [toolChunk; doneChunk]; controller := Some 1 |}
  | 3 => {| chunks := [toolChunk; doneChunk]; controller := Some 2 |}
  | _ => {| chunks := [doneChunk]; controller := None |}
  end.

Definition conversation : list Message :=
  [{| role := user; contentForModel := Some "hi"; attachments := Some [] |}].

Definition answering (d : LlmToolExecutionValidationDecision)
  : LlmToolExecutionValidationCallback :=
  fun _ _ _ => {| decision := d; reason := None; extra := JUndefined |}.

Definition validatedBy (d : LlmToolExecutionValidationDecision) : LlmCompletionOpts :=
  {| toolChoice := None; toolExecutionValidation := Some (answering d);
     visionFallbackModel := None; opts_usage := false |}.

Definition never : nat -> bool := fun _ => false.
Definition always : nat -> bool := fun _ => true.

(** The context [stream] builds for that conversation, with a validation
    callback. *)
Definition startWorld (d : LlmToolExecutionValidationDecision) : OllamaWorld :=
  {| ollama_context := streamContext plainModel conversation (Some (validatedBy d));
     calls := [] |}.

(** A normalizer for a provider whose native chunks are numbers: chunk 0
    yields a switch directive and then a final content chunk; any other
    chunk yields one content chunk. *)
Definition toyStream : LlmStream nat := {| chunks := [7]; controller := None |}.

Definition toyNormalizer (chunk : nat) (w : unit) : Gen (LlmChunk nat) unit unit :=
  match chunk with
  | 0 => Yield (ChunkStream toyStream) w
           (fun w' => Yield (ChunkContent TypeContent "end" true) w'
                        (fun w'' => Ret tt w''))
  | _ => Yield (ChunkContent TypeContent "text" true) w (fun w' => Ret tt w')
  end.

(** A normalizer whose chunk 0 raises a tool abort. *)
Definition abortNotice : LlmChunkToolAbort :=
  {| abort_name := "search"; abort_params := JString "cats";
     abort_reason := {| decision := abort; reason := None; extra := JUndefined |} |}.

Definition abortingNormalizer (chunk : nat) (w : unit)
  : Gen (LlmChunk nat) unit unit :=
  match chunk with
  | 0 => Raise (ThrowToolAbort abortNotice) w
  | _ => Yield (ChunkContent TypeContent "text" true) w (fun w' => Ret tt w')
  end.

Definition abortingStream : LlmStream nat :=
  {| chunks := [0; 1]; controller := None |}.

(** A stream without abort controller. *)
Definition bareStream : LlmStream nat := {| chunks := [1; 2]; controller := None |}.

End Scenario.

(* ===================================================================== *)
(** * 9a. More of the engine: registry, tool schemas, single-shot chat *)
(* ===================================================================== *)

(** [LlmEngine.clearPlugins] and [LlmEngine.addPlugin], on the registry
    [this.plugins]. *)
Definition clearPlugins (plugins : list Plugin) : list Plugin := [].

Definition addPlugin (plugins : list Plugin) (plugin : Plugin) : list Plugin :=
  (filter (fun p => negb (String.eqb (getName p) (getName plugin))) plugins
   ++ [plugin])%list.

(** The own properties of a JavaScript object created as [{}], which are
    what the object serialises to.  With [v] an object, as it is wherever
    the engine assigns, [obj[key] = v] replaces the own property [key] when
    there is one and adds it otherwise, except for the key [__proto__]: that
    is the accessor [Object.prototype] defines, so the assignment replaces
    the prototype of [obj] and adds no own property.  [readKey] reads an
    own property.  The order in which JavaScript enumerates the keys is not
    modelled. *)
Definition JsObject (V : Type) : Type := list (string * V).

Fixpoint assignOwn {V} (obj : JsObject V) (key : string) (v : V) : JsObject V :=
  match obj with
  | [] => [(key, v)]
  | (k, old) :: rest =>
      if String.eqb k key then (k, v) :: rest else (k, old) :: assignOwn rest key v
  end.

Definition assign {V} (obj : JsObject V) (key : string) (v : V) : JsObject V :=
  if String.eqb key "__proto__" then obj else assignOwn obj key v.

Fixpoint readKey {V} (obj : JsObject V) (key : string) : option V :=
  match obj with
  | [] => None
  | (k, v) :: rest => if String.eqb k key then Some v else readKey rest key
  end.

(** [LlmToolArrayItem] and [LlmToolArrayItems] (types/llm.ts); an absent
    [required] reads as [false]. *)
Record LlmToolArrayItem : Type := {
  item_name : string;
  item_type : string;
  item_description : string;
  item_required : bool
}.

Record LlmToolArrayItems : Type := {
  items_type : string;
  items_properties : option (list LlmToolArrayItem)
}.

(** Modelled from the spec: [PluginParameter] (types/plugin.ts) is not part
    of the sources at hand.  [getPluginAsTool] reads of a declared parameter
    its name, an optional type, a description, an optional enumeration,
    optional item metadata and whether it is required. *)
Record PluginParameter : Type := {
  param_name : string;
  param_type : option string;
  param_description : string;
  param_enum : option (list string);
  param_items : option LlmToolArrayItems;
  param_required : bool
}.

(** The schema [getPluginAsTool] builds: [{ type, description }] for a
    nested property, [{ type, properties?, required? }] for the items of an
    array, [LlmToolParameterOpenAI] for a parameter and [LlmToolOpenAI] for
    the tool. *)
Record SchemaProperty : Type := {
  nested_type : string;
  nested_description : string
}.

Record SchemaItems : Type := {
  schema_items_type : string;
  schema_items_properties : option (JsObject SchemaProperty);
  schema_items_required : option (list string)
}.

Record LlmToolParameterOpenAI : Type := {
  schema_type : string;
  schema_description : string;
  schema_enum : option (list string);
  schema_items : option SchemaItems
}.

Record LlmToolOpenAI : Type := {
  function_tool_name : string;
  function_tool_description : string;
  function_tool_properties : JsObject LlmToolParameterOpenAI;
  function_tool_required : list string
}.

(** [a || b] on strings: the empty string is falsy. *)
Definition stringOr (a b : string) : string :=
  if String.eqb a EmptyString then b else a.

(** [param.type || (param.items ? 'array' : 'string')] *)
Definition schemaTypeOf (param : PluginParameter) : string :=
  stringOr (match param_type param with Some t => t | None => EmptyString end)
    (match param_items param with Some _ => "array" | None => "string" end).

(** The items of an array parameter. *)
Definition schemaItemsOf (param : PluginParameter) : SchemaItems :=
  match param_items param with
  | None =>
      {| schema_items_type := "string"; schema_items_properties := None;
         schema_items_required := None |}
  | Some items =>
      match items_properties items with
      | None =>
          {| schema_items_type := items_type items; schema_items_properties := None;
             schema_items_required := None |}
      | Some properties =>
          {| schema_items_type := stringOr (items_type items) "object";
             schema_items_properties :=
               Some (fold_left
                       (fun obj prop =>
                          assign obj (item_name prop)
                            {| nested_type := item_type prop;
                               nested_description := item_description prop |})
                       properties []);
             schema_items_required :=
               Some (map item_name (filter item_required properties)) |}
      end
  end.

(** What the callback of [plugin.getParameters().reduce(...)] has stored
    under [obj[param.name]] when it returns. *)
Definition parameterSchema (param : PluginParameter) : LlmToolParameterOpenAI :=
  let type := schemaTypeOf param in
  {| schema_type := type;
     schema_description := param_description param;
     schema_enum := param_enum param;
     schema_items :=
       if String.eqb type "array" then Some (schemaItemsOf param) else None |}.

(** The callback of [plugin.getParameters().reduce(...)]. *)
Definition addParameter (obj : JsObject LlmToolParameterOpenAI) (param : PluginParameter)
  : JsObject LlmToolParameterOpenAI :=
  assign obj (param_name param) (parameterSchema param).

(** Modelled from the spec: what [getAvailableTools] and [getPluginAsTool]
    read of a plugin (plugin.ts is not part of the sources at hand): whether
    it is enabled, whether it is serialized as a tool schema, its description
    and declared parameters, and, for a custom plugin (['getTools' in
    plugin]), what [getTools()] resolves to: an array of tools, one tool, or
    nothing. *)
Inductive CustomTools : Type :=
| CustomToolList (l : list LlmToolOpenAI)
| CustomTool (t : LlmToolOpenAI)
| NoCustomTool.

Record ToolPlugin : Type := {
  tool_plugin : Plugin;
  isEnabled : bool;
  serializeInTools : bool;
  getDescription : string;
  getParameters : list PluginParameter;
  getTools : option CustomTools
}.

(** [LlmEngine.getPluginAsTool] *)
Definition getPluginAsTool (plugin : ToolPlugin) : LlmToolOpenAI :=
  {| function_tool_name := getName (tool_plugin plugin);
     function_tool_description := getDescription plugin;
     function_tool_properties := fold_left addParameter (getParameters plugin) [];
     function_tool_required :=
       map param_name (filter param_required (getParameters plugin)) |}.

(** One round of the loop of [getAvailableTools]. *)
Definition toolsOfPlugin (plugin : ToolPlugin) : list LlmToolOpenAI :=
  if negb (isEnabled plugin) then []
  else if negb (serializeInTools plugin) then []
  else
    match getTools plugin with
    | Some (CustomToolList l) => l
    | Some (CustomTool t) => [t]
    | Some NoCustomTool => []
    | None => [getPluginAsTool plugin]
    end.

(** [LlmEngine.getAvailableTools] *)
Definition getAvailableTools (plugins : list ToolPlugin) : list LlmToolOpenAI :=
  fold_left (fun tools plugin => (tools ++ toolsOfPlugin plugin)%list) plugins [].

(** [getToolOpts] of the Ollama provider; [optsTools] is [opts?.tools], and
    the answer [{}] is [None]. *)
Definition getToolOpts (plugins : list ToolPlugin) (model : ChatModel)
  (optsTools : option bool) : option (list LlmToolOpenAI) :=
  if match optsTools with Some false => true | _ => false end
     || negb (tools (capabilities model))
  then None
  else
    match getAvailableTools plugins with
    | [] => None
    | t :: ts => Some (t :: ts)
    end.

(** [for (const x of l) { body }] with loop variables. *)
Fixpoint forEach {Y St X A R} (l : list X) (body : X -> A -> St -> Gen Y St (Ctl A R))
  (acc : A) (s : St) : Gen Y St (Ctl A R) :=
  match l with
  | [] => Ret (Next acc) s
  | x :: rest =>
      bind (body x acc s)
        (fun c s' =>
           match c with
           | Next a => forEach rest body a s'
           | Return r => Ret (Return r) s'
           end)
  end.

(** [LlmToolCallInfo] and [LlmResponse] (types/llm.ts).  A token count that
    is [undefined] or not a number is [None]: adding to it leaves it so. *)
Record LlmToolCallInfo : Type := {
  info_name : string;
  info_params : Json;
  info_result : Json
}.

Record ResponseUsage : Type := {
  response_prompt_tokens : option nat;
  response_completion_tokens : option nat
}.

Record LlmResponse : Type := {
  response_content : string;
  response_toolCalls : list LlmToolCallInfo;
  response_usage : option ResponseUsage
}.

(** [usage.prompt_tokens += n ?? 0] and its sibling. *)
Definition addCounts (u : ResponseUsage) (response : ChatResponse) : ResponseUsage :=
  {| response_prompt_tokens :=
       option_map (fun v => v + orZero (prompt_eval_count response))
         (response_prompt_tokens u);
     response_completion_tokens :=
       option_map (fun v => v + orZero (eval_count response))
         (response_completion_tokens u) |}.

(** The state of a single-shot completion: the thread [chat] is given and
    mutates in place, and the record of the calls made to validation
    callbacks and plugins. *)
Record ChatWorld : Type := {
  chat_thread : list ThreadEntry;
  chat_calls : list CallEvent
}.

Definition chatLog (e : CallEvent) (w : ChatWorld) : ChatWorld :=
  {| chat_thread := chat_thread w; chat_calls := (chat_calls w ++ [e])%list |}.

Definition chatPush (e : ThreadEntry) (w : ChatWorld) : ChatWorld :=
  {| chat_thread := (chat_thread w ++ [e])%list; chat_calls := chat_calls w |}.

Section OllamaChat.

Local Open Scope gen_scope.

(** The registry [this.plugins], and the Ollama client answering a request
    without streaming ([this.client.chat({..., stream: false})]) for the
    thread it is asked with. *)
Variable plugins : list Plugin.
Variable respond : list ThreadEntry -> ChatResponse.
Variable model : ChatModel.
Variable o : option LlmCompletionOpts.

(** The body of [for await (const update of this.callTool(...))] in [chat]. *)
Definition keepResult (update : PluginExecutionUpdate)
  (lastUpdate : option PluginExecutionResult)
  : M Empty_set ChatWorld (Ctl (option PluginExecutionResult) Empty_set) :=
  match update with
  | UpdateResult r => ret (Next (Some r))
  | UpdateStatus _ => ret (Next lastUpdate)
  end.

(** The body of [for (const toolCall of response.message.tool_calls)]. *)
Definition chatToolCall (response : ChatResponse) (toolCall : OllamaToolCall)
  (toolCallInfo : list LlmToolCallInfo)
  : M Empty_set ChatWorld (Ctl (list LlmToolCallInfo) Empty_set) :=
  c <- (fun w =>
          forAwait
            (callTool chatLog plugins {| context_model := model_id model |}
               (function_name toolCall) (function_arguments toolCall)
               (match o with
                | Some opts => toolExecutionValidation opts
                | None => None
                end) w)
            keepResult None) ;;
  r <- liftResult
         (processToolExecutionResult "ollama" (function_name toolCall)
            (function_arguments toolCall) (loopValue c)) ;;
  if outcome_canceled r
  then throw (ThrowError "Tool execution was canceled")
  else
    modify (chatPush (ThreadAssistant (message response))) ;;
    modify (chatPush (ThreadToolResult (outcome_content r))) ;;
    ret (Next (toolCallInfo
                 ++ [{| info_name := function_name toolCall;
                        info_params := function_arguments toolCall;
                        info_result := outcome_content r |}])%list).

Definition wantsUsage : bool :=
  match o with
  | Some opts => opts_usage opts
  | None => false
  end.

(** [chat] of the Ollama provider; [fuel] bounds the number of requests, and
    [None] is returned when it runs out. *)
Fixpoint ollama_chat (fuel : nat) : M Empty_set ChatWorld (option LlmResponse) :=
  match fuel with
  | 0 => ret None
  | S fuel' =>
      thread <- gets chat_thread ;;
      let response := respond thread in
      match tool_calls (message response) with
      | Some (first :: others) =>
          c <- forEach (first :: others) (chatToolCall response) [] ;;
          completion <- ollama_chat fuel' ;;
          match completion with
          | None => ret None
          | Some completion =>
              ret (Some
                     {| response_content := response_content completion;
                        response_toolCalls :=
                          (loopValue c ++ response_toolCalls completion)%list;
                        response_usage :=
                          match response_usage completion with
                          | Some u =>
                              if wantsUsage then Some (addCounts u response)
                              else Some u
                          | None => None
                          end |})
          end
      | _ =>
          ret (Some
                 {| response_content := message_content (message response);
                    response_toolCalls := [];
                    response_usage :=
                      if wantsUsage
                      then Some {| response_prompt_tokens := prompt_eval_count response;
                                   response_completion_tokens := eval_count response |}
                      else None |})
      end
  end.

End OllamaChat.

(** [LlmEngine.complete] for an Ollama engine: the payload is built for the
    model as given and handed to [chat]. *)
Definition ollama_complete (plugins : list Plugin)
  (respond : list ThreadEntry -> ChatResponse) (fuel : nat) (model : ChatModel)
  (thread : list Message) (o : option LlmCompletionOpts)
  : Gen Empty_set ChatWorld (option LlmResponse) :=
  ollama_chat plugins respond model o fuel
    {| chat_thread := map ThreadPayload
                        (@buildPayload OllamaEngine model (ThreadMessages thread));
       chat_calls := [] |}.

(* ===================================================================== *)
(** * 9b. Vocabulary of the further properties *)
(* ===================================================================== *)

(** [msg.type === 'stream'] *)
Definition isSwitch {Native} (msg : LlmChunk Native) : bool :=
  match msg with
  | ChunkStream _ => true
  | _ => false
  end.

(** A postcondition on the way a generator ends, whatever the cancellation
    signal answers, when its consumer resumes it at once. *)
Inductive Always {Y St R} (Q : Ending St R -> Prop) : Gen Y St R -> Prop :=
| AlwaysRet r s : Q (Returned r s) -> Always Q (Ret r s)
| AlwaysRaise e s : Q (Threw e s) -> Always Q (Raise e s)
| AlwaysYield y s k : Always Q (k s) -> Always Q (Yield y s k)
| AlwaysAsk k : (forall b, Always Q (k b)) -> Always Q (Ask k).

(** The image segments of a content array, and the loaded image attachments
    of a message, in order. *)
Definition imageUrls (l : list LlmContentPayload) : list string :=
  flat_map (fun c => match c with
                     | ContentPayloadImageOpenai url => [url]
                     | ContentPayloadText _ => []
                     end) l.

Definition loadedImages (atts : list Attachment) : list Attachment :=
  filter (fun a => match content a with
                   | Some _ => isImage a
                   | None => false
                   end) atts.

Definition isLoaded (a : Attachment) : bool :=
  match content a with Some _ => true | None => false end.

(** The last parameter declared under the name [k]. *)
Definition lastNamed (k : string) (params : list PluginParameter)
  : option PluginParameter :=
  find (fun p => String.eqb (param_name p) k) (rev params).

(** The plugins [getAvailableTools] does not skip. *)
Definition offered (plugin : ToolPlugin) : bool :=
  isEnabled plugin && serializeInTools plugin.

(** A progressive execution that yields the updates [l] and returns. *)
Fixpoint updates (l : list PluginExecutionUpdate) : Gen PluginExecutionUpdate unit unit :=
  match l with
  | [] => Ret tt tt
  | u :: rest => Yield u tt (fun _ => updates rest)
  end.

(** The answer of the validation callback, if there is one. *)
Definition validationOf (validate : option LlmToolExecutionValidationCallback)
  (context : PluginExecutionContext) (tool : string) (args : Json)
  : option LlmToolExecutionValidationResponse :=
  match validate with
  | Some f => Some (f context tool args)
  | None => None
  end.

(** How a run of a plugin's generator ends, seen next to the state [s]. *)
Definition endingBeside {St} (e : Ending unit unit) (s : St) : Ending St unit :=
  match e with
  | Returned _ _ => Returned tt s
  | Threw error _ => Threw error s
  end.

(** A native chunk of the Ollama client that carries text only. *)
Definition textOnly (text : string) (final : bool) : ChatResponse :=
  {| message := {| message_content := text; message_thinking := None;
                   tool_calls := None |};
     done := final; eval_count := None; prompt_eval_count := None |}.

(** Every value a generator yields satisfies [ok] and every value it throws
    satisfies [fails], whatever the signal answers and whatever state it is
    resumed with. *)
Inductive Emits {Y St R} (ok : Y -> Prop) (fails : Thrown -> Prop)
  : Gen Y St R -> Prop :=
| EmitsRet r s : Emits ok fails (Ret r s)
| EmitsRaise e s : fails e -> Emits ok fails (Raise e s)
| EmitsYield y s k :
    ok y -> (forall s', Emits ok fails (k s')) -> Emits ok fails (Yield y s k)
| EmitsAsk k : (forall b, Emits ok fails (k b)) -> Emits ok fails (Ask k).

(** What a run of [generate] may forward, given that the normalizer yields
    chunks satisfying [ok] only and throws values satisfying [fails] only: a
    chunk of the normalizer that is no switch directive, as it is or with
    its done flag cleared, or the chunk the [catch] of the inner loop makes
    of a value the normalizer threw. *)
Definition fromNormalizer {Native} (ok : LlmChunk Native -> Prop)
  (fails : Thrown -> Prop) (msg : LlmChunk Native) : Prop :=
  (isSwitch msg = false /\ exists msg0 n, ok msg0 /\ msg = clearStaleDone n msg0)
  \/ (exists e, fails e /\ caughtToolAbort e = inl msg).

(** A piece of a run fails only with what the [catch] of the inner loop
    throws for a value the normalizer threw. *)
Definition failsWith {World A} (Native : Type) (fails : Thrown -> Prop)
  (fl : Flow World A) : Prop :=
  match fl with
  | Stops (Failed rethrown) _ =>
      exists e, fails e /\ caughtToolAbort (Native := Native) e = inr rethrown
  | _ => True
  end.

(** The last chunk of a tool call that was run to its end, with the result
    [content]. *)
Definition completedChunk (plugins : list Plugin) (c : LlmToolCall) (content : Json)
  : OllamaChunk :=
  ChunkTool (call_id c) (call_function c) Completed
    (finalStatus plugins c (call_args c)
       {| outcome_content := content; outcome_canceled := false |})
    (Some (call_args c, content)) true.

(** [result || { error: 'No result from tool' }] *)
Definition contentOf (res : Json) : Json :=
  orElse res (errorResult "No result from tool").

(** The world once the tool call [t] of the native chunk [chunk] has been
    recorded and the validation callback has been called for it. *)
Definition afterRefusal (chunk : ChatResponse) (t : OllamaToolCall) (w : OllamaWorld)
  : OllamaWorld :=
  let tc := recordedCall (afterUsage chunk w) t in
  logCall (CalledValidation (call_function tc) (call_args tc))
    (onContext (pushToolCall tc) (afterUsage chunk w)).

(** The chunk by which the handler of the Ollama normalizer reports a tool
    call as canceled when it finds the signal set. *)
Definition canceledByHandler (plugins : list Plugin) (c : LlmToolCall) : OllamaChunk :=
  ChunkTool (call_id c) (call_function c) Canceled
    (optString (getToolCanceledDescription plugins (call_function c) (call_args c)))
    (Some (call_args c, JUndefined)) true.


(** [!chunk.message.tool_calls?.length] *)
Definition noToolCalls (chunk : ChatResponse) : bool :=
  match tool_calls (message chunk) with
  | Some (_ :: _) => false
  | _ => true
  end.


(** The thread entries a list of completed tool calls leaves: for each, the
    assistant message that asked for it and its result. *)
Definition roundEntries (rounds : list (OllamaMessage * Json)) : list ThreadEntry :=
  flat_map (fun r => [ThreadAssistant (fst r); ThreadToolResult (snd r)]) rounds.

(** The result a tool chunk carries when it is the last chunk of a call
    brought to its end: [done] is set and [call.result] is defined (the
    chunk the handler of a thrown value yields under cancellation carries
    [result: undefined]). *)
Definition finalResult {Native} (msg : LlmChunk Native) : option Json :=
  match msg with
  | ChunkTool _ _ _ _ (Some (_, r)) true =>
      match r with
      | JUndefined => None
      | _ => Some r
      end
  | _ => None
  end.

(** The results seen so far, once one more chunk has been seen. *)
Definition withResult {Native} (results : list Json) (msg : LlmChunk Native)
  : list Json :=
  match finalResult msg with
  | Some r => (results ++ [r])%list
  | None => results
  end.

(** The results of the calls whose last chunk is among [msgs], in order. *)
Definition finalResults {Native} (msgs : list (LlmChunk Native)) : list Json :=
  fold_left withResult msgs [].

(** The thread is [start] followed by whole tool rounds, whose results are
    [results], in order. *)
Definition threadOf (start : list ThreadEntry) (results : list Json)
  (w : OllamaWorld) : Prop :=
  exists rounds,
    thread (ollama_context w) = (start ++ roundEntries rounds)%list
    /\ map snd rounds = results.

Section Tracking.

Variables Y St G : Type.

(** What is remembered of the values yielded so far, and how a value
    yielded updates it. *)
Variable obs : G -> Y -> G.

(** What relates the state to what is remembered. *)
Variable I : G -> St -> Prop.

(** A generator whose consumer resumes it with the state it was suspended
    with, as [generate] does, started when [seen] is remembered: at each
    [yield] the state is related to what was remembered before it, and the
    generator ends with [Q] or throws with [E]. *)
Inductive Tracks {R} (Q : G -> R -> St -> Prop) (E : G -> Thrown -> St -> Prop)
  : G -> Gen Y St R -> Prop :=
| TracksRet seen r s : Q seen r s -> Tracks Q E seen (Ret r s)
| TracksRaise seen e s : E seen e s -> Tracks Q E seen (Raise e s)
| TracksYield seen y s k :
    I seen s -> Tracks Q E (obs seen y) (k s) -> Tracks Q E seen (Yield y s k)
| TracksAsk seen k : (forall b, Tracks Q E seen (k b)) -> Tracks Q E seen (Ask k).

(** The state a run leaves is related to what is remembered of all the
    [msgs] it forwarded, or, when it was cancelled, to what is remembered of
    all of them but the last. *)
Definition uptoLast (seen : G) (msgs : list Y) (cancelled : bool) (s : St) : Prop :=
  I (fold_left obs msgs seen) s
  \/ (cancelled = true
      /\ exists l y, msgs = (l ++ [y])%list /\ I (fold_left obs l seen) s).

(** The state is related to what is remembered, whatever is returned or
    thrown. *)
Definition related {R} : G -> R -> St -> Prop := fun seen _ s => I seen s.

End Tracking.

(** [outcome === cancelled] *)
Definition isCancelled (o : Outcome) : bool :=
  match o with
  | Cancelled => true
  | _ => false
  end.

(** What a piece of a run of [generate] leaves: when the run goes on, the
    context is related to what is remembered of all the chunks forwarded. *)
Definition tracked {Native World G} (obs : G -> LlmChunk Native -> G)
  (I : G -> World -> Prop) (seen : G)
  (t : Trace Native World (option (LlmStream Native) * World)) : Prop :=
  match snd t with
  | Continues (_, w) _ => I (fold_left obs (forwarded (fst t)) seen) w
  | Stops o w => uptoLast obs I seen (forwarded (fst t)) (isCancelled o) w
  end.

Module Catalog.

(** A plugin declaring the parameter [city] twice and an array parameter. *)
Definition city : PluginParameter :=
  {| param_name := "city"; param_type := Some "string";
     param_description := "The city"; param_enum := None; param_items := None;
     param_required := true |}.

Definition cityAgain : PluginParameter :=
  {| param_name := "city"; param_type := None;
     param_description := "The city, again"; param_enum := Some ["Paris"; "Rome"];
     param_items := None; param_required := false |}.

Definition days : PluginParameter :=
  {| param_name := "days"; param_type := None;
     param_description := "The days"; param_enum := None;
     param_items :=
       Some {| items_type := EmptyString;
               items_properties :=
                 Some [{| item_name := "day"; item_type := "string";
                          item_description := "A day"; item_required := true |};
                       {| item_name := "hour"; item_type := "number";
                          item_description := "An hour"; item_required := false |}] |};
     param_required := false |}.

Definition weather : ToolPlugin :=
  {| tool_plugin := Scenario.search;
     isEnabled := true; serializeInTools := true;
     getDescription := "Weather forecast";
     getParameters := [city; days; cityAgain];
     getTools := None |}.

Definition disabled : ToolPlugin :=
  {| tool_plugin := Scenario.files;
     isEnabled := false; serializeInTools := true;
     getDescription := "Files";
     getParameters := [];
     getTools := None |}.

(** A progressive plugin that reports two statuses and then its result. *)
Definition crawlUpdates : list PluginExecutionUpdate :=
  [UpdateStatus "fetching"; UpdateStatus "parsing";
   UpdateResult {| result := JString "page"; canceled := false; validation := None |}].

Definition crawler : Plugin :=
  {| getName := "crawl";
     handlesTool := None;
     execution := ExecuteWithUpdates (fun _ _ => updates crawlUpdates);
     getPreparationDescription := fun _ => EmptyString;
     getRunningDescription := fun _ _ => EmptyString;
     getCompletedDescription := fun _ _ _ => None;
     getCanceledDescription := fun _ _ => None |}.

(** A single-shot plugin whose execution rejects. *)
Definition failing (error : Thrown) : Plugin :=
  {| getName := "fail";
     handlesTool := None;
     execution := Execute (fun _ _ => inr error);
     getPreparationDescription := fun _ => EmptyString;
     getRunningDescription := fun _ _ => EmptyString;
     getCompletedDescription := fun _ _ _ => None;
     getCanceledDescription := fun _ _ => None |}.

(** Options with a vision fallback. *)
Definition withFallback : LlmCompletionOpts :=
  {| toolChoice := None; toolExecutionValidation := None;
     visionFallbackModel := Some Scenario.visionModel; opts_usage := false |}.

End Catalog.

(* ===================================================================== *)
(** * 10. The payload builder *)
(* ===================================================================== *)

Section PayloadFacts.

Local Open Scope list_scope.

Lemma segmentTexts_app (l1 l2 : list LlmContentPayload) :
  segmentTexts (l1 ++ l2) = segmentTexts l1 ++ segmentTexts l2.
Proof. unfold segmentTexts. apply flat_map_app. Qed.

Lemma loadedTexts_cons (a : Attachment) (atts : list Attachment) :
  loadedTexts (a :: atts) = loadedTexts [a] ++ loadedTexts atts.
Proof. unfold loadedTexts. simpl. rewrite app_nil_r. reflexivity. Qed.

Lemma joinTexts_app (t : string) (l1 l2 : list string) :
  joinTexts t (l1 ++ l2) = joinTexts (joinTexts t l1) l2.
Proof. unfold joinTexts. apply fold_left_app. Qed.

Lemma text_is_not_image (a : Attachment) : isText a = true -> isImage a = false.
Proof. unfold isText, isImage. destruct (kind a); congruence. Qed.

Lemma image_is_not_text (a : Attachment) : isImage a = true -> isText a = false.
Proof. unfold isText, isImage. destruct (kind a); congruence. Qed.

Lemma contentText_some (a : Attachment) (s : string) :
  content a = Some s -> contentText a = s.
Proof. unfold contentText. intros ->. reflexivity. Qed.

(** Merging into the existing text segment of an array that holds exactly
    one. *)
Lemma appendToExistingText_single (l : list LlmContentPayload) (t x : string) :
  segmentTexts l = [t] ->
  exists l', appendToExistingText l x = Some l'
             /\ segmentTexts l' = [t ++ nl2 ++ x]%string.
Proof.
  induction l as [|c l IH]; simpl; intros Hl; [discriminate|].
  destruct c as [s|u]; simpl in Hl.
  - injection Hl as -> Hrest. eexists. split; [reflexivity|].
    simpl. fold (segmentTexts l). rewrite Hrest. reflexivity.
  - destruct (IH Hl) as (l' & -> & Hl'). eexists. split; [reflexivity|].
    simpl. exact Hl'.
Qed.

Lemma appendToExistingText_images (a : Attachment) (l l' : list LlmContentPayload)
  (x : string) :
  appendToExistingText l x = Some l' ->
  existsb (isImageOf a) l' = existsb (isImageOf a) l
  /\ existsb isImageSegment l' = existsb isImageSegment l.
Proof.
  revert l'. induction l as [|c l IH]; simpl; intros l' H; [discriminate|].
  destruct c as [s|u].
  - injection H as <-. split; reflexivity.
  - destruct (appendToExistingText l x) as [r|]; [|discriminate].
    injection H as <-. destruct (IH r eq_refl) as [E1 E2].
    simpl. rewrite E1. split; reflexivity.
Qed.

Variable model : ChatModel.
Variable msg : Message.

(** A flat-text message keeps a single text carrier, to which each loaded
    text attachment is appended. *)
Lemma base_flat_step (p : LLmCompletionPayload) (a : Attachment) (t : string) :
  base_requiresFlatTextPayload msg = true ->
  textSegments (payload_content p) = [t] ->
  textSegments (payload_content (@addAttachment BaseEngine model msg p a))
  = [joinTexts t (loadedTexts [a])].
Proof.
  intros Hflat Hp. unfold addAttachment, loadedTexts. simpl.
  destruct (content a) as [s|] eqn:Ha; [|exact Hp].
  destruct (isText a) eqn:Ht.
  - rewrite (text_is_not_image a Ht). simpl.
    unfold addTextToPayload. simpl. rewrite Hflat.
    rewrite (contentText_some a Ha).
    destruct (payload_content p) as [s0|l]; simpl in *.
    + injection Hp as ->. reflexivity.
    + destruct (appendToExistingText_single l s Hp) as (l' & -> & Hl').
      simpl. exact Hl'.
  - simpl. destruct (isImage a && vision (capabilities model)); [|exact Hp].
    unfold base_addImageToPayload. simpl.
    destruct (payload_content p) as [s0|l]; simpl in *.
    + exact Hp.
    + fold (segmentTexts (l ++ [ContentPayloadImageOpenai (dataUrl a)])).
      rewrite segmentTexts_app, Hp. reflexivity.
Qed.

Lemma base_flat_fold (atts : list Attachment) (p : LLmCompletionPayload) (t : string) :
  base_requiresFlatTextPayload msg = true ->
  textSegments (payload_content p) = [t] ->
  textSegments
    (payload_content (fold_left (@addAttachment BaseEngine model msg) atts p))
  = [joinTexts t (loadedTexts atts)].
Proof.
  intros Hflat. revert p t.
  induction atts as [|a atts IH]; intros p t Hp; [exact Hp|].
  rewrite (loadedTexts_cons a atts), joinTexts_app. cbn [fold_left].
  apply IH. apply base_flat_step; assumption.
Qed.

(** Any other message gets one more text segment per loaded text
    attachment. *)
Lemma base_segments_step (p : LLmCompletionPayload) (a : Attachment)
  (l : list LlmContentPayload) :
  base_requiresFlatTextPayload msg = false ->
  payload_content p = ContentArray l ->
  exists l',
    payload_content (@addAttachment BaseEngine model msg p a) = ContentArray l'
    /\ segmentTexts l' = segmentTexts l ++ loadedTexts [a].
Proof.
  intros Hflat Hp. unfold addAttachment, loadedTexts. simpl.
  destruct (content a) as [s|] eqn:Ha.
  2:{ exists l. rewrite app_nil_r. split; [exact Hp|reflexivity]. }
  destruct (isText a) eqn:Ht.
  - rewrite (text_is_not_image a Ht). simpl.
    unfold addTextToPayload. simpl. rewrite Hflat, Hp.
    rewrite (contentText_some a Ha). simpl.
    eexists. split; [reflexivity|]. rewrite segmentTexts_app. reflexivity.
  - simpl. destruct (isImage a && vision (capabilities model)).
    + unfold base_addImageToPayload. rewrite Hp. simpl.
      eexists. split; [reflexivity|].
      rewrite segmentTexts_app. simpl. reflexivity.
    + exists l. rewrite app_nil_r. split; [exact Hp|reflexivity].
Qed.

Lemma base_segments_fold (atts : list Attachment) (p : LLmCompletionPayload)
  (l : list LlmContentPayload) :
  base_requiresFlatTextPayload msg = false ->
  payload_content p = ContentArray l ->
  exists l',
    payload_content (fold_left (@addAttachment BaseEngine model msg) atts p)
    = ContentArray l'
    /\ segmentTexts l' = segmentTexts l ++ loadedTexts atts.
Proof.
  intros Hflat. revert p l.
  induction atts as [|a atts IH]; intros p l Hp; cbn [fold_left].
  - exists l. rewrite app_nil_r. split; [exact Hp|reflexivity].
  - destruct (base_segments_step p a Hflat Hp) as (l1 & H1 & E1).
    destruct (IH _ _ H1) as (l2 & H2 & E2).
    exists l2. split; [exact H2|].
    rewrite E2, E1, (loadedTexts_cons a atts), app_assoc. reflexivity.
Qed.

(** With the Ollama hooks the content stays a flat string, whatever the
    role. *)
Lemma ollama_step (p : LLmCompletionPayload) (a : Attachment) (t : string) :
  payload_content p = ContentString t ->
  payload_content (@addAttachment OllamaEngine model msg p a)
  = ContentString (joinTexts t (loadedTexts [a])).
Proof.
  intros Hp. unfold addAttachment, loadedTexts. simpl.
  destruct (content a) as [s|] eqn:Ha; [|exact Hp].
  destruct (isText a) eqn:Ht.
  - rewrite (text_is_not_image a Ht). simpl.
    unfold addTextToPayload. rewrite Hp. simpl.
    rewrite (contentText_some a Ha). reflexivity.
  - simpl. destruct (isImage a && vision (capabilities model)); exact Hp.
Qed.

Lemma ollama_fold (atts : list Attachment) (p : LLmCompletionPayload) (t : string) :
  payload_content p = ContentString t ->
  payload_content (fold_left (@addAttachment OllamaEngine model msg) atts p)
  = ContentString (joinTexts t (loadedTexts atts)).
Proof.
  revert p t. induction atts as [|a atts IH]; intros p t Hp; [exact Hp|].
  rewrite (loadedTexts_cons a atts), joinTexts_app. cbn [fold_left].
  apply IH. apply ollama_step. exact Hp.
Qed.

End PayloadFacts.

Lemma base_flat_roles (msg : Message) :
  base_requiresFlatTextPayload msg = true <-> role msg = system \/ role msg = assistant.
Proof.
  unfold base_requiresFlatTextPayload. simpl.
  destruct (role msg); simpl; split; intros H; try reflexivity; try discriminate;
    try (left; reflexivity); try (right; reflexivity);
    destruct H as [H|H]; discriminate.
Qed.

Lemma textForModel_some (msg : Message) (text : string) :
  contentForModel msg = Some text -> textForModel msg = text.
Proof. unfold textForModel. intros ->. reflexivity. Qed.

Lemma payload_of_message `{EngineHooks} (model : ChatModel) (thread : list Message)
  (msg : Message) (text : string) :
  In msg thread -> contentForModel msg = Some text ->
  In (messagePayload model msg) (buildPayload model (ThreadMessages thread)).
Proof.
  intros Hin Hc. simpl. apply in_map. apply filter_In. split; [exact Hin|].
  unfold hasContentForModel. rewrite Hc. reflexivity.
Qed.

(** C8.  Flat-text merging of the payload builder of [engine.ts]: a message
    with role system or assistant and a non-null content gets a payload with
    exactly one text carrier, which holds the message content followed by the
    content of every loaded text attachment, each joined by a blank line
    (with two text attachments the payload content is the flat string
    [text\n\nc1\n\nc2]); a message of any other role gets a segment array
    in which the message text is followed by one new text segment per loaded
    text attachment, in order. *)
Theorem flat_text_merging :
  forall (model : ChatModel) (thread : list Message) (msg : Message) (text : string),
    In msg thread ->
    contentForModel msg = Some text ->
    let p := @messagePayload BaseEngine model msg in
    In p (@buildPayload BaseEngine model (ThreadMessages thread))
    /\ (role msg = system \/ role msg = assistant ->
        textSegments (payload_content p)
        = [joinTexts text (loadedTexts (attachmentsOf msg))]
        /\ forall a1 a2 c1 c2,
             attachments msg = Some [a1; a2] ->
             isText a1 = true -> isText a2 = true ->
             content a1 = Some c1 -> content a2 = Some c2 ->
             payload_content p = ContentString ((text ++ nl2 ++ c1) ++ nl2 ++ c2))
    /\ (role msg <> system -> role msg <> assistant ->
        exists segments,
          payload_content p = ContentArray segments
          /\ segmentTexts segments = (text :: loadedTexts (attachmentsOf msg))%list).
Proof.
  intros model thread msg text Hin Hc p. split; [|split].
  - exact (payload_of_message model thread msg Hin Hc).
  - intros Hrole. apply base_flat_roles in Hrole.
    split.
    + unfold p, messagePayload. simpl. rewrite Hrole.
      apply base_flat_fold; [exact Hrole|].
      simpl. rewrite (textForModel_some msg Hc). reflexivity.
    + intros a1 a2 c1 c2 Hatts Ht1 Ht2 Hc1 Hc2.
      unfold p, messagePayload. simpl. rewrite Hrole, Hatts. simpl.
      unfold addAttachment. rewrite Hc1, Hc2, Ht1, Ht2.
      rewrite (text_is_not_image a1 Ht1), (text_is_not_image a2 Ht2). simpl.
      unfold addTextToPayload. simpl.
      rewrite (contentText_some a1 Hc1), (contentText_some a2 Hc2).
      rewrite (textForModel_some msg Hc). reflexivity.
  - intros Hs Ha.
    assert (Hrole : base_requiresFlatTextPayload msg = false).
    { destruct (base_requiresFlatTextPayload msg) eqn:E; [|reflexivity].
      apply base_flat_roles in E. destruct E; contradiction. }
    unfold p, messagePayload. simpl. rewrite Hrole.
    destruct (@base_segments_fold model msg (attachmentsOf msg)
                {| payload_role := role msg;
                   payload_content := ContentArray [ContentPayloadText (textForModel msg)];
                   images := None |}
                [ContentPayloadText (textForModel msg)] Hrole eq_refl)
      as (l' & H1 & H2).
    exists l'. split; [exact H1|].
    rewrite H2. simpl. rewrite (textForModel_some msg Hc). reflexivity.
Qed.

Lemma flat_text_merging_witness :
  In Scenario.systemMessage [Scenario.systemMessage; Scenario.userMessage]
  /\ contentForModel Scenario.systemMessage = Some "be brief"
  /\ payload_content (@messagePayload BaseEngine Scenario.plainModel Scenario.systemMessage)
     = ContentString (("be brief" ++ nl2 ++ "notes") ++ nl2 ++ "more").
Proof.
  split; [left; reflexivity|]. split; [reflexivity|].
  refine (proj2 (proj1 (proj2 (flat_text_merging Scenario.plainModel
            [Scenario.systemMessage; Scenario.userMessage] Scenario.systemMessage
            (or_introl eq_refl) eq_refl)) (or_introl eq_refl))
          Scenario.notes Scenario.more "notes" "more" eq_refl eq_refl eq_refl
          eq_refl eq_refl).
Defined.

(** C10.  The Ollama provider overrides [requiresFlatTextPayload] to answer
    [true] for every message, so its payloads keep a flat string content into
    which the content of every loaded text attachment is merged, joined by a
    blank line, whatever the role: also for user, developer and tool
    messages, which the hooks of [engine.ts] do not treat as flat. *)
Theorem ollama_flat_text_for_every_role :
  forall (model : ChatModel) (thread : list Message) (msg : Message) (text : string),
    In msg thread ->
    contentForModel msg = Some text ->
    let p := @messagePayload OllamaEngine model msg in
    @requiresFlatTextPayload OllamaEngine msg = true
    /\ In p (@buildPayload OllamaEngine model (ThreadMessages thread))
    /\ payload_content p
       = ContentString (joinTexts text (loadedTexts (attachmentsOf msg)))
    /\ (role msg = user \/ role msg = developer \/ role msg = tool ->
        @requiresFlatTextPayload BaseEngine msg = false).
Proof.
  intros model thread msg text Hin Hc p. split; [reflexivity|]. split; [|split].
  - exact (payload_of_message model thread msg Hin Hc).
  - unfold p, messagePayload. simpl.
    apply ollama_fold. simpl. rewrite (textForModel_some msg Hc). reflexivity.
  - simpl. unfold base_requiresFlatTextPayload.
    intros [H|[H|H]]; rewrite H; reflexivity.
Qed.

Lemma ollama_flat_text_for_every_role_witness :
  In Scenario.userMessage [Scenario.systemMessage; Scenario.userMessage]
  /\ contentForModel Scenario.userMessage = Some "hi"
  /\ payload_content (@messagePayload OllamaEngine Scenario.plainModel Scenario.userMessage)
     = ContentString (("hi" ++ nl2 ++ "notes") ++ nl2 ++ "more").
Proof.
  split; [right; left; reflexivity|]. split; [reflexivity|].
  exact (proj1 (proj2 (proj2 (ollama_flat_text_for_every_role Scenario.plainModel
           [Scenario.systemMessage; Scenario.userMessage] Scenario.userMessage
           (or_intror (or_introl eq_refl)) eq_refl)))).
Defined.

Section VisionGating.

Local Open Scope list_scope.

Variable model : ChatModel.
Variable msg : Message.

Lemma image_of_is_image (a : Attachment) (l : list LlmContentPayload) :
  existsb (isImageOf a) l = true -> existsb isImageSegment l = true.
Proof.
  induction l as [|c l IH]; simpl; [discriminate|].
  destruct c as [s|u]; simpl; [exact IH|reflexivity].
Qed.

(** Without vision an image attachment leaves the payload as it is. *)
Lemma base_image_dropped (p : LLmCompletionPayload) (a : Attachment) :
  vision (capabilities model) = false -> isImage a = true ->
  @addAttachment BaseEngine model msg p a = p.
Proof.
  intros Hv Hi. unfold addAttachment.
  rewrite (image_is_not_text a Hi), Hi, Hv.
  destruct (content a); reflexivity.
Qed.

(** Without vision no image segment ever enters a payload. *)
Lemma base_no_vision_step (p : LLmCompletionPayload) (a : Attachment) :
  vision (capabilities model) = false ->
  existsb isImageSegment (contentSegments p) = false ->
  existsb isImageSegment
    (contentSegments (@addAttachment BaseEngine model msg p a)) = false.
Proof.
  intros Hv Hp. unfold addAttachment. rewrite Hv, andb_false_r.
  destruct (content a) as [s|]; [|exact Hp].
  destruct (isText a); [|exact Hp].
  unfold addTextToPayload, contentSegments in *. simpl.
  destruct (payload_content p) as [s0|l]; simpl; [reflexivity|].
  assert (Hpush : existsb isImageSegment (l ++ [ContentPayloadText (contentText a)])
                  = false).
  { rewrite existsb_app, Hp. reflexivity. }
  destruct (base_requiresFlatTextPayload msg); simpl; [|exact Hpush].
  destruct (appendToExistingText l (contentText a)) as [l'|] eqn:E; simpl.
  - destruct (appendToExistingText_images a l (contentText a) E) as [_ E2].
    rewrite E2. exact Hp.
  - exact Hpush.
Qed.

Lemma base_no_vision_fold (atts : list Attachment) (p : LLmCompletionPayload) :
  vision (capabilities model) = false ->
  existsb isImageSegment (contentSegments p) = false ->
  existsb isImageSegment
    (contentSegments (fold_left (@addAttachment BaseEngine model msg) atts p))
  = false.
Proof.
  intros Hv. revert p. induction atts as [|a atts IH]; intros p Hp; [exact Hp|].
  cbn [fold_left]. apply IH. apply base_no_vision_step; assumption.
Qed.

(** With vision a loaded image attachment enters the payload... *)
Lemma base_image_added (p : LLmCompletionPayload) (a : Attachment) :
  vision (capabilities model) = true -> isImage a = true -> content a <> None ->
  existsb (isImageOf a)
    (contentSegments (@addAttachment BaseEngine model msg p a)) = true.
Proof.
  intros Hv Hi Hc. unfold addAttachment.
  rewrite (image_is_not_text a Hi), Hi, Hv.
  destruct (content a); [|congruence]. simpl.
  unfold base_addImageToPayload, contentSegments. simpl.
  rewrite existsb_app. simpl. rewrite String.eqb_refl.
  rewrite orb_true_l, orb_true_r. reflexivity.
Qed.

(** ... and stays there. *)
Lemma base_image_kept (p : LLmCompletionPayload) (a b : Attachment) :
  existsb (isImageOf a) (contentSegments p) = true ->
  existsb (isImageOf a)
    (contentSegments (@addAttachment BaseEngine model msg p b)) = true.
Proof.
  intros Hp. unfold addAttachment.
  destruct (content b) as [s|]; [|exact Hp].
  assert (Htext : existsb (isImageOf a)
                    (contentSegments
                       (if isText b then @addTextToPayload BaseEngine msg b p else p))
                  = true).
  { destruct (isText b); [|exact Hp].
    unfold addTextToPayload, contentSegments in *. simpl.
    destruct (payload_content p) as [s0|l]; simpl in *; [discriminate|].
    assert (Hpush : existsb (isImageOf a) (l ++ [ContentPayloadText (contentText b)])
                    = true).
    { rewrite existsb_app, Hp. reflexivity. }
    destruct (base_requiresFlatTextPayload msg); simpl; [|exact Hpush].
    destruct (appendToExistingText l (contentText b)) as [l'|] eqn:E; simpl.
    - destruct (appendToExistingText_images a l (contentText b) E) as [E1 _].
      rewrite E1. exact Hp.
    - exact Hpush. }
  destruct (isImage b && vision (capabilities model)); [|exact Htext].
  simpl. unfold base_addImageToPayload.
  unfold contentSegments in *. simpl.
  destruct (payload_content (if isText b then @addTextToPayload BaseEngine msg b p else p))
    as [s0|l]; simpl in *; [discriminate|].
  rewrite existsb_app, Htext. reflexivity.
Qed.

Lemma base_image_kept_fold (atts : list Attachment) (p : LLmCompletionPayload)
  (a : Attachment) :
  existsb (isImageOf a) (contentSegments p) = true ->
  existsb (isImageOf a)
    (contentSegments (fold_left (@addAttachment BaseEngine model msg) atts p)) = true.
Proof.
  revert p. induction atts as [|b atts IH]; intros p Hp; [exact Hp|].
  cbn [fold_left]. apply IH. apply base_image_kept. exact Hp.
Qed.

Lemma base_image_added_fold (atts : list Attachment) (p : LLmCompletionPayload)
  (a : Attachment) :
  vision (capabilities model) = true -> isImage a = true -> content a <> None ->
  In a atts ->
  existsb (isImageOf a)
    (contentSegments (fold_left (@addAttachment BaseEngine model msg) atts p)) = true.
Proof.
  intros Hv Hi Hc. revert p.
  induction atts as [|b atts IH]; intros p Hin; [destruct Hin|].
  cbn [fold_left]. destruct Hin as [->|Hin].
  - apply base_image_kept_fold. apply base_image_added; assumption.
  - apply IH. exact Hin.
Qed.

Lemma base_image_dropped_fold (pre post : list Attachment) (p : LLmCompletionPayload)
  (a : Attachment) :
  vision (capabilities model) = false -> isImage a = true ->
  fold_left (@addAttachment BaseEngine model msg) (pre ++ a :: post) p
  = fold_left (@addAttachment BaseEngine model msg) (pre ++ post) p.
Proof.
  intros Hv Hi. rewrite !fold_left_app. cbn [fold_left].
  rewrite base_image_dropped by assumption. reflexivity.
Qed.

End VisionGating.

Lemma base_no_vision_payload (model : ChatModel) (msg : Message) :
  vision (capabilities model) = false ->
  existsb isImageSegment (contentSegments (@messagePayload BaseEngine model msg)) = false.
Proof.
  intros Hv. unfold messagePayload. apply base_no_vision_fold; [exact Hv|].
  simpl. destruct (base_requiresFlatTextPayload msg); reflexivity.
Qed.

Lemma existsb_none {A} (f : A -> bool) (l : list A) :
  (forall x, In x l -> f x = false) -> existsb f l = false.
Proof.
  intros H. destruct (existsb f l) eqn:E; [|reflexivity].
  apply existsb_exists in E. destruct E as (x & Hx & Hfx).
  rewrite (H x Hx) in Hfx. discriminate.
Qed.

(** C9, as amended.  Vision gating of the payload builder of [engine.ts]:
    an image attachment with non-null content, carried by a message of the
    thread whose model-facing content is non-null, appears in the built
    payload if and only if the model has the vision capability; without
    vision the attachment is dropped and nothing is added for it: the
    message's payload is the one built without that attachment. *)
Theorem vision_gating :
  forall (model : ChatModel) (thread : list Message) (msg : Message) (text : string)
         (a : Attachment),
    In msg thread ->
    contentForModel msg = Some text ->
    In a (attachmentsOf msg) ->
    isImage a = true ->
    content a <> None ->
    (imageIncluded a (@buildPayload BaseEngine model (ThreadMessages thread)) = true
     <-> vision (capabilities model) = true)
    /\ (vision (capabilities model) = false ->
        forall pre post,
          attachmentsOf msg = (pre ++ a :: post)%list ->
          @messagePayload BaseEngine model msg
          = @messagePayload BaseEngine model (withAttachments msg (pre ++ post)%list)).
Proof.
  intros model thread msg text a Hin Hc Ha Hi Hca. split; [split|].
  - intros Hinc. destruct (vision (capabilities model)) eqn:Hv; [reflexivity|].
    exfalso. unfold imageIncluded in Hinc.
    rewrite existsb_none in Hinc; [discriminate|].
    intros p Hp. simpl in Hp. apply in_map_iff in Hp.
    destruct Hp as (m & <- & _).
    destruct (existsb (isImageOf a) (contentSegments (@messagePayload BaseEngine model m)))
      eqn:E; [|reflexivity].
    apply image_of_is_image in E.
    rewrite (base_no_vision_payload model m Hv) in E. discriminate.
  - intros Hv. unfold imageIncluded. apply existsb_exists.
    exists (@messagePayload BaseEngine model msg). split.
    + exact (payload_of_message model thread msg Hin Hc).
    + unfold messagePayload. apply base_image_added_fold; assumption.
  - intros Hv pre post Hatts. unfold messagePayload.
    change (match attachments (withAttachments msg (pre ++ post)%list) with
            | Some l => l
            | None => []
            end) with (pre ++ post)%list.
    change (match attachments msg with Some l => l | None => [] end)
      with (attachmentsOf msg).
    rewrite Hatts.
    exact (base_image_dropped_fold model msg pre post _ a Hv Hi).
Qed.

Lemma vision_gating_witness :
  In Scenario.pictureMessage [Scenario.pictureMessage]
  /\ contentForModel Scenario.pictureMessage = Some "look"
  /\ In Scenario.picture (attachmentsOf Scenario.pictureMessage)
  /\ isImage Scenario.picture = true
  /\ content Scenario.picture <> None
  /\ (imageIncluded Scenario.picture
        (@buildPayload BaseEngine Scenario.visionModel
           (ThreadMessages [Scenario.pictureMessage])) = true
      <-> vision (capabilities Scenario.visionModel) = true).
Proof.
  assert (Hc : content Scenario.picture <> None) by discriminate.
  split; [left; reflexivity|]. split; [reflexivity|].
  split; [left; reflexivity|]. split; [reflexivity|]. split; [exact Hc|].
  exact (proj1 (vision_gating Scenario.visionModel [Scenario.pictureMessage]
                  Scenario.pictureMessage Scenario.picture
                  (or_introl eq_refl) eq_refl (or_introl eq_refl) eq_refl Hc)).
Defined.

(** C9, as stated, fails: a message whose model-facing content is [null] is
    left out of the payload with its attachments, so its image does not
    appear although the model has vision. *)
Lemma vision_gating_counterexample :
  In Scenario.emptyMessage [Scenario.emptyMessage]
  /\ In Scenario.picture (attachmentsOf Scenario.emptyMessage)
  /\ isImage Scenario.picture = true
  /\ content Scenario.picture <> None
  /\ vision (capabilities Scenario.visionModel) = true
  /\ @buildPayload BaseEngine Scenario.visionModel
       (ThreadMessages [Scenario.emptyMessage]) = []
  /\ ~ (imageIncluded Scenario.picture
          (@buildPayload BaseEngine Scenario.visionModel
             (ThreadMessages [Scenario.emptyMessage])) = true
        <-> vision (capabilities Scenario.visionModel) = true).
Proof.
  repeat split; try (left; reflexivity); try discriminate.
  intros [_ H]. specialize (H eq_refl). discriminate.
Qed.

(* ===================================================================== *)
(** * 11. The stream orchestration loop *)
(* ===================================================================== *)

Section StreamFacts.

Local Open Scope list_scope.

Variables Native World : Type.
Variable normalizer : Native -> World -> Gen (LlmChunk Native) World unit.
Variable signal : nat -> bool.

Local Abbreviation drainChunk' := (drainChunk (World := World) signal).
Local Abbreviation drainStream' := (drainStream normalizer signal).
Local Abbreviation resumeStream' := (resumeStream normalizer signal).
Local Abbreviation streamLoop' := (streamLoop normalizer signal).

(** What the [catch] of the inner loop makes of a thrown value. *)
Lemma caughtToolAbort_cases (e : Thrown) :
  match caughtToolAbort (Native := Native) e with
  | inl msg =>
      (exists a, e = ThrowToolAbort a /\ msg = ChunkToolAbort a)
      \/ (exists v, e = ThrowValue v /\ msg = ChunkThrown v
                    /\ isTaggedToolAbort v = true)
  | inr rethrown =>
      (forall a, rethrown <> ThrowToolAbort a)
      /\ (rethrown = e
          \/ (e = ThrowValue JUndefined /\ rethrown = typeError "undefined" "type")
          \/ (e = ThrowValue JNull /\ rethrown = typeError "null" "type"))
  end.
Proof.
  destruct e as [a|m|v]; simpl.
  - left. exists a. split; reflexivity.
  - split; [discriminate|left; reflexivity].
  - destruct v; simpl;
      try (split; [discriminate|]; auto);
      match goal with
      | |- context [isTaggedToolAbort ?x] =>
          destruct (isTaggedToolAbort x) eqn:E;
          [right; eexists; repeat split; exact E
          |split; [discriminate|left; reflexivity]]
      end.
Qed.

Lemma caughtToolAbort_chunk (e : Thrown) (msg : LlmChunk Native) :
  caughtToolAbort e = inl msg ->
  isToolAbort msg = true /\ isDoneContent msg = false.
Proof.
  intros H. pose proof (caughtToolAbort_cases e) as Hc. rewrite H in Hc.
  destruct Hc as [(a & _ & ->)|(v & _ & -> & Hv)]; simpl; split;
    try reflexivity; exact Hv.
Qed.

Lemma forwarded_app (l1 l2 : list (Event Native)) :
  forwarded (l1 ++ l2) = forwarded l1 ++ forwarded l2.
Proof.
  induction l1 as [|e l1 IH]; simpl; [reflexivity|].
  destruct e; simpl; rewrite IH; reflexivity.
Qed.


Lemma forwarded_abortTransport (currentStream : LlmStream Native) :
  forwarded (abortTransport currentStream) = [].
Proof. unfold abortTransport. destruct (controller currentStream); reflexivity. Qed.

Lemma clearStaleDone_unset (msg : LlmChunk Native) : clearStaleDone None msg = msg.
Proof. destruct msg; reflexivity. Qed.

Lemma clearStaleDone_pending (s : LlmStream Native) (msg : LlmChunk Native) :
  isDoneContent (clearStaleDone (Some s) msg) = false.
Proof.
  destruct msg as [a|ty text d|s'|id name st status call d|u|id|raw]; try reflexivity.
  destruct ty, d; reflexivity.
Qed.

(** The tool abort raised by a normalizer is forwarded and the loop goes on
    with the native chunks that remain. *)
Lemma resumeStream_tool_abort (currentStream : LlmStream Native) (a : LlmChunkToolAbort)
  (w : World) (rest : list Native) (nextStream : option (LlmStream Native))
  (clock : nat) :
  resumeStream' currentStream (Raise (ThrowToolAbort a) w) rest nextStream clock
  = emit [Forwarded (ChunkToolAbort a)]
      (drainStream' currentStream rest nextStream w clock).
Proof. reflexivity. Qed.

Lemma drainStream_cons (currentStream : LlmStream Native) (chunk : Native)
  (rest : list Native) (nextStream : option (LlmStream Native)) (w : World)
  (clock : nat) :
  drainStream' currentStream (chunk :: rest) nextStream w clock
  = if signal clock
    then (abortTransport currentStream, Stops Cancelled w)
    else resumeStream' currentStream (normalizer chunk w) rest nextStream (S clock).
Proof. reflexivity. Qed.

(** While a switch is pending, the inner loop forwards no final content
    chunk and leaves a switch pending. *)
Lemma drainChunk_pending (currentStream : LlmStream Native)
  (g : Gen (LlmChunk Native) World unit) :
  forall (s : LlmStream Native) (clock : nat),
    Forall (fun msg => isDoneContent msg = false)
      (forwarded (fst (drainChunk' currentStream g (Some s) clock)))
    /\ forall n w' clock',
         snd (drainChunk' currentStream g (Some s) clock) = Continues (n, w') clock' ->
         n <> None.
Proof.
  induction g as [r w|e w|msg w k IH|k IH]; intros s clock.
  - simpl. split; [constructor|].
    intros n w' c' H. injection H as <- _ _. discriminate.
  - cbn [drainChunk]. destruct (caughtToolAbort e) as [msg|rethrown] eqn:E; simpl.
    + split.
      * constructor; [exact (proj2 (caughtToolAbort_chunk e E))|constructor].
      * intros n w' c' H. injection H as <- _ _. discriminate.
    + split; [constructor|discriminate].
  - cbn [drainChunk]. destruct (signal clock) eqn:Hsig.
    + cbn [fst snd]. split; [|discriminate].
      rewrite forwarded_app, forwarded_abortTransport, app_nil_r.
      destruct msg; cbn [forwarded];
        first [ apply Forall_nil
              | apply Forall_cons; [apply clearStaleDone_pending|apply Forall_nil] ].
    + destruct msg as [a|ty text d|s'|id name st status call d|u|id|raw];
        unfold emit; cbn [fst snd app forwarded];
        match goal with
        | |- context [drainChunk _ _ (k w) (Some ?x) _] =>
            destruct (IH w x (S clock)) as [H1 H2]
        end;
        (split; [|exact H2]); try exact H1;
        (apply Forall_cons; [apply clearStaleDone_pending|exact H1]).
  - cbn [drainChunk]. apply IH.
Qed.

Lemma drainStream_pending (currentStream : LlmStream Native) (rest : list Native) :
  forall (s : LlmStream Native) (w : World) (clock : nat),
    Forall (fun msg => isDoneContent msg = false)
      (forwarded (fst (drainStream' currentStream rest (Some s) w clock))).
Proof.
  induction rest as [|chunk rest IH]; intros s w clock.
  - constructor.
  - rewrite drainStream_cons. destruct (signal clock).
    + simpl. rewrite forwarded_abortTransport. constructor.
    + unfold resumeStream, andThen.
      destruct (drainChunk_pending currentStream (normalizer chunk w) s (S clock))
        as [H1 H2].
      destruct (drainChunk' currentStream (normalizer chunk w) (Some s) (S clock))
        as [evs [[n w'] c'|o w']]; simpl in *; [|exact H1].
      rewrite forwarded_app. apply Forall_app. split; [exact H1|].
      destruct n as [s'|]; [apply IH|].
      exfalso. exact (H2 None w' c' eq_refl eq_refl).
Qed.

(** C1.  Stream-switch suppression in [generate]: from the moment the
    normalizer yields a switch directive, through the rest of the chunks it
    yields for the same native chunk and for every native chunk of the same
    stream that is still to come, the loop forwards no content chunk with
    done=true; a final content chunk met while a switch is pending is
    forwarded with its done flag cleared. *)
Theorem stale_done_suppressed :
  forall (currentStream s : LlmStream Native) (w : World)
         (k : World -> Gen (LlmChunk Native) World unit) (rest : list Native)
         (nextStream : option (LlmStream Native)) (clock : nat),
    Forall (fun msg => isDoneContent msg = false)
      (forwarded
         (fst (resumeStream' currentStream (Yield (ChunkStream s) w k) rest
                 nextStream clock)))
    /\ forall text,
         exists evs,
           fst (drainChunk' currentStream
                  (Yield (ChunkContent TypeContent text true) w k) (Some s) clock)
           = Forwarded (ChunkContent TypeContent text false) :: evs.
Proof.
  intros currentStream s w k rest nextStream clock. split.
  - unfold resumeStream, andThen. simpl.
    destruct (signal clock).
    + simpl. rewrite forwarded_abortTransport. constructor.
    + unfold emit. simpl.
      destruct (drainChunk_pending currentStream (k w) s (S clock)) as [H1 H2].
      destruct (drainChunk' currentStream (k w) (Some s) (S clock))
        as [evs [[n w'] c'|o w']]; simpl in *; [|exact H1].
      rewrite forwarded_app. apply Forall_app. split; [exact H1|].
      destruct n as [s'|]; [apply drainStream_pending|].
      exfalso. exact (H2 None w' c' eq_refl eq_refl).
  - intros text. simpl. destruct (signal clock); simpl; eexists; reflexivity.
Qed.

(** The inner loop stops only for a cancellation or for a failure that is
    not a tool abort. *)
Lemma drainChunk_stops (currentStream : LlmStream Native)
  (g : Gen (LlmChunk Native) World unit) :
  forall (nextStream : option (LlmStream Native)) (clock : nat) o w',
    snd (drainChunk' currentStream g nextStream clock) = Stops o w' ->
    o = Cancelled
    \/ exists e, o = Failed e /\ forall a, e <> ThrowToolAbort a.
Proof.
  induction g as [r w|e w|msg w k IH|k IH]; intros nextStream clock o w'; simpl.
  - discriminate.
  - pose proof (caughtToolAbort_cases e) as Hc.
    destruct (caughtToolAbort e) as [msg|rethrown]; simpl; intros H;
      [discriminate|].
    injection H as <- _. right. exists rethrown. split; [reflexivity|exact (proj1 Hc)].
  - destruct (signal clock).
    + simpl. intros H. injection H as <- _. left. reflexivity.
    + unfold emit. simpl. apply IH.
  - apply IH.
Qed.

(** A native chunk whose normalization raises a tool abort at once: the
    round goes on with the native chunks that remain. *)
Lemma streamLoop_tool_abort (fuel : nat) (currentStream : LlmStream Native)
  (chunk : Native) (rest : list Native) (w w1 : World) (clock : nat)
  (a : LlmChunkToolAbort) :
  chunks currentStream = chunk :: rest ->
  signal clock = false ->
  normalizer chunk w = Raise (ThrowToolAbort a) w1 ->
  streamLoop' (S fuel) currentStream w clock
  = nextRound (streamLoop' fuel)
      (emit [Forwarded (ChunkToolAbort a)]
         (drainStream' currentStream rest None w1 (S clock))).
Proof.
  intros Hchunks Hsig Hraise.
  cbn [streamLoop]. rewrite Hchunks, drainStream_cons, Hsig, Hraise.
  rewrite resumeStream_tool_abort. reflexivity.
Qed.








(** The loop over the native chunks stops only for a cancellation or for a
    failure that is not a tool abort. *)
Lemma drainStream_stops (currentStream : LlmStream Native) (rest : list Native) :
  forall nextStream w clock o w',
    snd (drainStream normalizer signal currentStream rest nextStream w clock)
    = Stops o w' ->
    o = Cancelled \/ exists e, o = Failed e /\ forall a, e <> ThrowToolAbort a.
Proof.
  induction rest as [|chunk rest IH]; intros nextStream w clock o w'; simpl;
    [discriminate|].
  destruct (signal clock); simpl.
  - intros H. injection H as <- _. left. reflexivity.
  - unfold andThen.
    destruct (drainChunk signal currentStream (normalizer chunk w) nextStream (S clock))
      as [evs [[n w0] c0|o0 w0]] eqn:E; simpl.
    + apply IH.
    + intros H. injection H as <- _.
      exact (drainChunk_stops currentStream (normalizer chunk w) nextStream (S clock)
               (f_equal snd E)).
Qed.

(** When the checkpoint before a native chunk finds the signal clear, the
    chunk is normalized, and the first chunk its normalization yields, if
    it is no switch directive, is forwarded before anything else. *)
Lemma drainStream_first_yield (currentStream : LlmStream Native) (chunk : Native)
  (rest : list Native) (nextStream : option (LlmStream Native)) (w w2 : World)
  (clock : nat) (msg : LlmChunk Native)
  (k : World -> Gen (LlmChunk Native) World unit) :
  signal clock = false ->
  normalizer chunk w = Yield msg w2 k ->
  isSwitch msg = false ->
  exists evs fl,
    drainStream' currentStream (chunk :: rest) nextStream w clock
    = (Forwarded (clearStaleDone nextStream msg) :: evs, fl).
Proof.
  intros Hsig Hnorm Hsw. rewrite drainStream_cons, Hsig.
  unfold resumeStream, andThen. rewrite Hnorm. cbn [drainChunk].
  assert (Hout : match msg with
                 | ChunkStream _ => []
                 | _ => [Forwarded (clearStaleDone nextStream msg)]
                 end = [Forwarded (clearStaleDone nextStream msg)]).
  { destruct msg; try reflexivity. discriminate. }
  rewrite Hout. destruct (signal (S clock)).
  - cbn [snd fst]. eexists; eexists; reflexivity.
  - unfold emit. cbn [fst snd app].
    destruct (snd (drainChunk' currentStream (k w2)
                     match msg with
                     | ChunkStream s => Some s
                     | _ => nextStream
                     end (S (S clock)))) as [[n w'] c'|o w'];
      cbn [app]; eexists; eexists; reflexivity.
Qed.

(** A round forwards what its native stream gave before anything a later
    round does. *)
Lemma events_nextRound (loop : LlmStream Native -> World -> nat -> Generation Native World)
  (t : Trace Native World (option (LlmStream Native) * World)) :
  exists more, events (nextRound loop t) = fst t ++ more.
Proof.
  destruct t as [evs [[[s|] w'] c'|o w']]; simpl.
  - eexists. reflexivity.
  - exists []. rewrite app_nil_r. reflexivity.
  - exists []. rewrite app_nil_r. reflexivity.
Qed.

End StreamFacts.



(* ===================================================================== *)
(** * 12. The tool execution orchestrator *)
(* ===================================================================== *)

Lemma find_first {A} (f : A -> bool) (pre post : list A) (x : A) :
  f x = true -> (forall y, In y pre -> f y = false) ->
  find f (pre ++ x :: post)%list = Some x.
Proof.
  intros Hx. induction pre as [|y pre IH]; intros Hpre; simpl.
  - rewrite Hx. reflexivity.
  - rewrite (Hpre y (or_introl eq_refl)). apply IH.
    intros z Hz. apply Hpre. right. exact Hz.
Qed.

Lemma find_nowhere {A} (f : A -> bool) (l : list A) :
  (forall y, In y l -> f y = false) -> find f l = None.
Proof.
  induction l as [|y l IH]; intros H; simpl; [reflexivity|].
  rewrite (H y (or_introl eq_refl)). apply IH.
  intros z Hz. apply H. right. exact Hz.
Qed.

Lemma hasName_false (tool : string) (p : Plugin) :
  getName p <> tool -> hasName tool p = false.
Proof. intros H. unfold hasName. apply String.eqb_neq. exact H. Qed.

Section CallToolFacts.

Variable World : Type.
Variable logCall : CallEvent -> World -> World.
Variable plugins : list Plugin.
Variable signal : nat -> bool.

(** Driving a plugin's progressive execution leaves the shared state as it
    was. *)
Lemma forwardUpdates_state (v : option LlmToolExecutionValidationResponse)
  (g : Gen PluginExecutionUpdate unit unit) :
  forall (s : World) (clock : nat),
    endState
      (ending
         (collect signal clock
            (bind (forAwait (liftGen g s) (forwardUpdate (World := World) v) tt)
               (fun _ s' => Ret tt s'))))
    = s.
Proof.
  induction g as [r u|e u|y u k IH|k IH]; intros s clock; simpl.
  - reflexivity.
  - reflexivity.
  - destruct (signal clock); simpl; [reflexivity|]. apply IH.
  - apply IH.
Qed.

Lemma runTool_state (context : PluginExecutionContext) (p : Plugin) (payload : Json)
  (v : option LlmToolExecutionValidationResponse) (w : World) (clock : nat) :
  endState (ending (collect signal clock (runTool logCall context p payload v w)))
  = logCall (executionEvent p payload) w.
Proof.
  unfold runTool, executionEvent.
  destruct (execution p) as [execute|executeWithUpdates].
  - unfold bindM, modify. simpl.
    destruct (execute context payload) as [res|error]; simpl; [reflexivity|].
    destruct (signal clock || isCancellationError error); reflexivity.
  - unfold bindM, modify, ret. simpl.
    apply (forwardUpdates_state v (executeWithUpdates context payload)).
Qed.

Lemma callTool_resolved (context : PluginExecutionContext) (tool : string) (args : Json)
  (validate : option LlmToolExecutionValidationCallback) (w : World) (clock : nat)
  (p : Plugin) (payload : Json) :
  resolveToolOwner plugins tool args = Some (p, payload) ->
  collect signal clock (callTool logCall plugins context tool args validate w)
  = collect signal (S clock)
      (if signal clock
       then yield (canceledUpdate None) w
       else
         match validate with
         | Some f =>
             if isAllow (decision (f context tool args))
             then runTool logCall context p payload (Some (f context tool args))
                    (logCall (CalledValidation tool args) w)
             else yield (deniedUpdate tool (f context tool args))
                    (logCall (CalledValidation tool args) w)
         | None => runTool logCall context p payload None w
         end).
Proof.
  intros Hres. unfold callTool. rewrite Hres.
  unfold bindM, aborted. simpl.
  destruct (signal clock); [reflexivity|].
  destruct validate as [f|]; [|reflexivity].
  unfold modify. simpl.
  destruct (isAllow (decision (f context tool args))); reflexivity.
Qed.

End CallToolFacts.

(** C6.  Resolution in [callTool]: the tool is owned by the first plugin of
    the registry whose name is the tool name, which receives the arguments as
    they are; failing that, by the first multi-tool plugin of the registry
    that handles the name, which receives [{ tool, parameters }]; the plugin
    resolved is the one executed, with that payload; when no plugin
    qualifies, [callTool] yields exactly one terminal update, whose result is
    the error "Tool ... does not exist ...", and returns without throwing. *)
Theorem callTool_resolution :
  forall (World : Type) (logCall : CallEvent -> World -> World) (plugins : list Plugin)
         (context : PluginExecutionContext) (tool : string) (args : Json)
         (validate : option LlmToolExecutionValidationCallback) (w : World)
         (signal : nat -> bool) (clock : nat),
    (forall pre p post,
        plugins = (pre ++ p :: post)%list ->
        getName p = tool ->
        (forall q, In q pre -> getName q <> tool) ->
        resolveToolOwner plugins tool args = Some (p, args))
    /\ (forall pre p post,
           (forall q, In q plugins -> getName q <> tool) ->
           plugins = (pre ++ p :: post)%list ->
           isMultiToolFor tool p = true ->
           (forall q, In q pre -> isMultiToolFor tool q = false) ->
           resolveToolOwner plugins tool args
           = Some (p, JObject [("tool", JString tool); ("parameters", args)]))
    /\ (forall p payload,
           resolveToolOwner plugins tool args = Some (p, payload) ->
           signal clock = false ->
           allows validate context tool args = true ->
           endState
             (ending
                (collect signal clock
                   (callTool logCall plugins context tool args validate w)))
           = logCall (executionEvent p payload)
               (afterValidation logCall validate tool args w))
    /\ (forall p payload execute res,
           resolveToolOwner plugins tool args = Some (p, payload) ->
           signal clock = false ->
           validate = None ->
           execution p = Execute execute ->
           execute context payload = inl res ->
           collect signal clock (callTool logCall plugins context tool args validate w)
           = {| yielded := [UpdateResult {| result := res; canceled := false;
                                            validation := None |}];
                ending := Returned tt (logCall (CalledExecute (getName p) payload) w);
                reads := S clock |})
    /\ ((forall q, In q plugins -> getName q <> tool /\ isMultiToolFor tool q = false) ->
        collect signal clock (callTool logCall plugins context tool args validate w)
        = {| yielded := [notFoundUpdate tool]; ending := Returned tt w;
             reads := clock |}).
Proof.
  intros World logCall plugins context tool args validate w signal clock.
  split; [|split; [|split; [|split]]].
  - intros pre p post -> Hname Hpre. unfold resolveToolOwner.
    rewrite (find_first (hasName tool) pre post p); [reflexivity| |].
    + unfold hasName. rewrite Hname. apply String.eqb_refl.
    + intros q Hq. apply hasName_false. exact (Hpre q Hq).
  - intros pre p post Hnone -> Hmulti Hpre. unfold resolveToolOwner.
    rewrite (find_nowhere (hasName tool)).
    + rewrite (find_first (isMultiToolFor tool) pre post p Hmulti Hpre). reflexivity.
    + intros q Hq. apply hasName_false. exact (Hnone q Hq).
  - intros p payload Hres Hsig Hallow.
    rewrite (callTool_resolved logCall plugins signal context tool args validate w
               clock Hres), Hsig.
    unfold allows in Hallow. unfold afterValidation.
    destruct validate as [f|].
    + rewrite Hallow. apply runTool_state.
    + apply runTool_state.
  - intros p payload execute res Hres Hsig -> Hexec Hrun.
    rewrite (callTool_resolved logCall plugins signal context tool args None w
               clock Hres), Hsig.
    unfold runTool. rewrite Hexec. unfold bindM, modify. simpl.
    rewrite Hrun. reflexivity.
  - intros Hnone. unfold callTool, resolveToolOwner.
    rewrite (find_nowhere (hasName tool)),
            (find_nowhere (isMultiToolFor tool)).
    + reflexivity.
    + intros q Hq. exact (proj2 (Hnone q Hq)).
    + intros q Hq. apply hasName_false. exact (proj1 (Hnone q Hq)).
Qed.

Lemma callTool_resolution_witness :
  resolveToolOwner Scenario.registry "search" (JString "cats")
  = Some (Scenario.search, JString "cats")
  /\ resolveToolOwner Scenario.registry "fs_read" (JString "a.txt")
     = Some (Scenario.files,
             JObject [("tool", JString "fs_read"); ("parameters", JString "a.txt")])
  /\ collect Scenario.never 0
       (callTool (fun e l => (l ++ [e])%list) Scenario.registry
          {| context_model := "llama3.2" |} "weather" JNull None [])
     = {| yielded := [notFoundUpdate "weather"]; ending := Returned tt [];
          reads := 0 |}.
Proof.
  pose proof (callTool_resolution (fun e l => (l ++ [e])%list) Scenario.registry
                {| context_model := "llama3.2" |} "search" (JString "cats") None []
                Scenario.never 0) as Hsearch.
  pose proof (callTool_resolution (fun e l => (l ++ [e])%list) Scenario.registry
                {| context_model := "llama3.2" |} "fs_read" (JString "a.txt") None []
                Scenario.never 0) as Hfiles.
  pose proof (callTool_resolution (fun e l => (l ++ [e])%list) Scenario.registry
                {| context_model := "llama3.2" |} "weather" JNull None []
                Scenario.never 0) as Hweather.
  split; [|split].
  - apply (proj1 Hsearch [] Scenario.search [Scenario.files] eq_refl eq_refl).
    intros q [].
  - apply (proj1 (proj2 Hfiles) [Scenario.search] Scenario.files [] ).
    + intros q [<-|[<-|[]]]; discriminate.
    + reflexivity.
    + reflexivity.
    + intros q [<-|[]]. reflexivity.
  - apply (proj2 (proj2 (proj2 (proj2 Hweather)))).
    intros q [<-|[<-|[]]]; split; try discriminate; reflexivity.
Defined.

(** C7.  Cancellation before execution in [callTool]: when the tool
    resolves to a plugin and the cancellation signal is set when [callTool]
    reads it at entry, [callTool] yields exactly one terminal update, marked
    canceled, and returns; the shared state is left as it was: neither the
    validation callback nor the plugin's [execute] or [executeWithUpdates]
    has been called. *)
Theorem callTool_cancelled_at_entry :
  forall (World : Type) (logCall : CallEvent -> World -> World) (plugins : list Plugin)
         (context : PluginExecutionContext) (tool : string) (args : Json)
         (validate : option LlmToolExecutionValidationCallback) (w : World)
         (signal : nat -> bool) (clock : nat),
    resolveToolOwner plugins tool args <> None ->
    signal clock = true ->
    collect signal clock (callTool logCall plugins context tool args validate w)
    = {| yielded := [UpdateResult {| result := errorResult "Operation cancelled";
                                     canceled := true; validation := None |}];
         ending := Returned tt w;
         reads := S clock |}.
Proof.
  intros World logCall plugins context tool args validate w signal clock Hres Hsig.
  destruct (resolveToolOwner plugins tool args) as [[p payload]|] eqn:E;
    [|congruence].
  rewrite (callTool_resolved logCall plugins signal context tool args validate w
             clock E), Hsig.
  reflexivity.
Qed.

Lemma callTool_cancelled_at_entry_witness :
  resolveToolOwner Scenario.registry "search" (JString "cats") <> None
  /\ Scenario.always 0 = true
  /\ collect Scenario.always 0
       (callTool (fun e l => (l ++ [e])%list) Scenario.registry
          {| context_model := "llama3.2" |} "search" (JString "cats")
          (Some (Scenario.answering allow)) [])
     = {| yielded := [canceledUpdate None]; ending := Returned tt []; reads := 1 |}.
Proof.
  assert (H : resolveToolOwner Scenario.registry "search" (JString "cats") <> None)
    by discriminate.
  split; [exact H|]. split; [reflexivity|].
  exact (callTool_cancelled_at_entry (fun e l => (l ++ [e])%list) Scenario.registry
           {| context_model := "llama3.2" |} "search" (JString "cats")
           (Some (Scenario.answering allow)) [] Scenario.always 0 H eq_refl).
Defined.

(* ===================================================================== *)
(** * 13. Tool abort and denial, through the Ollama normalizer *)
(* ===================================================================== *)

Section OllamaFacts.

Local Open Scope list_scope.

Variable plugins : list Plugin.
Variable chat : OllamaStreamingContext -> LlmStream ChatResponse.
Variable signal : nat -> bool.

Variable currentStream : LlmStream ChatResponse.
Variable chunk : ChatResponse.
Variable t : OllamaToolCall.
Variable w : OllamaWorld.
Variable validate : LlmToolExecutionValidationCallback.

Let tc : LlmToolCall := recordedCall (afterUsage chunk w) t.
Let v : LlmToolExecutionValidationResponse :=
  validate {| context_model := model_id (ctx_model (ollama_context w)) |}
    (call_function tc) (call_args tc).

Hypothesis single : tool_calls (message chunk) = Some [t].
Hypothesis validated : toolExecutionValidation (opts (ollama_context w)) = Some validate.
Hypothesis resolved : resolveToolOwner plugins (call_function tc) (call_args tc) <> None.

Variable clock : nat.

(** The signal is found clear after the chunks preparing and running have
    been forwarded, and at the entry of [callTool]: the validation callback
    is called. *)
Hypothesis clear0 : signal clock = false.
Hypothesis clear1 : signal (1 + clock) = false.
Hypothesis clear2 : signal (2 + clock) = false.

(** The decision is abort and the handler of the normalizer finds the signal
    clear: the tool abort is thrown to [generate], which forwards it. *)
Lemma ollama_abort_chunk (nextStream : option (LlmStream ChatResponse)) :
  signal (3 + clock) = false ->
  decision v = abort ->
  drainChunk signal currentStream (nativeChunkToLlmChunk plugins chat chunk w)
    nextStream clock
  = ([Forwarded (preparingChunk plugins tc); Forwarded (runningChunk plugins tc);
      Forwarded (ChunkToolAbort {| abort_name := call_function tc;
                                   abort_params := call_args tc;
                                   abort_reason := v |})],
     Continues (nextStream, afterRefusal chunk t w) (4 + clock)).
Proof.
  intros clear3 Hdec. pose proof resolved as Hres. unfold v, tc in *.
  unfold afterRefusal, recordedCall, afterUsage in *. cbn [call_function call_args] in *.
  destruct (resolveToolOwner plugins (function_name t)
              (orElse (function_arguments t) (JString EmptyString))) as [[p payload]|] eqn:E;
    [|congruence].
  unfold nativeChunkToLlmChunk. rewrite single.
  unfold preparingChunk, runningChunk.
  cbn [plus] in *.
  destruct (done chunk && (nonZero (eval_count chunk) || nonZero (prompt_eval_count chunk)));
    destruct nextStream;
    unfold processToolCall; step; rewrite clear0; step; rewrite clear1; step;
    rewrite validated;
    unfold callTool; step; rewrite E; step; rewrite clear2; step; rewrite Hdec; step;
    unfold processToolExecutionResult; step; rewrite Hdec; step; rewrite clear3; step;
    reflexivity.
Qed.

(** The decision is abort and the handler of the normalizer finds the signal
    set: it reports the call as canceled and the tool abort is lost. *)
Lemma ollama_abort_swallowed (nextStream : option (LlmStream ChatResponse)) :
  signal (3 + clock) = true ->
  decision v = abort ->
  drainChunk signal currentStream (nativeChunkToLlmChunk plugins chat chunk w)
    nextStream clock
  = if signal (4 + clock)
    then ([Forwarded (preparingChunk plugins tc); Forwarded (runningChunk plugins tc);
           Forwarded (canceledByHandler plugins tc)] ++ abortTransport currentStream,
          Stops Cancelled (afterRefusal chunk t w))
    else ([Forwarded (preparingChunk plugins tc); Forwarded (runningChunk plugins tc);
           Forwarded (canceledByHandler plugins tc)],
          Continues (nextStream, afterRefusal chunk t w) (5 + clock)).
Proof.
  intros set3 Hdec. pose proof resolved as Hres. unfold v, tc in *.
  unfold afterRefusal, recordedCall, afterUsage in *. cbn [call_function call_args] in *.
  destruct (resolveToolOwner plugins (function_name t)
              (orElse (function_arguments t) (JString EmptyString))) as [[p payload]|] eqn:E;
    [|congruence].
  unfold nativeChunkToLlmChunk. rewrite single.
  unfold preparingChunk, runningChunk, canceledByHandler.
  cbn [plus] in *.
  destruct (done chunk && (nonZero (eval_count chunk) || nonZero (prompt_eval_count chunk)));
    destruct nextStream;
    unfold processToolCall; step; rewrite clear0; step; rewrite clear1; step;
    rewrite validated;
    unfold callTool; step; rewrite E; step; rewrite clear2; step; rewrite Hdec; step;
    unfold processToolExecutionResult; step; rewrite Hdec; step; rewrite set3; step;
    destruct (signal (S (S (S (S clock))))); reflexivity.
Qed.

(** The decision is deny: the call ends with the canceled chunk, and
    nothing else of this native chunk is forwarded, whatever the signal
    answers from then on. *)
Lemma ollama_deny_chunk (nextStream : option (LlmStream ChatResponse)) :
  decision v = deny ->
  exists evs fl,
    drainChunk signal currentStream (nativeChunkToLlmChunk plugins chat chunk w)
      nextStream clock
    = (Forwarded (preparingChunk plugins tc) :: Forwarded (runningChunk plugins tc)
       :: Forwarded (deniedChunk plugins tc v) :: evs, fl)
    /\ forwarded evs = [].
Proof.
  intros Hdec. pose proof resolved as Hres. unfold v, tc in *.
  unfold recordedCall, afterUsage in *. cbn [call_function call_args] in *.
  destruct (resolveToolOwner plugins (function_name t)
              (orElse (function_arguments t) (JString EmptyString))) as [[p payload]|] eqn:E;
    [|congruence].
  unfold nativeChunkToLlmChunk. rewrite single.
  unfold preparingChunk, runningChunk, deniedChunk, deniedResult.
  cbn [plus] in *.
  destruct (done chunk && (nonZero (eval_count chunk) || nonZero (prompt_eval_count chunk)));
    destruct nextStream;
    unfold processToolCall; step; rewrite clear0; step; rewrite clear1; step;
    rewrite validated;
    unfold callTool; step; rewrite E; step; rewrite clear2; step; rewrite Hdec; step;
    unfold processToolExecutionResult; step; rewrite Hdec; step;
    (destruct (signal (S (S (S clock))));
     [step; do 2 eexists; split; [reflexivity|apply forwarded_abortTransport]|]);
    step;
    (destruct (signal (S (S (S (S clock)))));
     [step; do 2 eexists; split; reflexivity|]);
    unfold doStream; step;
    (destruct (signal (S (S (S (S (S clock))))));
     [step; do 2 eexists; split; [reflexivity|apply forwarded_abortTransport]|]);
    step; do 2 eexists; split; reflexivity.
Qed.

End OllamaFacts.

(** C2, as amended.  Tool abort against denial.  When the validation
    callback does not allow a call, [callTool] ends with one terminal update
    that carries the validation answer, the plugin not being run; on that
    update [processToolExecutionResult] throws the tool-abort object when the
    decision is abort, and returns the result classified as canceled, without
    throwing, when it is deny.  [generate] forwards a tool abort thrown by
    the normalizer as a tool-abort chunk and is not stopped by it: when the
    checkpoint before the next native chunk of the current stream finds the
    signal clear, that chunk is normalized and what its normalization yields
    first is forwarded right after the tool-abort chunk.  End to end with
    the Ollama normalizer, for a tool call that reaches the validation
    callback (the signal is found clear after the chunks preparing and
    running and at the entry of [callTool]): when the decision is abort and
    the handler of the normalizer finds the signal clear, the call is
    forwarded as preparing, running, tool-abort, and the next native chunk
    of the stream is normalized and forwarded after it; when the decision is
    abort and the handler finds the signal set, the call is forwarded as
    preparing, running, canceled, and no tool-abort chunk is forwarded; when
    the decision is deny, the call is forwarded as preparing, running,
    canceled, and nothing else of that native chunk is forwarded, whatever
    the signal answers afterwards. *)
Theorem tool_abort_versus_deny :
  (forall (World : Type) (logCall : CallEvent -> World -> World) (plugins : list Plugin)
          (context : PluginExecutionContext) (tool : string) (args : Json)
          (validate : LlmToolExecutionValidationCallback) (w : World)
          (signal : nat -> bool) (clock : nat),
      resolveToolOwner plugins tool args <> None ->
      signal clock = false ->
      isAllow (decision (validate context tool args)) = false ->
      collect signal clock
        (callTool logCall plugins context tool args (Some validate) w)
      = {| yielded := [deniedUpdate tool (validate context tool args)];
           ending := Returned tt (logCall (CalledValidation tool args) w);
           reads := S clock |})
  /\ (forall (providerId toolName : string) (params : Json)
             (u : PluginExecutionResult) (v : LlmToolExecutionValidationResponse),
         validation u = Some v ->
         (decision v = abort ->
          processToolExecutionResult providerId toolName params (Some u)
          = inr (ThrowToolAbort {| abort_name := toolName; abort_params := params;
                                   abort_reason := v |}))
         /\ (decision v = deny ->
             processToolExecutionResult providerId toolName params (Some u)
             = inl {| outcome_content :=
                        orElse (result u) (errorResult "No result from tool");
                      outcome_canceled := true |}))
  /\ (forall (Native World : Type)
             (normalizer : Native -> World -> Gen (LlmChunk Native) World unit)
             (signal : nat -> bool) (currentStream : LlmStream Native)
             (a : LlmChunkToolAbort) (w : World)
             (nextStream : option (LlmStream Native)) (clock : nat),
         (forall rest,
             resumeStream normalizer signal currentStream (Raise (ThrowToolAbort a) w)
               rest nextStream clock
             = emit [Forwarded (ChunkToolAbort a)]
                 (drainStream normalizer signal currentStream rest nextStream w clock))
         /\ (forall chunk' rest' msg w2 k,
                signal clock = false ->
                normalizer chunk' w = Yield msg w2 k ->
                isSwitch msg = false ->
                exists evs fl,
                  resumeStream normalizer signal currentStream
                    (Raise (ThrowToolAbort a) w) (chunk' :: rest') nextStream clock
                  = (Forwarded (ChunkToolAbort a)
                     :: Forwarded (clearStaleDone nextStream msg) :: evs, fl)))
  /\ (forall (plugins : list Plugin)
             (chat : OllamaStreamingContext -> LlmStream ChatResponse)
             (signal : nat -> bool) (currentStream : LlmStream ChatResponse)
             (chunk : ChatResponse) (t : OllamaToolCall) (w : OllamaWorld)
             (validate : LlmToolExecutionValidationCallback)
             (nextStream : option (LlmStream ChatResponse)) (clock : nat),
         let normalizer := nativeChunkToLlmChunk plugins chat in
         let tc := recordedCall (afterUsage chunk w) t in
         let v := validate {| context_model := model_id (ctx_model (ollama_context w)) |}
                    (call_function tc) (call_args tc) in
         let aborts := ChunkToolAbort {| abort_name := call_function tc;
                                         abort_params := call_args tc;
                                         abort_reason := v |} in
         tool_calls (message chunk) = Some [t] ->
         toolExecutionValidation (opts (ollama_context w)) = Some validate ->
         resolveToolOwner plugins (call_function tc) (call_args tc) <> None ->
         signal clock = false ->
         signal (1 + clock) = false ->
         signal (2 + clock) = false ->
         (decision v = abort ->
          signal (3 + clock) = false ->
          drainChunk signal currentStream (normalizer chunk w) nextStream clock
          = ([Forwarded (preparingChunk plugins tc);
              Forwarded (runningChunk plugins tc); Forwarded aborts],
             Continues (nextStream, afterRefusal chunk t w) (4 + clock))
          /\ forall chunk' rest' msg w2 k,
               signal (4 + clock) = false ->
               normalizer chunk' (afterRefusal chunk t w) = Yield msg w2 k ->
               isSwitch msg = false ->
               exists evs fl,
                 resumeStream normalizer signal currentStream (normalizer chunk w)
                   (chunk' :: rest') nextStream clock
                 = (Forwarded (preparingChunk plugins tc)
                    :: Forwarded (runningChunk plugins tc) :: Forwarded aborts
                    :: Forwarded (clearStaleDone nextStream msg) :: evs, fl))
         /\ (decision v = abort ->
             signal (3 + clock) = true ->
             exists evs fl,
               drainChunk signal currentStream (normalizer chunk w) nextStream clock
               = (Forwarded (preparingChunk plugins tc)
                  :: Forwarded (runningChunk plugins tc)
                  :: Forwarded (canceledByHandler plugins tc) :: evs, fl)
               /\ forwarded evs = [])
         /\ (decision v = deny ->
             exists evs fl,
               drainChunk signal currentStream (normalizer chunk w) nextStream clock
               = (Forwarded (preparingChunk plugins tc)
                  :: Forwarded (runningChunk plugins tc)
                  :: Forwarded (deniedChunk plugins tc v) :: evs, fl)
               /\ forwarded evs = [])).
Proof.
  split; [|split; [|split]].
  - intros World logCall plugins context tool args validate w signal clock
      Hres Hsig Hdeny.
    destruct (resolveToolOwner plugins tool args) as [[p payload]|] eqn:E;
      [|congruence].
    rewrite (callTool_resolved logCall plugins signal context tool args
               (Some validate) w clock E), Hsig, Hdeny.
    reflexivity.
  - intros providerId toolName params u v Hv. unfold processToolExecutionResult.
    rewrite Hv. split; intros Hd; simpl; rewrite Hd.
    + reflexivity.
    + rewrite orb_true_r. reflexivity.
  - intros Native World normalizer signal currentStream a w nextStream clock. split.
    + intros rest. apply resumeStream_tool_abort.
    + intros chunk' rest' msg w2 k Hsig Hnorm Hsw.
      rewrite resumeStream_tool_abort.
      destruct (@drainStream_first_yield Native World normalizer signal currentStream
                  chunk' rest' nextStream w w2 clock msg k Hsig Hnorm Hsw)
        as (evs & fl & E).
      rewrite E. unfold emit. cbn [fst snd app]. eexists; eexists; reflexivity.
  - intros plugins chat signal currentStream chunk t w validate nextStream clock
      normalizer tc v aborts single validated resolved clear0 clear1 clear2.
    split; [|split].
    + intros Hdec clear3.
      pose proof (@ollama_abort_chunk plugins chat signal currentStream chunk t w
                    validate single validated resolved clock clear0 clear1 clear2
                    nextStream clear3 Hdec) as Hw.
      split; [exact Hw|].
      intros chunk' rest' msg w2 k clear4 Hnorm Hsw.
      unfold resumeStream, andThen, normalizer. rewrite Hw. cbn [snd fst].
      destruct (@drainStream_first_yield ChatResponse OllamaWorld
                  (nativeChunkToLlmChunk plugins chat) signal currentStream
                  chunk' rest' nextStream (afterRefusal chunk t w) w2 (4 + clock)
                  msg k clear4 Hnorm Hsw) as (evs & fl & E).
      rewrite E. unfold emit. cbn [fst snd app]. eexists; eexists; reflexivity.
    + intros Hdec set3.
      pose proof (@ollama_abort_swallowed plugins chat signal currentStream chunk t w
                    validate single validated resolved clock clear0 clear1 clear2
                    nextStream set3 Hdec) as Hw.
      unfold normalizer. rewrite Hw. destruct (signal (4 + clock)).
      * eexists; eexists. split; [reflexivity|apply forwarded_abortTransport].
      * eexists; eexists. split; reflexivity.
    + intros Hdec.
      exact (@ollama_deny_chunk plugins chat signal currentStream chunk t w
               validate single validated resolved clock clear0 clear1 clear2
               nextStream Hdec).
Qed.

Lemma tool_abort_versus_deny_witness :
  exists evs fl,
    resumeStream (nativeChunkToLlmChunk Scenario.registry Scenario.server)
      Scenario.never (Scenario.server (ollama_context (Scenario.startWorld abort)))
      (nativeChunkToLlmChunk Scenario.registry Scenario.server Scenario.toolChunk
         (Scenario.startWorld abort))
      [Scenario.doneChunk] None 1
    = (Forwarded (ChunkTool "0" "search" Preparing (JString "Preparing search")
                    None false)
       :: Forwarded (ChunkTool "0" "search" Running (JString "Searching")
                       (Some (JString "cats", JUndefined)) false)
       :: Forwarded (ChunkToolAbort Scenario.abortNotice)
       :: Forwarded (ChunkContent TypeContent "bye" true) :: evs, fl).
Proof.
  assert (Hres : resolveToolOwner Scenario.registry "search" (JString "cats") <> None)
    by discriminate.
  exact (proj2 (proj1 (proj2 (proj2 (proj2 tool_abort_versus_deny)) Scenario.registry
                         Scenario.server Scenario.never
                         (Scenario.server (ollama_context (Scenario.startWorld abort)))
                         Scenario.toolChunk Scenario.searchCall
                         (Scenario.startWorld abort) (Scenario.answering abort) None 1
                         eq_refl eq_refl Hres eq_refl eq_refl eq_refl)
                  eq_refl eq_refl)
           Scenario.doneChunk [] (ChunkContent TypeContent "bye" true) _ _
           eq_refl eq_refl eq_refl).
Defined.

(** C2, as stated, fails: the validation callback answers abort, but the
    cancellation signal is set while it is awaited; the handler of the
    Ollama normalizer finds the signal set and reports the call as
    canceled, so that no tool-abort chunk is forwarded. *)
Lemma tool_abort_lost_counterexample :
  let late := fun n => Nat.leb 4 n in
  let g := generate (nativeChunkToLlmChunk Scenario.registry Scenario.server) late 5
             {| stream := Scenario.server (ollama_context (Scenario.startWorld abort));
                context := Scenario.startWorld abort |} in
  ollama_generate Scenario.registry Scenario.server late 5 Scenario.plainModel
    Scenario.conversation (Some (Scenario.validatedBy abort)) = inl g
  /\ decision (Scenario.answering abort {| context_model := "llama3.2" |} "search"
                 (JString "cats")) = abort
  /\ calls (world g) = [CalledValidation "search" (JString "cats")]
  /\ forwarded (events g)
     = [ChunkTool "0" "search" Preparing (JString "Preparing search") None false;
        ChunkTool "0" "search" Running (JString "Searching")
          (Some (JString "cats", JUndefined)) false;
        ChunkTool "0" "search" Canceled JUndefined
          (Some (JString "cats", JUndefined)) true]
  /\ existsb (@isToolAbort ChatResponse) (forwarded (events g)) = false.
Proof.
  cbv zeta. split; [reflexivity|]. split; [reflexivity|].
  split; [vm_compute; reflexivity|]. split; vm_compute; reflexivity.
Qed.

(** C3, as amended.  A tool abort does not end the generation.  When the
    normalizer throws a tool abort while a native chunk is normalized,
    [generate] forwards the tool-abort chunk and goes on with the native
    chunks of the current stream that remain: when the checkpoint before
    the next native chunk finds the signal clear, that chunk is normalized
    and what its normalization yields first is forwarded right after the
    tool-abort chunk.  The loops over the normalized chunks and over the
    native chunks stop only when cancellation is observed or a failure other
    than a tool abort is raised.  End to end with the Ollama normalizer, for
    a tool call whose validation answers abort, the signal being found clear
    up to the read the handler of the normalizer makes: the run forwards the
    chunks preparing, running, tool-abort and goes on with the native chunks
    that remain, in the context in which the call is recorded and the
    validation callback logged; the next native chunk of the stream is
    normalized and forwarded, unless the checkpoint before it finds the
    signal set. *)
Theorem tool_abort_keeps_draining :
  (forall (Native World : Type)
          (normalizer : Native -> World -> Gen (LlmChunk Native) World unit)
          (signal : nat -> bool) (fuel : nat) (currentStream : LlmStream Native)
          (chunk : Native) (rest : list Native) (w w1 : World) (clock : nat)
          (a : LlmChunkToolAbort),
      chunks currentStream = chunk :: rest ->
      signal clock = false ->
      normalizer chunk w = Raise (ThrowToolAbort a) w1 ->
      streamLoop normalizer signal (S fuel) currentStream w clock
      = nextRound (streamLoop normalizer signal fuel)
          (emit [Forwarded (ChunkToolAbort a)]
             (drainStream normalizer signal currentStream rest None w1 (S clock)))
      /\ forall chunk' rest' msg w2 k,
           rest = chunk' :: rest' ->
           signal (S clock) = false ->
           normalizer chunk' w1 = Yield msg w2 k ->
           isSwitch msg = false ->
           exists more,
             events (streamLoop normalizer signal (S fuel) currentStream w clock)
             = Forwarded (ChunkToolAbort a) :: Forwarded msg :: more)
  /\ (forall (Native World : Type)
             (normalizer : Native -> World -> Gen (LlmChunk Native) World unit)
             (signal : nat -> bool)
             (currentStream : LlmStream Native) (g : Gen (LlmChunk Native) World unit)
             (rest : list Native) (w : World)
             (nextStream : option (LlmStream Native)) (clock : nat) o w',
         (snd (drainChunk signal currentStream g nextStream clock) = Stops o w' ->
          o = Cancelled \/ exists e, o = Failed e /\ forall a, e <> ThrowToolAbort a)
         /\ (snd (drainStream normalizer signal currentStream rest nextStream w clock)
             = Stops o w' ->
             o = Cancelled \/ exists e, o = Failed e /\ forall a, e <> ThrowToolAbort a))
  /\ (forall (plugins : list Plugin)
             (chat : OllamaStreamingContext -> LlmStream ChatResponse)
             (signal : nat -> bool) (fuel : nat)
             (currentStream : LlmStream ChatResponse) (chunk : ChatResponse)
             (rest : list ChatResponse) (t : OllamaToolCall) (w : OllamaWorld)
             (validate : LlmToolExecutionValidationCallback) (clock : nat),
         let normalizer := nativeChunkToLlmChunk plugins chat in
         let tc := recordedCall (afterUsage chunk w) t in
         let v := validate {| context_model := model_id (ctx_model (ollama_context w)) |}
                    (call_function tc) (call_args tc) in
         let aborts := ChunkToolAbort {| abort_name := call_function tc;
                                         abort_params := call_args tc;
                                         abort_reason := v |} in
         chunks currentStream = chunk :: rest ->
         tool_calls (message chunk) = Some [t] ->
         toolExecutionValidation (opts (ollama_context w)) = Some validate ->
         resolveToolOwner plugins (call_function tc) (call_args tc) <> None ->
         decision v = abort ->
         (forall n, n <= 4 -> signal (n + clock) = false) ->
         streamLoop normalizer signal (S fuel) currentStream w clock
         = nextRound (streamLoop normalizer signal fuel)
             (emit [Forwarded (preparingChunk plugins tc);
                    Forwarded (runningChunk plugins tc); Forwarded aborts]
                (drainStream normalizer signal currentStream rest None
                   (afterRefusal chunk t w) (5 + clock)))
         /\ forall chunk' rest' msg w2 k,
              rest = chunk' :: rest' ->
              signal (5 + clock) = false ->
              normalizer chunk' (afterRefusal chunk t w) = Yield msg w2 k ->
              isSwitch msg = false ->
              exists more,
                events (streamLoop normalizer signal (S fuel) currentStream w clock)
                = Forwarded (preparingChunk plugins tc)
                  :: Forwarded (runningChunk plugins tc)
                  :: Forwarded aborts :: Forwarded msg :: more).
Proof.
  split; [|split].
  - intros Native World normalizer signal fuel currentStream chunk rest w w1 clock a
      Hchunks Hsig Hraise.
    pose proof (@streamLoop_tool_abort Native World normalizer signal fuel currentStream
                  chunk rest w w1 clock a Hchunks Hsig Hraise) as Hloop.
    split; [exact Hloop|].
    intros chunk' rest' msg w2 k -> Hsig' Hnorm Hsw. rewrite Hloop.
    destruct (@drainStream_first_yield Native World normalizer signal currentStream
                chunk' rest' None w1 w2 (S clock) msg k Hsig' Hnorm Hsw)
      as (evs & fl & E).
    rewrite E.
    destruct (events_nextRound (streamLoop normalizer signal fuel)
                (emit [Forwarded (ChunkToolAbort a)]
                   (Forwarded (clearStaleDone None msg) :: evs, fl)))
      as (more & Hmore).
    rewrite Hmore. unfold emit. cbn [fst snd app].
    rewrite (@clearStaleDone_unset Native msg). eexists. reflexivity.
  - intros Native World normalizer signal currentStream g rest w nextStream clock o w'.
    split; [apply drainChunk_stops|apply drainStream_stops].
  - intros plugins chat signal fuel currentStream chunk rest t w validate
      clock normalizer tc v aborts Hchunks single validated resolved Hdec Hclear.
    pose proof (@ollama_abort_chunk plugins chat signal currentStream chunk t w
                  validate single validated resolved (S clock)
                  (Hclear 1 (le_S _ _ (le_S _ _ (le_S _ _ (le_n 1)))))
                  (Hclear 2 (le_S _ _ (le_S _ _ (le_n 2))))
                  (Hclear 3 (le_S _ _ (le_n 3)))
                  None (Hclear 4 (le_n 4)) Hdec) as Hw.
    assert (Hloop :
              streamLoop normalizer signal (S fuel) currentStream w clock
              = nextRound (streamLoop normalizer signal fuel)
                  (emit [Forwarded (preparingChunk plugins tc);
                         Forwarded (runningChunk plugins tc); Forwarded aborts]
                     (drainStream normalizer signal currentStream rest None
                        (afterRefusal chunk t w) (5 + clock)))).
    { cbn [streamLoop]. rewrite Hchunks, drainStream_cons.
      pose proof (Hclear 0 (Nat.le_0_l 4)) as Hclear0. cbn [plus] in Hclear0.
      rewrite Hclear0.
      unfold resumeStream, andThen, normalizer. rewrite Hw. cbn [snd fst].
      reflexivity. }
    split; [exact Hloop|].
    intros chunk' rest' msg w2 k -> Hclear5 Hnorm Hsw. rewrite Hloop.
    destruct (@drainStream_first_yield ChatResponse OllamaWorld
                (nativeChunkToLlmChunk plugins chat) signal currentStream
                chunk' rest' None (afterRefusal chunk t w) w2 (5 + clock)
                msg k Hclear5 Hnorm Hsw) as (evs & fl & E).
    unfold normalizer. rewrite E.
    match goal with
    | |- exists more, events (nextRound ?loop ?tr) = _ =>
        destruct (events_nextRound loop tr) as (more & Hmore)
    end.
    rewrite Hmore. unfold emit. cbn [fst snd app].
    rewrite (@clearStaleDone_unset ChatResponse msg). eexists. reflexivity.
Qed.

Lemma tool_abort_keeps_draining_witness :
  chunks Scenario.abortingStream = [0; 1]
  /\ Scenario.never 0 = false
  /\ Scenario.abortingNormalizer 0 tt = Raise (ThrowToolAbort Scenario.abortNotice) tt
  /\ exists more,
       events (streamLoop Scenario.abortingNormalizer Scenario.never 1
                 Scenario.abortingStream tt 0)
       = Forwarded (ChunkToolAbort Scenario.abortNotice)
         :: Forwarded (ChunkContent TypeContent "text" true) :: more.
Proof.
  split; [reflexivity|]. split; [reflexivity|]. split; [reflexivity|].
  exact (proj2 (proj1 tool_abort_keeps_draining nat unit Scenario.abortingNormalizer
                  Scenario.never 0 Scenario.abortingStream 0 [1] tt tt 0
                  Scenario.abortNotice eq_refl eq_refl eq_refl)
           1 [] (ChunkContent TypeContent "text" true) tt _ eq_refl eq_refl eq_refl
           eq_refl).
Defined.

(** C3, as stated, fails: with a validation callback answering abort and no
    cancellation, the Ollama engine forwards the tool-abort chunk and then
    the content chunk of the native chunk that follows in the same stream. *)
Lemma tool_abort_counterexample :
  let g := generate (nativeChunkToLlmChunk Scenario.registry Scenario.server)
             Scenario.never 5
             {| stream := Scenario.server (ollama_context (Scenario.startWorld abort));
                context := Scenario.startWorld abort |} in
  ollama_generate Scenario.registry Scenario.server Scenario.never 5
    Scenario.plainModel Scenario.conversation (Some (Scenario.validatedBy abort))
  = inl g
  /\ chunks (Scenario.server (ollama_context (Scenario.startWorld abort)))
     = [Scenario.toolChunk; Scenario.doneChunk]
  /\ outcome g = Finished
  /\ forwarded (events g)
     = [ChunkTool "0" "search" Preparing (JString "Preparing search") None false;
        ChunkTool "0" "search" Running (JString "Searching")
          (Some (JString "cats", JUndefined)) false;
        ChunkToolAbort Scenario.abortNotice;
        ChunkContent TypeContent "bye" true]
  /\ ~ endsAtToolAbort (forwarded (events g)).
Proof.
  assert (Hrun : forwarded
                   (events
                      (generate (nativeChunkToLlmChunk Scenario.registry Scenario.server)
                         Scenario.never 5
                         {| stream := Scenario.server
                                        (ollama_context (Scenario.startWorld abort));
                            context := Scenario.startWorld abort |}))
                 = [ChunkTool "0" "search" Preparing (JString "Preparing search") None
                      false;
                    ChunkTool "0" "search" Running (JString "Searching")
                      (Some (JString "cats", JUndefined)) false;
                    ChunkToolAbort Scenario.abortNotice;
                    ChunkContent TypeContent "bye" true]) by (vm_compute; reflexivity).
  cbv zeta. split; [reflexivity|]. split; [vm_compute; reflexivity|].
  split; [vm_compute; reflexivity|].
  split; [exact Hrun|].
  rewrite Hrun. intros H.
  specialize (H [ChunkTool "0" "search" Preparing (JString "Preparing search") None false;
                 ChunkTool "0" "search" Running (JString "Searching")
                   (Some (JString "cats", JUndefined)) false]
                Scenario.abortNotice [ChunkContent TypeContent "bye" true] eq_refl).
  discriminate.
Qed.

(* ===================================================================== *)
(** * 14. The record of tool calls *)
(* ===================================================================== *)

Section KeepsFacts.

Variables Y St : Type.
Variable P : St -> Prop.

Lemma Keeps_bind {A B} (g : Gen Y St A) (f : A -> St -> Gen Y St B) :
  Keeps P g -> (forall a s, P s -> Keeps P (f a s)) -> Keeps P (bind g f).
Proof.
  intros Hg Hf. induction Hg as [r s Hs|e s Hs|y s k Hs Hk IH|k Hk IH]; simpl.
  - apply Hf. exact Hs.
  - constructor. exact Hs.
  - constructor; [exact Hs|]. intros s' Hs'. apply IH. exact Hs'.
  - constructor. intros b. apply IH.
Qed.

Lemma Keeps_catch {A} (g : Gen Y St A) (h : Thrown -> St -> Gen Y St A) :
  Keeps P g -> (forall e s, P s -> Keeps P (h e s)) -> Keeps P (catch g h).
Proof.
  intros Hg Hh. induction Hg as [r s Hs|e s Hs|y s k Hs Hk IH|k Hk IH]; simpl.
  - constructor. exact Hs.
  - apply Hh. exact Hs.
  - constructor; [exact Hs|]. intros s' Hs'. apply IH. exact Hs'.
  - constructor. intros b. apply IH.
Qed.

Lemma Keeps_liftGen {A} (g : Gen Y unit A) :
  forall s, P s -> Keeps P (liftGen g s).
Proof.
  induction g as [r u|e u|y u k IH|k IH]; intros s Hs; simpl.
  - constructor. exact Hs.
  - constructor. exact Hs.
  - constructor; [exact Hs|]. intros s' Hs'. apply IH. exact Hs'.
  - constructor. intros b. apply IH. exact Hs.
Qed.

Lemma Keeps_forOf {X R} (body : X -> St -> Gen Y St (Ctl unit R)) (l : list X) :
  (forall x s, P s -> Keeps P (body x s)) ->
  forall s, P s -> Keeps P (forOf l body s).
Proof.
  intros Hbody. induction l as [|x l IH]; intros s Hs; simpl.
  - constructor. exact Hs.
  - apply Keeps_bind; [apply Hbody; exact Hs|].
    intros c s' Hs'. destruct c; [apply IH|constructor]; exact Hs'.
Qed.

Lemma Keeps_yield (y : Y) (s : St) : P s -> Keeps P (yield y s).
Proof.
  intros Hs. unfold yield. constructor; [exact Hs|].
  intros s' Hs'. constructor. exact Hs'.
Qed.

Lemma Keeps_aborted (s : St) : P s -> Keeps P (aborted (Y := Y) s).
Proof. intros Hs. unfold aborted. constructor. intros b. constructor. exact Hs. Qed.

End KeepsFacts.

Lemma Keeps_forAwait {Y1 Y2 St A R} (P : St -> Prop) (g : Gen Y1 St unit)
  (body : Y1 -> A -> St -> Gen Y2 St (Ctl A R)) :
  Keeps P g -> (forall y a s, P s -> Keeps P (body y a s)) ->
  forall acc, Keeps P (forAwait g body acc).
Proof.
  intros Hg Hbody. induction Hg as [r s Hs|e s Hs|y s k Hs Hk IH|k Hk IH];
    intros acc; simpl.
  - constructor. exact Hs.
  - constructor. exact Hs.
  - apply Keeps_bind; [apply Hbody; exact Hs|].
    intros c s' Hs'. destruct c; [apply IH|constructor]; exact Hs'.
  - constructor. intros b. apply IH.
Qed.

Section CallToolKeeps.

Variable World : Type.
Variable logCall : CallEvent -> World -> World.
Variable plugins : list Plugin.
Variable P : World -> Prop.
Hypothesis logged : forall e w, P w -> P (logCall e w).

Lemma Keeps_forwardUpdate (v : option LlmToolExecutionValidationResponse)
  (update : PluginExecutionUpdate) (u : unit) (w : World) :
  P w -> Keeps P (forwardUpdate v update u w).
Proof.
  intros Hw. unfold forwardUpdate, bindM.
  apply Keeps_bind; [apply Keeps_aborted; exact Hw|].
  intros b s Hs. destruct b.
  - apply Keeps_bind; [apply Keeps_yield; exact Hs|].
    intros _ s' Hs'. constructor. exact Hs'.
  - apply Keeps_bind; [apply Keeps_yield; exact Hs|].
    intros _ s' Hs'. constructor. exact Hs'.
Qed.

Lemma Keeps_runTool (context : PluginExecutionContext) (p : Plugin) (payload : Json)
  (v : option LlmToolExecutionValidationResponse) (w : World) :
  P w -> Keeps P (runTool logCall context p payload v w).
Proof.
  intros Hw. unfold runTool.
  destruct (execution p) as [execute|executeWithUpdates]; unfold bindM, modify; simpl.
  - destruct (execute context payload) as [res|error].
    + apply Keeps_yield. apply logged. exact Hw.
    + constructor. intros b.
      destruct (b || isCancellationError error).
      * apply Keeps_yield. apply logged. exact Hw.
      * constructor. apply logged. exact Hw.
  - apply Keeps_bind.
    + apply Keeps_forAwait.
      * apply Keeps_liftGen. apply logged. exact Hw.
      * intros y a s Hs. apply Keeps_forwardUpdate. exact Hs.
    + intros c s Hs. constructor. exact Hs.
Qed.

Lemma Keeps_callTool (context : PluginExecutionContext) (tool : string) (args : Json)
  (validate : option LlmToolExecutionValidationCallback) (w : World) :
  P w -> Keeps P (callTool logCall plugins context tool args validate w).
Proof.
  intros Hw. unfold callTool.
  destruct (resolveToolOwner plugins tool args) as [[p payload]|].
  - unfold bindM. apply Keeps_bind; [apply Keeps_aborted; exact Hw|].
    intros b s Hs. destruct b; [apply Keeps_yield; exact Hs|].
    destruct validate as [f|].
    + unfold modify. simpl.
      destruct (isAllow (decision (f context tool args))).
      * apply Keeps_runTool. apply logged. exact Hs.
      * apply Keeps_yield. apply logged. exact Hs.
    + apply Keeps_runTool. exact Hs.
  - apply Keeps_yield. exact Hw.
Qed.

End CallToolKeeps.

Lemma string_of_nat_inj (n m : nat) : string_of_nat n = string_of_nat m -> n = m.
Proof.
  unfold string_of_nat. intros H.
  apply DecimalNat.Unsigned.to_uint_inj.
  assert (E : Some (Nat.to_uint n) = Some (Nat.to_uint m)).
  { rewrite <- (NilEmpty.usu (Nat.to_uint n)), <- (NilEmpty.usu (Nat.to_uint m)), H.
    reflexivity. }
  injection E as E. exact E.
Qed.

Lemma NoDup_map_injective {A B} (f : A -> B) (l : list A) :
  (forall x y, f x = f y -> x = y) -> NoDup l -> NoDup (map f l).
Proof.
  intros Hf Hl. induction Hl as [|x l Hx Hl IH]; simpl; constructor.
  - intros Hin. apply in_map_iff in Hin. destruct Hin as (y & Hy & Hin).
    apply Hf in Hy. subst y. exact (Hx Hin).
  - exact IH.
Qed.

Lemma numbered_NoDup (x : OllamaStreamingContext) :
  numbered x -> NoDup (map call_id (toolCalls x)).
Proof.
  unfold numbered. intros ->.
  apply NoDup_map_injective; [exact string_of_nat_inj|apply seq_NoDup].
Qed.

Lemma numbered_push (x : OllamaStreamingContext) (t : OllamaToolCall) :
  numbered x ->
  numbered (pushToolCall
              {| call_id := string_of_nat (length (toolCalls x));
                 call_message := t;
                 call_function := function_name t;
                 call_args := orElse (function_arguments t) (JString EmptyString) |} x).
Proof.
  unfold numbered. simpl. intros H.
  rewrite map_app, length_app, seq_app, map_app, <- H. reflexivity.
Qed.

Lemma numbered_clearForcedToolChoice (x : OllamaStreamingContext) :
  numbered x -> numbered (clearForcedToolChoice x).
Proof.
  unfold clearForcedToolChoice.
  destruct (toolChoice (opts x)) as [[| | |name]|]; intros H; exact H.
Qed.

Section OllamaKeeps.

Variable plugins : list Plugin.
Variable chat : OllamaStreamingContext -> LlmStream ChatResponse.

Lemma Keeps_processToolCall (chunk : ChatResponse) (t : OllamaToolCall) (w : OllamaWorld) :
  numberedWorld w -> Keeps numberedWorld (processToolCall plugins chunk t w).
Proof.
  intros Hw. unfold processToolCall, bindM. cbn [bind gets modify].
  assert (Hpush : numberedWorld
                    (onContext
                       (pushToolCall
                          {| call_id := string_of_nat (length (toolCalls (ollama_context w)));
                             call_message := t;
                             call_function := function_name t;
                             call_args := orElse (function_arguments t) (JString EmptyString) |})
                       w)).
  { apply numbered_push. exact Hw. }
  apply Keeps_bind; [apply Keeps_yield; exact Hpush|].
  intros _ s1 Hs1. unfold tryCatch. apply Keeps_catch.
  - apply Keeps_bind; [apply Keeps_yield; exact Hs1|].
    intros _ s2 Hs2. cbn [bind gets].
    apply Keeps_bind.
    + apply Keeps_forAwait.
      * apply Keeps_callTool; [|exact Hs2]. intros e x Hx. exact Hx.
      * intros y a s Hs. unfold onUpdate. destruct y as [status|r].
        -- unfold bindM. apply Keeps_bind; [apply Keeps_yield; exact Hs|].
           intros _ s' Hs'. constructor. exact Hs'.
        -- constructor. exact Hs.
    + intros c s3 Hs3.
      apply Keeps_bind.
      * unfold liftResult.
        match goal with
        | |- context [processToolExecutionResult ?a ?b ?c ?d] =>
            destruct (processToolExecutionResult a b c d)
        end; constructor; exact Hs3.
      * intros o s4 Hs4.
        apply Keeps_bind; [apply Keeps_yield; exact Hs4|].
        intros _ s5 Hs5. cbn [bind modify].
        apply Keeps_bind; [apply Keeps_aborted|].
        -- exact Hs5.
        -- intros b s6 Hs6. destruct b; constructor; exact Hs6.
  - intros e s Hs. unfold bindM.
    apply Keeps_bind; [apply Keeps_aborted; exact Hs|].
    intros b s' Hs'. destruct b.
    + apply Keeps_bind; [apply Keeps_yield; exact Hs'|].
      intros _ s'' Hs''. constructor. exact Hs''.
    + constructor. exact Hs'.
Qed.

Lemma Keeps_textChunk (chunk : ChatResponse) (w : OllamaWorld) :
  numberedWorld w -> Keeps numberedWorld (textChunk chunk w).
Proof.
  intros Hw. unfold textChunk.
  destruct (String.eqb (message_content (message chunk)) "<think>");
    [constructor; exact Hw|].
  destruct (String.eqb (message_content (message chunk)) "</think>");
    [constructor; exact Hw|].
  unfold bindM. apply Keeps_bind.
  - destruct (message_thinking (message chunk)) as [th|]; [|constructor; exact Hw].
    destruct (nonEmpty th); [apply Keeps_yield|constructor]; exact Hw.
  - intros _ s1 Hs1. apply Keeps_bind.
    + destruct (nonEmpty (message_content (message chunk)) || done chunk).
      * unfold gets. simpl. apply Keeps_yield. exact Hs1.
      * constructor. exact Hs1.
    + intros _ s2 Hs2. unfold gets. simpl.
      destruct (opts_usage (opts (ollama_context s2)) && done chunk);
        [apply Keeps_yield|constructor]; exact Hs2.
Qed.

Lemma Keeps_nativeChunkToLlmChunk (chunk : ChatResponse) (w : OllamaWorld) :
  numberedWorld w -> Keeps numberedWorld (nativeChunkToLlmChunk plugins chat chunk w).
Proof.
  intros Hw. unfold nativeChunkToLlmChunk, bindM. apply Keeps_bind.
  - destruct (done chunk && (nonZero (eval_count chunk) || nonZero (prompt_eval_count chunk)));
      constructor; exact Hw.
  - intros _ s1 Hs1.
    destruct (tool_calls (message chunk)) as [[|first others]|];
      try (apply Keeps_textChunk; exact Hs1).
    apply Keeps_bind.
    + apply Keeps_forOf; [|exact Hs1].
      intros x s Hs. apply Keeps_processToolCall. exact Hs.
    + intros c s2 Hs2. destruct c as [u|r]; [|constructor; exact Hs2].
      unfold doStream, bindM, modify, gets, ret. simpl.
      apply Keeps_yield. reflexivity.
Qed.

End OllamaKeeps.

Section GenerateKeeps.

Variables Native World : Type.
Variable normalizer : Native -> World -> Gen (LlmChunk Native) World unit.
Variable signal : nat -> bool.
Variable P : World -> Prop.
Hypothesis normalized : forall chunk w, P w -> Keeps P (normalizer chunk w).

Lemma drainChunk_keeps (currentStream : LlmStream Native)
  (g : Gen (LlmChunk Native) World unit) :
  Keeps P g ->
  forall nextStream clock,
    P (worldOf (snd (drainChunk signal currentStream g nextStream clock))).
Proof.
  intros Hg. induction Hg as [r s Hs|e s Hs|y s k Hs Hk IH|k Hk IH];
    intros nextStream clock; simpl.
  - exact Hs.
  - destruct (caughtToolAbort e); exact Hs.
  - destruct (signal clock); [exact Hs|]. apply IH. exact Hs.
  - apply IH.
Qed.

Lemma drainStream_keeps (currentStream : LlmStream Native) (rest : list Native) :
  forall nextStream w clock,
    P w ->
    P (worldOf (snd (drainStream normalizer signal currentStream rest nextStream w clock))).
Proof.
  induction rest as [|chunk rest IH]; intros nextStream w clock Hw; simpl.
  - exact Hw.
  - destruct (signal clock); [exact Hw|].
    pose proof (drainChunk_keeps currentStream (normalized chunk Hw) nextStream (S clock))
      as Hc.
    unfold andThen.
    destruct (drainChunk signal currentStream (normalizer chunk w) nextStream (S clock))
      as [evs [[n w'] c'|o w']]; simpl in *.
    + apply IH. exact Hc.
    + exact Hc.
Qed.

Lemma streamLoop_keeps (fuel : nat) :
  forall currentStream w clock,
    P w -> P (world (streamLoop normalizer signal fuel currentStream w clock)).
Proof.
  induction fuel as [|fuel IH]; intros currentStream w clock Hw; cbn [streamLoop].
  - exact Hw.
  - pose proof (drainStream_keeps currentStream (chunks currentStream) None clock Hw)
      as Hd.
    destruct (drainStream normalizer signal currentStream (chunks currentStream) None
                w clock) as [evs [[n w'] c'|o w']]; simpl in *.
    + destruct n as [s|]; simpl; [apply IH|]; exact Hd.
    + exact Hd.
Qed.

End GenerateKeeps.

(** C5, as amended.  The tool calls recorded in the context of an Ollama
    generation carry, at every moment, pairwise distinct ids: the i-th
    recorded call has the id [`${i}`].  This holds wherever the normalizer is
    suspended or ends, and in the context a run of [generate] leaves.  The
    record is emptied each time a stream is started ([doStream]), so the ids
    are distinct within one tool round only.  ([generate] leaves a context
    unless [selectModel] throws before any stream is opened.) *)
Theorem recorded_tool_calls_numbered :
  (forall (plugins : list Plugin)
          (chat : OllamaStreamingContext -> LlmStream ChatResponse)
          (chunk : ChatResponse) (w : OllamaWorld),
      numberedWorld w ->
      Keeps numberedWorld (nativeChunkToLlmChunk plugins chat chunk w))
  /\ (forall (plugins : list Plugin)
             (chat : OllamaStreamingContext -> LlmStream ChatResponse)
             (signal : nat -> bool) (fuel : nat) (model : ChatModel)
             (thread : list Message) (o : option LlmCompletionOpts),
         match ollama_generate plugins chat signal fuel model thread o with
         | inl g =>
             let recorded := toolCalls (ollama_context (world g)) in
             map call_id recorded = map string_of_nat (seq 0 (length recorded))
             /\ NoDup (map call_id recorded)
         | inr error => selectModel model thread o = inr error
         end)
  /\ (forall (chat : OllamaStreamingContext -> LlmStream ChatResponse) (w : OllamaWorld),
         doStream chat w
         = Ret (chat (resetForStream (ollama_context w))) (onContext resetForStream w)
         /\ toolCalls (resetForStream (ollama_context w)) = []).
Proof.
  split; [|split].
  - intros plugins chat chunk w. apply Keeps_nativeChunkToLlmChunk.
  - intros plugins chat signal fuel model thread o.
    unfold ollama_generate, ollama_stream.
    destruct (selectModel model thread o) as [selected|error]; [|reflexivity].
    cbv zeta.
    assert (H : numberedWorld
                  (world
                     (generate (nativeChunkToLlmChunk plugins chat) signal fuel
                        {| stream := chat (streamContext selected thread o);
                           context :=
                             {| ollama_context := streamContext selected thread o;
                                calls := [] |} |}))).
    { unfold generate. apply streamLoop_keeps.
      - intros chunk w. apply Keeps_nativeChunkToLlmChunk.
      - reflexivity. }
    split; [exact H|apply numbered_NoDup; exact H].
  - intros chat w. split; reflexivity.
Qed.

(** C5, as stated, fails: in a generation with two tool rounds both tool
    calls are announced with the id "0". *)
Lemma tool_call_ids_counterexample :
  let start := streamContext Scenario.plainModel Scenario.conversation None in
  let g := generate (nativeChunkToLlmChunk Scenario.registry Scenario.server)
             Scenario.never 5
             {| stream := Scenario.server start;
                context := {| ollama_context := start; calls := [] |} |} in
  ollama_generate Scenario.registry Scenario.server Scenario.never 5
    Scenario.plainModel Scenario.conversation None = inl g
  /\ outcome g = Finished
  /\ announcedIds (forwarded (events g)) = ["0"; "0"]
  /\ ~ NoDup (announcedIds (forwarded (events g))).
Proof.
  assert (Hids : announcedIds
                   (forwarded
                      (events
                         (generate
                            (nativeChunkToLlmChunk Scenario.registry Scenario.server)
                            Scenario.never 5
                            {| stream :=
                                 Scenario.server
                                   (streamContext Scenario.plainModel
                                      Scenario.conversation None);
                               context :=
                                 {| ollama_context :=
                                      streamContext Scenario.plainModel
                                        Scenario.conversation None;
                                    calls := [] |} |})))
                 = ["0"; "0"]) by (vm_compute; reflexivity).
  cbv zeta. split; [reflexivity|]. split; [vm_compute; reflexivity|].
  split; [exact Hids|].
  rewrite Hids. intros H. inversion H as [|x l Hnotin _]; subst.
  apply Hnotin. left. reflexivity.
Qed.

(* ===================================================================== *)
(** * 15. The scenarios, run *)
(* ===================================================================== *)

(** The toy normalizer: the final content chunk that follows the switch
    directive is forwarded with done cleared, and the replacement stream is
    drained next. *)
Example toy_switch_run :
  forwarded
    (events (generate Scenario.toyNormalizer Scenario.never 3
               {| stream := {| chunks := [0]; controller := None |}; context := tt |}))
  = [ChunkContent TypeContent "end" false; ChunkContent TypeContent "text" true].
Proof. reflexivity. Qed.

(** Two tool rounds through the Ollama normalizer, no validation callback:
    each round announces, runs and completes the call, the final chunk of the
    old stream loses its done flag, and the last stream ends the generation. *)
Example two_rounds_run :
  match ollama_generate Scenario.registry Scenario.server Scenario.never 5
          Scenario.plainModel Scenario.conversation None with
  | inl g =>
      forwarded (events g)
      = [ChunkTool "0" "search" Preparing (JString "Preparing search") None false;
         ChunkTool "0" "search" Running (JString "Searching")
           (Some (JString "cats", JUndefined)) false;
         ChunkTool "0" "search" Completed (JString "Search done")
           (Some (JString "cats", JObject [("hits", JNumber 3)])) true;
         ChunkContent TypeContent "bye" false;
         ChunkTool "0" "search" Preparing (JString "Preparing search") None false;
         ChunkTool "0" "search" Running (JString "Searching")
           (Some (JString "cats", JUndefined)) false;
         ChunkTool "0" "search" Completed (JString "Search done")
           (Some (JString "cats", JObject [("hits", JNumber 3)])) true;
         ChunkContent TypeContent "bye" false;
         ChunkContent TypeContent "bye" true]
  | inr _ => False
  end.
Proof. vm_compute. reflexivity. Qed.

(** A validation callback answering deny: the call ends canceled, and no
    tool-abort chunk is forwarded. *)
Example denied_run :
  match ollama_generate Scenario.registry Scenario.server Scenario.never 1
          Scenario.plainModel Scenario.conversation
          (Some (Scenario.validatedBy deny)) with
  | inl g =>
      lastToolState "0" (forwarded (events g)) = Some Canceled
      /\ existsb (@isToolAbort ChatResponse) (forwarded (events g)) = false
  | inr _ => False
  end.
Proof. vm_compute. split; reflexivity. Qed.

(** Cancellation set from the fifth read of the signal on, that is while the
    validation callback is awaited: the handler of the Ollama normalizer
    finds the signal set, reports the call as canceled and returns; that
    chunk is forwarded, then the checkpoint that follows it ends the
    generation with one transport abort. *)
Example abort_under_cancellation_run :
  match ollama_generate Scenario.registry Scenario.server (fun n => Nat.leb 4 n) 5
          Scenario.plainModel Scenario.conversation
          (Some (Scenario.validatedBy abort)) with
  | inl g =>
      outcome g = Cancelled
      /\ forwarded (events g)
         = [ChunkTool "0" "search" Preparing (JString "Preparing search") None false;
            ChunkTool "0" "search" Running (JString "Searching")
              (Some (JString "cats", JUndefined)) false;
            ChunkTool "0" "search" Canceled JUndefined
              (Some (JString "cats", JUndefined)) true]
      /\ transportAborts (events g) = [1]
  | inr _ => False
  end.
Proof. vm_compute. repeat split; reflexivity. Qed.

(** For the conversation of the scenarios, [stream] gives the context the
    scenarios start from. *)
Example start_of_generation :
  forall d,
    ollama_stream Scenario.server Scenario.plainModel Scenario.conversation
      (Some (Scenario.validatedBy d))
    = inl {| stream := Scenario.server (ollama_context (Scenario.startWorld d));
             context := Scenario.startWorld d |}.
Proof. intros d. reflexivity. Qed.

(** A message without its attachments array, options given and a model
    without vision: [selectModel] throws before any stream is opened, and so
    does [generate]. *)
Example absent_attachments_run :
  ollama_generate Scenario.registry Scenario.server Scenario.never 5
    Scenario.plainModel
    [{| role := user; contentForModel := Some "hi"; attachments := None |}]
    (Some (Scenario.validatedBy allow))
  = inr (typeError "undefined" "some").
Proof. reflexivity. Qed.

(* ===================================================================== *)
(** * 16. The plugin registry *)
(* ===================================================================== *)

Lemma names_of_filter (f : Plugin -> bool) (plugins : list Plugin) :
  NoDup (map getName plugins) -> NoDup (map getName (filter f plugins)).
Proof.
  induction plugins as [|q plugins IH]; simpl; intros H; [constructor|].
  inversion H as [|x l Hx Hl]; subst.
  destruct (f q); simpl; [constructor|]; try (apply IH; exact Hl).
  intros Hin. apply Hx. apply in_map_iff in Hin. destruct Hin as (y & Hy & Hin).
  apply in_map_iff. exists y. split; [exact Hy|].
  apply filter_In in Hin. exact (proj1 Hin).
Qed.

Lemma addPlugin_names (plugins : list Plugin) (p : Plugin) :
  NoDup (map getName plugins) -> NoDup (map getName (addPlugin plugins p)).
Proof.
  intros H. unfold addPlugin. rewrite map_app. apply NoDup_app.
  - apply names_of_filter. exact H.
  - simpl. constructor; [intros []|constructor].
  - intros name Hin [Hp|[]]. subst name.
    apply in_map_iff in Hin. destruct Hin as (q & Hq & Hin).
    apply filter_In in Hin. destruct Hin as [_ Hne].
    rewrite Hq, String.eqb_refl in Hne. discriminate.
Qed.

(** X1.  Set semantics of the plugin registry: [addPlugin] keeps the names
    of the registry pairwise distinct, so a registry built from the empty
    one ([clearPlugins]) by any sequence of [addPlugin] never holds two
    plugins with the same name; the plugin added is the last of the
    registry. *)
Theorem registry_names_distinct :
  (forall (plugins : list Plugin) (p : Plugin),
      NoDup (map getName plugins) -> NoDup (map getName (addPlugin plugins p)))
  /\ (forall (old added : list Plugin),
         NoDup (map getName (fold_left addPlugin added (clearPlugins old))))
  /\ (forall (plugins : list Plugin) (p : Plugin),
         exists others, addPlugin plugins p = (others ++ [p])%list
                        /\ forall q, In q others -> getName q <> getName p).
Proof.
  split; [exact addPlugin_names|]. split.
  - intros old added. unfold clearPlugins.
    assert (H : forall start, NoDup (map getName start) ->
                              NoDup (map getName (fold_left addPlugin added start))).
    { induction added as [|p added IH]; intros start Hs; simpl; [exact Hs|].
      apply IH. apply addPlugin_names. exact Hs. }
    apply H. constructor.
  - intros plugins p. eexists. split; [reflexivity|].
    intros q Hq. apply filter_In in Hq. destruct Hq as [_ Hne].
    intros E. rewrite E, String.eqb_refl in Hne. discriminate.
Qed.

Lemma find_filter_other (tool : string) (p : Plugin) (plugins : list Plugin) :
  tool <> getName p ->
  find (hasName tool)
    (filter (fun q => negb (String.eqb (getName q) (getName p))) plugins)
  = find (hasName tool) plugins.
Proof.
  intros Hne. induction plugins as [|q plugins IH]; simpl; [reflexivity|].
  unfold hasName at 2.
  destruct (String.eqb_spec (getName q) (getName p)) as [E|E]; simpl.
  - destruct (String.eqb_spec (getName q) tool) as [E'|E']; [congruence|exact IH].
  - unfold hasName at 1. destruct (String.eqb (getName q) tool); [reflexivity|exact IH].
Qed.

Lemma find_app_some {A} (f : A -> bool) (l1 l2 : list A) (x : A) :
  find f l1 = Some x -> find f (l1 ++ l2)%list = Some x.
Proof.
  induction l1 as [|y l1 IH]; simpl; [discriminate|].
  destruct (f y); [trivial|exact IH].
Qed.

Lemma find_app_none {A} (f : A -> bool) (l1 l2 : list A) :
  find f l1 = None -> find f (l1 ++ l2)%list = find f l2.
Proof.
  induction l1 as [|y l1 IH]; simpl; [reflexivity|].
  destruct (f y); [discriminate|exact IH].
Qed.

(** X2.  Adding then resolving: after [addPlugin], the tool named like the
    plugin added resolves to that plugin, which receives the arguments as
    they are, whatever plugin bore the name before; a tool that another
    plugin of the registry owned by name still resolves to that plugin; and
    the plugin [getPluginForTool] gives for the descriptions is always the
    one [callTool] resolves. *)
Theorem addPlugin_then_resolve :
  forall (plugins : list Plugin) (p : Plugin) (args : Json),
    resolveToolOwner (addPlugin plugins p) (getName p) args = Some (p, args)
    /\ getPluginForTool (addPlugin plugins p) (getName p) = Some p
    /\ (forall tool q,
           tool <> getName p ->
           find (hasName tool) plugins = Some q ->
           resolveToolOwner (addPlugin plugins p) tool args = Some (q, args))
    /\ (forall registry tool,
           getPluginForTool registry tool
           = option_map fst (resolveToolOwner registry tool args)).
Proof.
  intros plugins p args.
  assert (Hfind : find (hasName (getName p)) (addPlugin plugins p) = Some p).
  { unfold addPlugin. rewrite find_app_none.
    - simpl. unfold hasName. rewrite String.eqb_refl. reflexivity.
    - apply find_nowhere. intros q Hq. apply filter_In in Hq.
      destruct Hq as [_ Hne]. unfold hasName.
      destruct (String.eqb (getName q) (getName p)); [discriminate|reflexivity]. }
  split; [|split; [|split]].
  - unfold resolveToolOwner. rewrite Hfind. reflexivity.
  - unfold getPluginForTool. rewrite Hfind. reflexivity.
  - intros tool q Hne Hq. unfold resolveToolOwner, addPlugin.
    rewrite (find_app_some (hasName tool) _ [p] (x := q)); [reflexivity|].
    rewrite find_filter_other by exact Hne. exact Hq.
  - intros registry tool. unfold getPluginForTool, resolveToolOwner.
    destruct (find (hasName tool) registry); [reflexivity|].
    destruct (find (isMultiToolFor tool) registry); reflexivity.
Qed.

(* ===================================================================== *)
(** * 17. More on the payload builder *)
(* ===================================================================== *)

Section PayloadOrder.

Local Open Scope list_scope.

Variable model : ChatModel.
Variable msg : Message.

Lemma base_role_step (p : LLmCompletionPayload) (a : Attachment) :
  payload_role (@addAttachment BaseEngine model msg p a) = payload_role p.
Proof.
  unfold addAttachment. destruct (content a) as [body|]; [|reflexivity].
  assert (H : payload_role (if isText a then @addTextToPayload BaseEngine msg a p else p)
              = payload_role p).
  { destruct (isText a); [|reflexivity]. unfold addTextToPayload.
    destruct (payload_content p) as [s0|l]; simpl; [reflexivity|].
    destruct (base_requiresFlatTextPayload msg); [|reflexivity].
    destruct (appendToExistingText l (contentText a)); reflexivity. }
  destruct (isImage a && vision (capabilities model)); [|exact H].
  simpl. exact H.
Qed.

Lemma ollama_role_step (p : LLmCompletionPayload) (a : Attachment) :
  payload_role (@addAttachment OllamaEngine model msg p a) = payload_role p.
Proof.
  unfold addAttachment. destruct (content a) as [body|]; [|reflexivity].
  assert (H : payload_role (if isText a then @addTextToPayload OllamaEngine msg a p else p)
              = payload_role p).
  { destruct (isText a); [|reflexivity]. unfold addTextToPayload.
    destruct (payload_content p) as [s0|l]; simpl; [reflexivity|].
    destruct (appendToExistingText l (contentText a)); reflexivity. }
  destruct (isImage a && vision (capabilities model)); [|exact H].
  simpl. exact H.
Qed.

Lemma role_fold (H : EngineHooks) (atts : list Attachment) :
  (forall p a, payload_role (@addAttachment H model msg p a) = payload_role p) ->
  forall p,
    payload_role (fold_left (@addAttachment H model msg) atts p) = payload_role p.
Proof.
  intros Hstep. induction atts as [|a atts IH]; intros p; [reflexivity|].
  cbn [fold_left]. rewrite IH. apply Hstep.
Qed.

(** An attachment whose content is absent leaves the payload as it is. *)
Lemma unloaded_step (H : EngineHooks) (p : LLmCompletionPayload) (a : Attachment) :
  isLoaded a = false -> @addAttachment H model msg p a = p.
Proof.
  unfold isLoaded, addAttachment. destruct (content a); [discriminate|reflexivity].
Qed.

Lemma loaded_fold (H : EngineHooks) (atts : list Attachment) :
  forall p,
    fold_left (@addAttachment H model msg) atts p
    = fold_left (@addAttachment H model msg) (filter isLoaded atts) p.
Proof.
  induction atts as [|a atts IH]; intros p; [reflexivity|].
  cbn [fold_left filter]. destruct (isLoaded a) eqn:E.
  - cbn [fold_left]. apply IH.
  - rewrite (unloaded_step H p a E). apply IH.
Qed.

Lemma imageUrls_app (l1 l2 : list LlmContentPayload) :
  imageUrls (l1 ++ l2) = imageUrls l1 ++ imageUrls l2.
Proof. unfold imageUrls. apply flat_map_app. Qed.

Lemma appendToExistingText_urls (l l' : list LlmContentPayload) (x : string) :
  appendToExistingText l x = Some l' -> imageUrls l' = imageUrls l.
Proof.
  revert l'. induction l as [|c l IH]; simpl; intros l' H; [discriminate|].
  destruct c as [s|u].
  - injection H as <-. reflexivity.
  - destruct (appendToExistingText l x) as [r|]; [|discriminate].
    injection H as <-. simpl. fold (imageUrls r). fold (imageUrls l).
    rewrite (IH r eq_refl). reflexivity.
Qed.

(** The image segments of a payload of the base engine grow by the data URL
    of each loaded image attachment, when the model has vision. *)
Lemma base_urls_step (p : LLmCompletionPayload) (a : Attachment) :
  imageUrls (contentSegments (@addAttachment BaseEngine model msg p a))
  = imageUrls (contentSegments p)
    ++ (if vision (capabilities model) then map dataUrl (loadedImages [a]) else []).
Proof.
  unfold addAttachment, loadedImages. cbn [filter].
  destruct (content a) as [body|].
  2:{ destruct (vision (capabilities model)); rewrite app_nil_r; reflexivity. }
  assert (Htext : imageUrls
                    (contentSegments
                       (if isText a then @addTextToPayload BaseEngine msg a p else p))
                  = imageUrls (contentSegments p)).
  { destruct (isText a); [|reflexivity].
    unfold addTextToPayload, contentSegments. simpl.
    destruct (payload_content p) as [s0|l]; simpl; [reflexivity|].
    assert (Hpush : imageUrls (l ++ [ContentPayloadText (contentText a)]) = imageUrls l).
    { rewrite imageUrls_app. simpl. apply app_nil_r. }
    destruct (base_requiresFlatTextPayload msg); simpl; [|exact Hpush].
    destruct (appendToExistingText l (contentText a)) as [l'|] eqn:E; simpl.
    - exact (appendToExistingText_urls l (contentText a) E).
    - exact Hpush. }
  destruct (isImage a) eqn:Hi; simpl.
  - destruct (vision (capabilities model)); simpl.
    + unfold base_addImageToPayload, contentSegments in *. simpl.
      destruct (payload_content
                  (if isText a then @addTextToPayload BaseEngine msg a p else p))
        as [s0|l]; simpl in *.
      * rewrite <- Htext. reflexivity.
      * fold (imageUrls (l ++ [ContentPayloadImageOpenai (dataUrl a)])).
        rewrite imageUrls_app, Htext. reflexivity.
    + rewrite app_nil_r. exact Htext.
  - destruct (vision (capabilities model)); rewrite app_nil_r; exact Htext.
Qed.

Lemma loadedImages_cons (a : Attachment) (atts : list Attachment) :
  loadedImages (a :: atts) = loadedImages [a] ++ loadedImages atts.
Proof.
  unfold loadedImages. cbn [filter].
  destruct (match content a with Some _ => isImage a | None => false end); reflexivity.
Qed.

Lemma base_urls_fold (atts : list Attachment) :
  forall p,
    imageUrls (contentSegments (fold_left (@addAttachment BaseEngine model msg) atts p))
    = imageUrls (contentSegments p)
      ++ (if vision (capabilities model) then map dataUrl (loadedImages atts) else []).
Proof.
  induction atts as [|a atts IH]; intros p; cbn [fold_left].
  - destruct (vision (capabilities model)); rewrite app_nil_r; reflexivity.
  - rewrite IH, base_urls_step, (loadedImages_cons a atts).
    destruct (vision (capabilities model)).
    + rewrite map_app, app_assoc. reflexivity.
    + rewrite !app_nil_r. reflexivity.
Qed.

(** The [images] of a payload of the Ollama engine, read as a list. *)
Lemma ollama_images_step (p : LLmCompletionPayload) (a : Attachment) :
  match images (@addAttachment OllamaEngine model msg p a) with
  | Some l => l
  | None => []
  end
  = match images p with Some l => l | None => [] end
    ++ (if vision (capabilities model) then map contentText (loadedImages [a]) else []).
Proof.
  unfold addAttachment, loadedImages. cbn [filter].
  destruct (content a) as [body|].
  2:{ destruct (vision (capabilities model)); rewrite app_nil_r; reflexivity. }
  assert (Htext : images (if isText a then @addTextToPayload OllamaEngine msg a p else p)
                  = images p).
  { destruct (isText a); [|reflexivity]. unfold addTextToPayload.
    destruct (payload_content p) as [s0|l]; simpl; [reflexivity|].
    destruct (appendToExistingText l (contentText a)); reflexivity. }
  destruct (isImage a) eqn:Hi; simpl.
  - destruct (vision (capabilities model)); simpl.
    + unfold ollama_addImageToPayload. simpl. rewrite Htext. reflexivity.
    + rewrite app_nil_r, Htext. reflexivity.
  - destruct (vision (capabilities model)); rewrite app_nil_r, Htext; reflexivity.
Qed.

Lemma ollama_images_fold (atts : list Attachment) :
  forall p,
    match images (fold_left (@addAttachment OllamaEngine model msg) atts p) with
    | Some l => l
    | None => []
    end
    = match images p with Some l => l | None => [] end
      ++ (if vision (capabilities model) then map contentText (loadedImages atts)
          else []).
Proof.
  induction atts as [|a atts IH]; intros p; cbn [fold_left].
  - destruct (vision (capabilities model)); rewrite app_nil_r; reflexivity.
  - rewrite IH, ollama_images_step, (loadedImages_cons a atts).
    destruct (vision (capabilities model)).
    + rewrite map_app, app_assoc. reflexivity.
    + rewrite !app_nil_r. reflexivity.
Qed.

End PayloadOrder.

(** X3.  [buildPayload] gives one payload per message whose model-facing
    content is non-null, in the order of the thread and with the role of its
    message; messages with a null content leave no trace.  This holds with
    the hooks of [engine.ts] and with those of the Ollama provider. *)
Theorem buildPayload_roles_in_order :
  forall (model : ChatModel) (thread : list Message),
    map payload_role (@buildPayload BaseEngine model (ThreadMessages thread))
    = map role (filter hasContentForModel thread)
    /\ map payload_role (@buildPayload OllamaEngine model (ThreadMessages thread))
       = map role (filter hasContentForModel thread)
    /\ length (@buildPayload BaseEngine model (ThreadMessages thread))
       = length (filter hasContentForModel thread).
Proof.
  intros model thread. simpl. rewrite !map_map, length_map.
  split; [|split; [|reflexivity]]; apply map_ext; intros msg; unfold messagePayload.
  - exact (@role_fold model msg BaseEngine _ (@base_role_step model msg) _).
  - exact (@role_fold model msg OllamaEngine _ (@ollama_role_step model msg) _).
Qed.

(** X4.  Attachments whose content is absent are skipped: the payload of a
    message is the payload of the same message with only its loaded
    attachments, with the hooks of [engine.ts] and with those of the Ollama
    provider; so a message all of whose attachments are unloaded gets the
    payload of the bare message. *)
Theorem unloaded_attachments_skipped :
  forall (model : ChatModel) (msg : Message),
    @messagePayload BaseEngine model msg
    = @messagePayload BaseEngine model
        (withAttachments msg (filter isLoaded (attachmentsOf msg)))
    /\ @messagePayload OllamaEngine model msg
       = @messagePayload OllamaEngine model
           (withAttachments msg (filter isLoaded (attachmentsOf msg)))
    /\ (forallb (fun a => negb (isLoaded a)) (attachmentsOf msg) = true ->
        @messagePayload BaseEngine model msg
        = @messagePayload BaseEngine model (withAttachments msg [])).
Proof.
  intros model msg.
  assert (Hbase : @messagePayload BaseEngine model msg
                  = @messagePayload BaseEngine model
                      (withAttachments msg (filter isLoaded (attachmentsOf msg)))).
  { unfold messagePayload.
    change (match attachments (withAttachments msg (filter isLoaded (attachmentsOf msg)))
            with Some l => l | None => [] end)
      with (filter isLoaded (attachmentsOf msg)).
    change (match attachments msg with Some l => l | None => [] end)
      with (attachmentsOf msg).
    exact (@loaded_fold model msg BaseEngine (attachmentsOf msg) _). }
  split; [exact Hbase|]. split.
  - unfold messagePayload.
    change (match attachments (withAttachments msg (filter isLoaded (attachmentsOf msg)))
            with Some l => l | None => [] end)
      with (filter isLoaded (attachmentsOf msg)).
    change (match attachments msg with Some l => l | None => [] end)
      with (attachmentsOf msg).
    exact (@loaded_fold model msg OllamaEngine (attachmentsOf msg) _).
  - intros Hall. rewrite Hbase.
    assert (E : filter isLoaded (attachmentsOf msg) = []).
    { clear Hbase. induction (attachmentsOf msg) as [|a l IH]; [reflexivity|].
      simpl in Hall. apply andb_prop in Hall. destruct Hall as [Ha Hl].
      simpl. destruct (isLoaded a); [discriminate|]. exact (IH Hl). }
    rewrite E. reflexivity.
Qed.

(** X5.  Images are carried in order, none lost, none twice.  With the hooks
    of [engine.ts] the image segments of a message's payload are the data
    URLs of its loaded image attachments, in the order of the attachments,
    when the model has vision, and there is none otherwise.  With the hooks
    of the Ollama provider the payload's [images] are the raw contents of the
    loaded image attachments, in order, when the model has vision, the
    content staying a flat string: the text of the message followed by the
    texts of its loaded text attachments. *)
Theorem images_in_attachment_order :
  forall (model : ChatModel) (msg : Message),
    imageUrls (contentSegments (@messagePayload BaseEngine model msg))
    = (if vision (capabilities model)
       then map dataUrl (loadedImages (attachmentsOf msg))
       else [])
    /\ match images (@messagePayload OllamaEngine model msg) with
       | Some l => l
       | None => []
       end
       = (if vision (capabilities model)
          then map contentText (loadedImages (attachmentsOf msg))
          else [])
    /\ contentSegments (@messagePayload OllamaEngine model msg) = []
    /\ payload_content (@messagePayload OllamaEngine model msg)
       = ContentString (joinTexts (textForModel msg) (loadedTexts (attachmentsOf msg))).
Proof.
  intros model msg. split; [|split; [|split]].
  - unfold messagePayload.
    change (match attachments msg with Some l => l | None => [] end)
      with (attachmentsOf msg).
    rewrite base_urls_fold. simpl.
    destruct (base_requiresFlatTextPayload msg); reflexivity.
  - unfold messagePayload.
    change (match attachments msg with Some l => l | None => [] end)
      with (attachmentsOf msg).
    rewrite ollama_images_fold. reflexivity.
  - unfold messagePayload, contentSegments.
    match goal with
    | |- context [fold_left _ ?l ?p] =>
        rewrite (@ollama_fold model msg l p (textForModel msg) eq_refl)
    end.
    reflexivity.
  - unfold messagePayload.
    change (match attachments msg with Some l => l | None => [] end)
      with (attachmentsOf msg).
    apply ollama_fold. reflexivity.
Qed.

Lemma someImage_present (thread : list Message) :
  (forall msg, In msg thread -> attachments msg <> None) ->
  someImage thread
  = inl (existsb (fun msg => existsb isImage (attachmentsOf msg)) thread).
Proof.
  induction thread as [|msg thread IH]; intros Hall; simpl; [reflexivity|].
  pose proof (Hall msg (or_introl eq_refl)) as Hmsg. unfold attachmentsOf at 1.
  destruct (attachments msg) as [l|]; [|congruence].
  destruct (existsb isImage l); [reflexivity|].
  apply IH. intros m Hm. apply Hall. right. exact Hm.
Qed.

(** X6.  [selectModel], for a thread whose messages carry their attachments
    array: it does not throw; the model is kept when there are no options,
    when it has vision, when no message carries an image attachment, or when
    no fallback is supplied; otherwise the fallback is returned as it is.
    Selecting twice is selecting once. *)
Theorem selectModel_switches :
  forall (model : ChatModel) (thread : list Message) (opts : LlmCompletionOpts),
    (forall msg, In msg thread -> attachments msg <> None) ->
    let carriesImage :=
      existsb (fun msg => existsb isImage (attachmentsOf msg)) thread in
    let selected :=
      if negb (vision (capabilities model)) && carriesImage
      then match visionFallbackModel opts with
           | Some fallback => fallback
           | None => model
           end
      else model in
    selectModel model thread None = inl model
    /\ selectModel model thread (Some opts) = inl selected
    /\ selectModel selected thread (Some opts) = inl selected.
Proof.
  intros model thread opts Hall carriesImage selected.
  assert (Hsel : forall m,
             selectModel m thread (Some opts)
             = inl (if negb (vision (capabilities m)) && carriesImage
                    then match visionFallbackModel opts with
                         | Some fallback => fallback
                         | None => m
                         end
                    else m)).
  { intros m. unfold selectModel, requiresVisionModelSwitch.
    destruct (vision (capabilities m)); [reflexivity|].
    rewrite (someImage_present thread Hall). fold carriesImage.
    destruct carriesImage; [|reflexivity].
    destruct (visionFallbackModel opts); reflexivity. }
  split; [reflexivity|]. split; [apply Hsel|].
  rewrite Hsel. unfold selected.
  destruct (negb (vision (capabilities model)) && carriesImage) eqn:E;
    [|rewrite E; reflexivity].
  destruct (visionFallbackModel opts) as [fallback|]; [|rewrite E; reflexivity].
  destruct (negb (vision (capabilities fallback)) && carriesImage); reflexivity.
Qed.

Lemma selectModel_switches_witness :
  (forall msg, In msg [Scenario.pictureMessage] -> attachments msg <> None)
  /\ selectModel Scenario.plainModel [Scenario.pictureMessage] (Some Catalog.withFallback)
     = inl Scenario.visionModel.
Proof.
  assert (H : forall msg, In msg [Scenario.pictureMessage] -> attachments msg <> None).
  { intros msg [<-|[]]. discriminate. }
  split; [exact H|].
  exact (proj1 (proj2 (selectModel_switches Scenario.plainModel
                         [Scenario.pictureMessage] Catalog.withFallback H))).
Defined.

(* ===================================================================== *)
(** * 18. Tool schemas *)
(* ===================================================================== *)

Lemma readKey_assignOwn {V} (obj : JsObject V) (key k : string) (v : V) :
  readKey (assignOwn obj key v) k
  = if String.eqb key k then Some v else readKey obj k.
Proof.
  induction obj as [|[k0 old] rest IH]; simpl; [reflexivity|].
  destruct (String.eqb_spec k0 key) as [E|E]; simpl.
  - subst k0. destruct (String.eqb key k); reflexivity.
  - rewrite IH. destruct (String.eqb_spec k0 k) as [E0|E0]; [|reflexivity].
    subst k0. destruct (String.eqb_spec key k) as [E1|E1]; [|reflexivity].
    subst k. contradiction.
Qed.

Lemma readKey_assign {V} (obj : JsObject V) (key k : string) (v : V) :
  readKey (assign obj key v) k
  = if String.eqb key "__proto__" then readKey obj k
    else if String.eqb key k then Some v else readKey obj k.
Proof.
  unfold assign. destruct (String.eqb key "__proto__"); [reflexivity|].
  apply readKey_assignOwn.
Qed.

(** Reading an own property after a run of assignments gives what the last
    assignment to that key stored; the key [__proto__] is never written. *)
Lemma readKey_fold_assign {X V} (key : X -> string) (val : X -> V) (l : list X) :
  forall (obj : JsObject V) (k : string),
    readKey (fold_left (fun o x => assign o (key x) (val x)) l obj) k
    = if String.eqb k "__proto__" then readKey obj k
      else match find (fun x => String.eqb (key x) k) (rev l) with
           | Some x => Some (val x)
           | None => readKey obj k
           end.
Proof.
  induction l as [|x l IH]; intros obj k; cbn [fold_left rev].
  - simpl. destruct (String.eqb k "__proto__"); reflexivity.
  - rewrite IH, readKey_assign.
    destruct (String.eqb_spec k "__proto__") as [Ek|Ek].
    + destruct (String.eqb_spec (key x) "__proto__") as [Ex|Ex]; [reflexivity|].
      destruct (String.eqb_spec (key x) k) as [E|E]; [|reflexivity].
      congruence.
    + destruct (find (fun x0 => String.eqb (key x0) k) (rev l)) as [y|] eqn:E.
      * rewrite (find_app_some _ (rev l) [x] E). reflexivity.
      * rewrite (find_app_none _ (rev l) [x] E). simpl.
        destruct (String.eqb_spec (key x) "__proto__") as [Ex|Ex].
        -- destruct (String.eqb_spec (key x) k) as [E'|E']; [congruence|reflexivity].
        -- destruct (String.eqb (key x) k); reflexivity.
Qed.

Lemma readKey_properties (plugin : ToolPlugin) (k : string) :
  readKey (function_tool_properties (getPluginAsTool plugin)) k
  = if String.eqb k "__proto__" then None
    else option_map parameterSchema (lastNamed k (getParameters plugin)).
Proof.
  unfold getPluginAsTool, lastNamed. cbn [function_tool_properties].
  change (fold_left addParameter (getParameters plugin) [])
    with (fold_left (fun o x => assign o (param_name x) (parameterSchema x))
            (getParameters plugin) []).
  rewrite readKey_fold_assign.
  destruct (String.eqb k "__proto__"); [reflexivity|].
  destruct (find (fun p => String.eqb (param_name p) k) (rev (getParameters plugin)));
    reflexivity.
Qed.

Lemma find_some_of_member {A} (f : A -> bool) (l : list A) (x : A) :
  In x l -> f x = true -> find f l <> None.
Proof.
  intros Hin Hx Hnone. exact (eq_true_false_abs _ Hx (find_none f l Hnone x Hin)).
Qed.

Lemma stringOr_nonempty (a b : string) : b <> EmptyString -> stringOr a b <> EmptyString.
Proof.
  intros Hb. unfold stringOr. destruct (String.eqb_spec a EmptyString); assumption.
Qed.

(** X7.  The own properties of a tool schema: for a name [k] other than
    [__proto__], the property [k] of the schema [getPluginAsTool] builds is
    the schema of the last parameter the plugin declares under the name [k],
    and there is none when it declares none; a parameter named [__proto__]
    leaves no own property (the assignment replaces the prototype of the
    object instead).  Every name listed as required, [__proto__] apart, has
    a property; a required parameter named [__proto__] is listed as required
    and has none. *)
Theorem tool_schema_last_declaration_wins :
  forall (plugin : ToolPlugin) (k : string),
    readKey (function_tool_properties (getPluginAsTool plugin)) k
    = (if String.eqb k "__proto__" then None
       else option_map parameterSchema (lastNamed k (getParameters plugin)))
    /\ (In k (function_tool_required (getPluginAsTool plugin)) ->
        k <> "__proto__" ->
        readKey (function_tool_properties (getPluginAsTool plugin)) k <> None)
    /\ (forall p,
           In p (getParameters plugin) ->
           param_name p = "__proto__" ->
           param_required p = true ->
           In "__proto__" (function_tool_required (getPluginAsTool plugin))
           /\ readKey (function_tool_properties (getPluginAsTool plugin)) "__proto__"
              = None).
Proof.
  intros plugin k. split; [apply readKey_properties|]. split.
  - intros Hin Hk. rewrite readKey_properties.
    destruct (String.eqb_spec k "__proto__") as [E|_]; [contradiction|].
    cbn [getPluginAsTool function_tool_required] in Hin.
    apply in_map_iff in Hin. destruct Hin as (p & Hname & Hp).
    apply filter_In in Hp. destruct Hp as [Hp _].
    assert (Hfound : lastNamed k (getParameters plugin) <> None).
    { unfold lastNamed.
      apply (find_some_of_member _ (rev (getParameters plugin)) p).
      - apply in_rev. rewrite rev_involutive. exact Hp.
      - rewrite Hname. apply String.eqb_refl. }
    destruct (lastNamed k (getParameters plugin)); [discriminate|contradiction].
  - intros p Hp Hname Hreq. split.
    + cbn [getPluginAsTool function_tool_required]. apply in_map_iff.
      exists p. split; [exact Hname|]. apply filter_In. split; assumption.
    + rewrite readKey_properties. reflexivity.
Qed.

(** X8.  Every own property of a tool schema is well formed: its type is
    never empty; it carries item metadata exactly when its type is "array";
    and item metadata with nested properties has a non-empty type and a list
    of required names each of which, [__proto__] apart, is one of the nested
    properties, while item metadata without nested properties has no list of
    required names. *)
Theorem tool_schema_well_formed :
  forall (plugin : ToolPlugin) (k : string) (s : LlmToolParameterOpenAI),
    readKey (function_tool_properties (getPluginAsTool plugin)) k = Some s ->
    schema_type s <> EmptyString
    /\ (schema_type s = "array" <-> schema_items s <> None)
    /\ (forall i,
           schema_items s = Some i ->
           match schema_items_properties i, schema_items_required i with
           | Some nested, Some required =>
               schema_items_type i <> EmptyString
               /\ forall n,
                    In n required -> n <> "__proto__" -> readKey nested n <> None
           | None, None => True
           | _, _ => False
           end).
Proof.
  intros plugin k s Hs. rewrite readKey_properties in Hs.
  destruct (String.eqb k "__proto__"); [discriminate|].
  destruct (lastNamed k (getParameters plugin)) as [p|]; [|discriminate].
  injection Hs as <-. unfold parameterSchema. cbn [schema_type schema_items].
  split; [|split].
  - unfold schemaTypeOf. apply stringOr_nonempty.
    destruct (param_items p); discriminate.
  - destruct (String.eqb_spec (schemaTypeOf p) "array") as [E|E]; split; intros H;
      try discriminate; try assumption; contradiction.
  - intros i Hi.
    destruct (String.eqb (schemaTypeOf p) "array"); [|discriminate].
    injection Hi as <-. unfold schemaItemsOf.
    destruct (param_items p) as [items|]; [|exact I].
    destruct (items_properties items) as [properties|]; [|exact I].
    cbn [schema_items_properties schema_items_required schema_items_type].
    split; [apply stringOr_nonempty; discriminate|].
    intros n Hn Hproto. apply in_map_iff in Hn. destruct Hn as (prop & Hname & Hprop).
    apply filter_In in Hprop. destruct Hprop as [Hprop _].
    rewrite (readKey_fold_assign item_name
               (fun prop0 => {| nested_type := item_type prop0;
                                nested_description := item_description prop0 |})
               properties [] n).
    destruct (String.eqb_spec n "__proto__") as [E|_]; [contradiction|].
    assert (Hfound : find (fun x => String.eqb (item_name x) n) (rev properties) <> None).
    { apply (find_some_of_member _ (rev properties) prop).
      - apply in_rev. rewrite rev_involutive. exact Hprop.
      - rewrite Hname. apply String.eqb_refl. }
    destruct (find (fun x => String.eqb (item_name x) n) (rev properties));
      [discriminate|contradiction].
Qed.

Lemma tool_schema_well_formed_witness :
  readKey (function_tool_properties (getPluginAsTool Catalog.weather)) "days"
  = Some (parameterSchema Catalog.days)
  /\ schema_type (parameterSchema Catalog.days) = "array"
  /\ schema_type (parameterSchema Catalog.days) <> EmptyString.
Proof.
  assert (H : readKey (function_tool_properties (getPluginAsTool Catalog.weather)) "days"
              = Some (parameterSchema Catalog.days)) by reflexivity.
  split; [exact H|]. split; [reflexivity|].
  exact (proj1 (tool_schema_well_formed Catalog.weather "days" H)).
Defined.

Lemma getAvailableTools_fold (plugins : list ToolPlugin) :
  forall acc,
    fold_left (fun tools plugin => (tools ++ toolsOfPlugin plugin)%list) plugins acc
    = (acc ++ flat_map toolsOfPlugin plugins)%list.
Proof.
  induction plugins as [|p plugins IH]; intros acc; simpl.
  - rewrite app_nil_r. reflexivity.
  - rewrite IH, app_assoc. reflexivity.
Qed.

Lemma getAvailableTools_flat (plugins : list ToolPlugin) :
  getAvailableTools plugins = flat_map toolsOfPlugin plugins.
Proof. unfold getAvailableTools. rewrite getAvailableTools_fold. reflexivity. Qed.

Lemma toolsOfPlugin_skipped (p : ToolPlugin) : offered p = false -> toolsOfPlugin p = [].
Proof.
  unfold offered, toolsOfPlugin.
  destruct (isEnabled p); [|reflexivity].
  destruct (serializeInTools p); [discriminate|reflexivity].
Qed.

Lemma toolsOfPlugin_standard (p : ToolPlugin) :
  offered p = true -> getTools p = None -> toolsOfPlugin p = [getPluginAsTool p].
Proof.
  unfold offered, toolsOfPlugin. intros Ho ->.
  destruct (isEnabled p); [|discriminate].
  destruct (serializeInTools p); [reflexivity|discriminate].
Qed.

Lemma getAvailableTools_offered (plugins : list ToolPlugin) :
  getAvailableTools plugins = getAvailableTools (filter offered plugins).
Proof.
  rewrite !getAvailableTools_flat.
  induction plugins as [|p plugins IH]; simpl; [reflexivity|].
  destruct (offered p) eqn:E; simpl.
  - rewrite IH. reflexivity.
  - rewrite (toolsOfPlugin_skipped p E). exact IH.
Qed.

Lemma getAvailableTools_names (plugins : list ToolPlugin) :
  (forall p, In p plugins -> getTools p = None) ->
  map function_tool_name (getAvailableTools plugins)
  = map (fun p => getName (tool_plugin p)) (filter offered plugins).
Proof.
  rewrite getAvailableTools_flat.
  induction plugins as [|p plugins IH]; intros Hstd; simpl; [reflexivity|].
  assert (IH' := IH (fun q Hq => Hstd q (or_intror Hq))).
  destruct (offered p) eqn:E; simpl.
  - rewrite (toolsOfPlugin_standard p E (Hstd p (or_introl eq_refl))). simpl.
    rewrite IH'. reflexivity.
  - rewrite (toolsOfPlugin_skipped p E). exact IH'.
Qed.

(** X9.  [getAvailableTools] lists the tools of the plugins that are enabled
    and serialized as tools, plugin after plugin in the order of the
    registry: the other plugins leave no trace, the tools of two registries
    put end to end are the tools of the first followed by those of the
    second, and when no plugin supplies tools of its own the names of the
    tools are the names of the plugins kept, in order. *)
Theorem available_tools_in_registry_order :
  forall (plugins more : list ToolPlugin),
    getAvailableTools plugins = flat_map toolsOfPlugin (filter offered plugins)
    /\ getAvailableTools (plugins ++ more)
       = (getAvailableTools plugins ++ getAvailableTools more)%list
    /\ ((forall p, In p plugins -> getTools p = None) ->
        map function_tool_name (getAvailableTools plugins)
        = map (fun p => getName (tool_plugin p)) (filter offered plugins)).
Proof.
  intros plugins more. split; [|split].
  - rewrite getAvailableTools_offered. apply getAvailableTools_flat.
  - rewrite !getAvailableTools_flat. apply flat_map_app.
  - apply getAvailableTools_names.
Qed.

Lemma NoDup_map_filter {A B} (f : A -> B) (g : A -> bool) (l : list A) :
  NoDup (map f l) -> NoDup (map f (filter g l)).
Proof.
  induction l as [|x l IH]; simpl; intros H; [constructor|].
  inversion H as [|y ys Hx Hl]; subst.
  destruct (g x); simpl; [|exact (IH Hl)].
  constructor; [|exact (IH Hl)].
  intros Hin. apply Hx. apply in_map_iff in Hin. destruct Hin as (z & Hz & Hin).
  apply in_map_iff. exists z. split; [exact Hz|].
  apply filter_In in Hin. exact (proj1 Hin).
Qed.

(** X10.  In a registry whose plugins carry pairwise distinct names (as
    [addPlugin] keeps it) and supply no tools of their own, the tools offered
    to the model carry pairwise distinct names. *)
Theorem available_tool_names_distinct :
  forall (plugins : list ToolPlugin),
    NoDup (map (fun p => getName (tool_plugin p)) plugins) ->
    (forall p, In p plugins -> getTools p = None) ->
    NoDup (map function_tool_name (getAvailableTools plugins)).
Proof.
  intros plugins Hnames Hstd.
  rewrite (getAvailableTools_names plugins Hstd).
  apply NoDup_map_filter. exact Hnames.
Qed.

Lemma available_tool_names_distinct_witness :
  NoDup (map (fun p => getName (tool_plugin p)) [Catalog.weather; Catalog.disabled])
  /\ (forall p, In p [Catalog.weather; Catalog.disabled] -> getTools p = None)
  /\ NoDup (map function_tool_name
              (getAvailableTools [Catalog.weather; Catalog.disabled])).
Proof.
  assert (Hnames : NoDup (map (fun p => getName (tool_plugin p))
                            [Catalog.weather; Catalog.disabled])).
  { simpl. constructor.
    - intros [H|[]]. discriminate.
    - constructor; [intros []|constructor]. }
  assert (Hstd : forall p, In p [Catalog.weather; Catalog.disabled] -> getTools p = None).
  { intros p [<-|[<-|[]]]; reflexivity. }
  split; [exact Hnames|]. split; [exact Hstd|].
  exact (available_tool_names_distinct [Catalog.weather; Catalog.disabled] Hnames Hstd).
Defined.

(** X11.  [getToolOpts] of the Ollama provider never sends an empty list of
    tools: it sends tools only when the options do not disable them, the
    model has the tools capability and some plugin of the registry is
    enabled and serialized as a tool, and then it sends all the available
    tools; it sends nothing exactly when tools are disabled, the model lacks
    the capability or no tool is available. *)
Theorem tool_options_never_empty :
  forall (plugins : list ToolPlugin) (model : ChatModel) (optsTools : option bool),
    (forall l,
        getToolOpts plugins model optsTools = Some l ->
        l = getAvailableTools plugins
        /\ l <> []
        /\ optsTools <> Some false
        /\ tools (capabilities model) = true
        /\ exists p, In p plugins /\ isEnabled p = true /\ serializeInTools p = true)
    /\ (getToolOpts plugins model optsTools = None <->
        optsTools = Some false
        \/ tools (capabilities model) = false
        \/ getAvailableTools plugins = []).
Proof.
  intros plugins model optsTools. unfold getToolOpts. split.
  - intros l H.
    destruct optsTools as [[|]|]; simpl in H; try discriminate;
      (destruct (tools (capabilities model)); simpl in H; [|discriminate]);
      (destruct (getAvailableTools plugins) as [|t ts] eqn:E; [discriminate|]);
      injection H as <-;
      (split; [reflexivity|]); (split; [discriminate|]);
      (split; [discriminate|]); (split; [reflexivity|]);
      rewrite getAvailableTools_flat in E;
      (assert (Hin : In t (flat_map toolsOfPlugin plugins))
         by (rewrite E; left; reflexivity));
      apply in_flat_map in Hin; destruct Hin as (p & Hp & Ht);
      exists p; (split; [exact Hp|]);
      unfold toolsOfPlugin in Ht;
      (destruct (isEnabled p); [|destruct Ht]);
      (destruct (serializeInTools p); [|destruct Ht]);
      split; reflexivity.
  - destruct optsTools as [[|]|]; simpl;
      destruct (tools (capabilities model)); simpl;
      destruct (getAvailableTools plugins) as [|t ts]; split; intros H;
      try reflexivity; try discriminate;
      try (right; right; reflexivity); try (right; left; reflexivity);
      try (left; reflexivity);
      destruct H as [H|[H|H]]; discriminate.
Qed.

(* ===================================================================== *)
(** * 19. Running a tool: failures and progressive executions *)
(* ===================================================================== *)

Section RunToolFacts.

Local Open Scope list_scope.

Variable World : Type.
Variable logCall : CallEvent -> World -> World.
Variable plugins : list Plugin.
Variable signal : nat -> bool.

(** [callTool] once the owner is resolved, the signal is found clear and
    validation, if any, allows the call. *)
Lemma callTool_allowed (context : PluginExecutionContext) (tool : string) (args : Json)
  (validate : option LlmToolExecutionValidationCallback) (w : World) (clock : nat)
  (p : Plugin) (payload : Json) :
  resolveToolOwner plugins tool args = Some (p, payload) ->
  signal clock = false ->
  allows validate context tool args = true ->
  collect signal clock (callTool logCall plugins context tool args validate w)
  = collect signal (S clock)
      (runTool logCall context p payload (validationOf validate context tool args)
         (afterValidation logCall validate tool args w)).
Proof.
  intros Hres Hsig Hallow.
  rewrite (callTool_resolved logCall plugins signal context tool args validate w
             clock Hres), Hsig.
  unfold allows in Hallow. unfold validationOf, afterValidation.
  destruct validate as [f|]; [rewrite Hallow|]; reflexivity.
Qed.

(** The loop over the updates of a progressive execution that yields the
    updates [l], when the signal stays clear. *)
Lemma forwardUpdates_all (v : option LlmToolExecutionValidationResponse)
  (l : list PluginExecutionUpdate) :
  forall (s : World) (clock : nat),
    (forall i, i < length l -> signal (clock + i) = false) ->
    collect signal clock
      (bind (forAwait (liftGen (updates l) s) (forwardUpdate (World := World) v) tt)
         (fun _ s' => Ret tt s'))
    = {| yielded := l; ending := Returned tt s; reads := clock + length l |}.
Proof.
  induction l as [|u l IH]; intros s clock Hclear; simpl.
  - rewrite Nat.add_0_r. reflexivity.
  - assert (H0 : signal clock = false).
    { rewrite <- (Nat.add_0_r clock). apply Hclear. simpl. lia. }
    rewrite H0. simpl. rewrite IH.
    + simpl. f_equal. lia.
    + intros i Hi. replace (S clock + i) with (clock + S i) by lia.
      apply Hclear. simpl. lia.
Qed.

(** The same loop when the signal is found set before the update of index
    [k] is forwarded. *)
Lemma forwardUpdates_cancelled (v : option LlmToolExecutionValidationResponse)
  (l : list PluginExecutionUpdate) :
  forall (k : nat) (s : World) (clock : nat),
    k < length l ->
    (forall i, i < k -> signal (clock + i) = false) ->
    signal (clock + k) = true ->
    collect signal clock
      (bind (forAwait (liftGen (updates l) s) (forwardUpdate (World := World) v) tt)
         (fun _ s' => Ret tt s'))
    = {| yielded := firstn k l ++ [canceledUpdate v];
         ending := Returned tt s;
         reads := clock + S k |}.
Proof.
  induction l as [|u l IH]; intros k s clock Hk Hclear Hset; simpl in Hk; [lia|].
  destruct k as [|k].
  - rewrite Nat.add_0_r in Hset. simpl. rewrite Hset. simpl.
    f_equal. lia.
  - assert (H0 : signal clock = false).
    { rewrite <- (Nat.add_0_r clock). apply Hclear. lia. }
    simpl. rewrite H0. simpl. rewrite (IH k s (S clock)).
    + simpl. f_equal. lia.
    + lia.
    + intros i Hi. replace (S clock + i) with (clock + S i) by lia.
      apply Hclear. lia.
    + replace (S clock + k) with (clock + S k) by lia. exact Hset.
Qed.

(** In a run where the signal stays clear, what a generator yields and how
    it ends do not depend on the number of reads made before. *)
Lemma collect_quiet {Y St R} (g : Gen Y St R) :
  (forall n, signal n = false) ->
  forall clock clock',
    yielded (collect signal clock g) = yielded (collect signal clock' g)
    /\ ending (collect signal clock g) = ending (collect signal clock' g).
Proof.
  intros quiet. induction g as [r s|e s|y s k IH|k IH]; intros clock clock'; simpl.
  - split; reflexivity.
  - split; reflexivity.
  - destruct (IH s clock clock') as [E1 E2]. rewrite E1, E2. split; reflexivity.
  - rewrite !quiet. apply IH.
Qed.

Lemma forwardUpdates_quiet (v : option LlmToolExecutionValidationResponse)
  (g : Gen PluginExecutionUpdate unit unit) :
  (forall n, signal n = false) ->
  forall (s : World) (clock clock' : nat),
    yielded
      (collect signal clock
         (bind (forAwait (liftGen g s) (forwardUpdate (World := World) v) tt)
            (fun _ s' => Ret tt s')))
    = yielded (collect signal clock' g)
    /\ ending
         (collect signal clock
            (bind (forAwait (liftGen g s) (forwardUpdate (World := World) v) tt)
               (fun _ s' => Ret tt s')))
       = endingBeside (ending (collect signal clock' g)) s.
Proof.
  intros quiet. induction g as [r u|e u|y u k IH|k IH]; intros s clock clock'; simpl.
  - split; reflexivity.
  - split; reflexivity.
  - rewrite quiet. simpl. destruct u.
    destruct (IH tt s (S clock) clock') as [E1 E2]. rewrite E1, E2.
    split; reflexivity.
  - rewrite !quiet. apply IH.
Qed.

End RunToolFacts.

(** X12.  A single-shot plugin that rejects.  Once the tool is resolved, the
    signal found clear at entry and the call allowed, [callTool] reads the
    signal once more: when it is set, or when the rejection is an [Error]
    whose message is "Operation cancelled", it yields one terminal update,
    marked canceled and carrying the validation answer, and returns;
    otherwise it yields nothing and throws the plugin's rejection as it is.
    Either way the plugin has been called once. *)
Theorem single_shot_failure_classified :
  forall (World : Type) (logCall : CallEvent -> World -> World) (plugins : list Plugin)
         (context : PluginExecutionContext) (tool : string) (args : Json)
         (validate : option LlmToolExecutionValidationCallback) (w : World)
         (signal : nat -> bool) (clock : nat)
         (p : Plugin) (payload : Json)
         (execute : PluginExecutionContext -> Json -> Json + Thrown) (error : Thrown),
    resolveToolOwner plugins tool args = Some (p, payload) ->
    signal clock = false ->
    allows validate context tool args = true ->
    execution p = Execute execute ->
    execute context payload = inr error ->
    let w' := logCall (CalledExecute (getName p) payload)
                (afterValidation logCall validate tool args w) in
    collect signal clock (callTool logCall plugins context tool args validate w)
    = if signal (S clock) || isCancellationError error
      then {| yielded := [canceledUpdate (validationOf validate context tool args)];
              ending := Returned tt w';
              reads := S (S clock) |}
      else {| yielded := []; ending := Threw error w'; reads := S (S clock) |}.
Proof.
  intros World logCall plugins context tool args validate w signal clock p payload
         execute error Hres Hsig Hallow Hexec Hrun w'.
  rewrite (@callTool_allowed World logCall plugins signal context tool args validate
             w clock p payload Hres Hsig Hallow).
  unfold runTool. rewrite Hexec. unfold bindM, modify, aborted. simpl.
  rewrite Hrun. simpl.
  destruct (signal (S clock) || isCancellationError error); reflexivity.
Qed.

Lemma single_shot_failure_classified_witness :
  collect Scenario.never 0
    (callTool (fun e l => (l ++ [e])%list) [Catalog.failing (ThrowError "disk full")]
       {| context_model := "llama3.2" |} "fail" JNull None [])
  = {| yielded := [];
       ending := Threw (ThrowError "disk full") [CalledExecute "fail" JNull];
       reads := 2 |}
  /\ collect Scenario.never 0
       (callTool (fun e l => (l ++ [e])%list)
          [Catalog.failing (ThrowError "Operation cancelled")]
          {| context_model := "llama3.2" |} "fail" JNull None [])
     = {| yielded := [canceledUpdate None];
          ending := Returned tt [CalledExecute "fail" JNull];
          reads := 2 |}.
Proof.
  split.
  - exact (single_shot_failure_classified (fun e l => (l ++ [e])%list)
             [Catalog.failing (ThrowError "disk full")]
             {| context_model := "llama3.2" |} "fail" JNull None []
             Scenario.never 0 (p := Catalog.failing (ThrowError "disk full"))
             eq_refl eq_refl eq_refl eq_refl eq_refl).
  - exact (single_shot_failure_classified (fun e l => (l ++ [e])%list)
             [Catalog.failing (ThrowError "Operation cancelled")]
             {| context_model := "llama3.2" |} "fail" JNull None []
             Scenario.never 0 (p := Catalog.failing (ThrowError "Operation cancelled"))
             eq_refl eq_refl eq_refl eq_refl eq_refl).
Defined.

(** X13.  A progressive plugin that yields the updates [l] and returns.
    Once the tool is resolved, the signal found clear at entry and the call
    allowed, [callTool] reads the signal before forwarding each update.  When
    every read finds it clear, the updates are forwarded as they are, in
    order, and nothing else.  When the read before the update of index [k]
    is the first to find it set, the [k] updates before are forwarded,
    followed by one terminal update marked canceled that carries the
    validation answer; the update of index [k] and the later ones are never
    forwarded.  Either way [callTool] returns without throwing. *)
Theorem progressive_updates_until_cancelled :
  forall (World : Type) (logCall : CallEvent -> World -> World) (plugins : list Plugin)
         (context : PluginExecutionContext) (tool : string) (args : Json)
         (validate : option LlmToolExecutionValidationCallback) (w : World)
         (signal : nat -> bool) (clock : nat)
         (p : Plugin) (payload : Json)
         (executeWithUpdates :
            PluginExecutionContext -> Json -> Gen PluginExecutionUpdate unit unit)
         (l : list PluginExecutionUpdate),
    resolveToolOwner plugins tool args = Some (p, payload) ->
    signal clock = false ->
    allows validate context tool args = true ->
    execution p = ExecuteWithUpdates executeWithUpdates ->
    executeWithUpdates context payload = updates l ->
    let w' := logCall (CalledExecuteWithUpdates (getName p) payload)
                (afterValidation logCall validate tool args w) in
    ((forall i, i < length l -> signal (S clock + i) = false) ->
     collect signal clock (callTool logCall plugins context tool args validate w)
     = {| yielded := l; ending := Returned tt w'; reads := S clock + length l |})
    /\ (forall k,
           k < length l ->
           (forall i, i < k -> signal (S clock + i) = false) ->
           signal (S clock + k) = true ->
           collect signal clock (callTool logCall plugins context tool args validate w)
           = {| yielded :=
                  (firstn k l
                   ++ [canceledUpdate (validationOf validate context tool args)])%list;
                ending := Returned tt w';
                reads := S clock + S k |}).
Proof.
  intros World logCall plugins context tool args validate w signal clock p payload
         executeWithUpdates l Hres Hsig Hallow Hexec Hrun w'.
  rewrite (@callTool_allowed World logCall plugins signal context tool args validate
             w clock p payload Hres Hsig Hallow).
  unfold runTool. rewrite Hexec. unfold bindM, modify, ret. simpl. rewrite Hrun.
  split.
  - intros Hclear. apply forwardUpdates_all. exact Hclear.
  - intros k Hk Hclear Hset. apply forwardUpdates_cancelled; assumption.
Qed.

Lemma progressive_updates_until_cancelled_witness :
  collect (fun n => Nat.eqb n 2) 0
    (callTool (fun e l => (l ++ [e])%list) [Catalog.crawler]
       {| context_model := "llama3.2" |} "crawl" JNull None [])
  = {| yielded := [UpdateStatus "fetching"; canceledUpdate None];
       ending := Returned tt [CalledExecuteWithUpdates "crawl" JNull];
       reads := 3 |}.
Proof.
  refine (proj2 (@progressive_updates_until_cancelled (list CallEvent)
                   (fun e l => (l ++ [e])%list)
                   [Catalog.crawler] {| context_model := "llama3.2" |} "crawl" JNull
                   None [] (fun n => Nat.eqb n 2) 0 Catalog.crawler JNull
                   (fun _ _ => updates Catalog.crawlUpdates) Catalog.crawlUpdates
                   eq_refl eq_refl eq_refl eq_refl eq_refl) 1 _ _ eq_refl).
  - simpl. lia.
  - intros i Hi. assert (i = 0) by lia. subst i. reflexivity.
Defined.

(** X14.  A progressive plugin, whatever it does, in a run without
    cancellation: once the tool is resolved and the call allowed, [callTool]
    yields exactly what the plugin's execution yields, in order, and ends as
    it ends: it returns when the execution returns and throws the same
    value when the execution throws, the updates yielded before having been
    forwarded. *)
Theorem progressive_execution_passes_through :
  forall (World : Type) (logCall : CallEvent -> World -> World) (plugins : list Plugin)
         (context : PluginExecutionContext) (tool : string) (args : Json)
         (validate : option LlmToolExecutionValidationCallback) (w : World)
         (signal : nat -> bool) (clock : nat)
         (p : Plugin) (payload : Json)
         (executeWithUpdates :
            PluginExecutionContext -> Json -> Gen PluginExecutionUpdate unit unit),
    (forall n, signal n = false) ->
    resolveToolOwner plugins tool args = Some (p, payload) ->
    allows validate context tool args = true ->
    execution p = ExecuteWithUpdates executeWithUpdates ->
    let run := collect signal 0 (executeWithUpdates context payload) in
    let out := collect signal clock
                 (callTool logCall plugins context tool args validate w) in
    yielded out = yielded run
    /\ ending out
       = endingBeside (ending run)
           (logCall (CalledExecuteWithUpdates (getName p) payload)
              (afterValidation logCall validate tool args w)).
Proof.
  intros World logCall plugins context tool args validate w signal clock p payload
         executeWithUpdates quiet Hres Hallow Hexec run out.
  unfold out, run.
  rewrite (@callTool_allowed World logCall plugins signal context tool args validate
             w clock p payload Hres (quiet clock) Hallow).
  unfold runTool. rewrite Hexec. unfold bindM, modify, ret. simpl.
  apply forwardUpdates_quiet. exact quiet.
Qed.

Lemma progressive_execution_passes_through_witness :
  yielded
    (collect Scenario.never 0
       (callTool (fun e l => (l ++ [e])%list) [Catalog.crawler]
          {| context_model := "llama3.2" |} "crawl" JNull None []))
  = Catalog.crawlUpdates.
Proof.
  exact (proj1 (@progressive_execution_passes_through (list CallEvent)
                  (fun e l => (l ++ [e])%list)
                  [Catalog.crawler] {| context_model := "llama3.2" |} "crawl" JNull
                  None [] Scenario.never 0 Catalog.crawler JNull
                  (fun _ _ => updates Catalog.crawlUpdates)
                  (fun n => eq_refl) eq_refl eq_refl eq_refl)).
Defined.

(* ===================================================================== *)
(** * 20. What [generate] forwards *)
(* ===================================================================== *)

Section ForwardFacts.

Local Open Scope list_scope.

Variables Native World : Type.
Variable normalizer : Native -> World -> Gen (LlmChunk Native) World unit.
Variable signal : nat -> bool.

Lemma clearStaleDone_switch (n : option (LlmStream Native)) (msg : LlmChunk Native) :
  isSwitch (clearStaleDone n msg) = isSwitch msg.
Proof.
  destruct n as [s|], msg as [a|ty text d|s'|id name st status call d|u|id|raw];
    try reflexivity; destruct ty, d; reflexivity.
Qed.

Lemma clearStaleDone_none (msg : LlmChunk Native) : clearStaleDone None msg = msg.
Proof. destruct msg; reflexivity. Qed.

Variable ok : LlmChunk Native -> Prop.
Variable fails : Thrown -> Prop.

Lemma drainChunk_emits (currentStream : LlmStream Native)
  (g : Gen (LlmChunk Native) World unit) :
  Emits ok fails g ->
  forall nextStream clock,
    Forall (fromNormalizer ok fails)
      (forwarded (fst (drainChunk signal currentStream g nextStream clock)))
    /\ failsWith Native fails
         (snd (drainChunk signal currentStream g nextStream clock)).
Proof.
  intros Hg. induction Hg as [r s|e s He|msg s k Hmsg Hk IH|k Hk IH];
    intros nextStream clock; cbn [drainChunk].
  - split; [constructor|exact I].
  - destruct (caughtToolAbort e) as [msg|rethrown] eqn:E; simpl.
    + split; [|exact I]. constructor; [|constructor].
      right. exists e. split; [exact He|exact E].
    + split; [constructor|]. exists e. split; [exact He|exact E].
  - cbv zeta. assert (Hout : Forall (fromNormalizer ok fails)
                     (forwarded
                        match msg with
                        | ChunkStream _ => []
                        | _ => [Forwarded (clearStaleDone nextStream msg)]
                        end)).
    { assert (Hone : isSwitch msg = false ->
                     Forall (fromNormalizer ok fails)
                       (forwarded [Forwarded (clearStaleDone nextStream msg)])).
      { intros Hsw. simpl. constructor; [|constructor]. left.
        split; [rewrite clearStaleDone_switch; exact Hsw|].
        exists msg, nextStream. split; [exact Hmsg|reflexivity]. }
      destruct msg; try (apply Hone; reflexivity). constructor. }
    destruct (signal clock); simpl.
    + split; [|exact I]. rewrite forwarded_app, forwarded_abortTransport, app_nil_r.
      exact Hout.
    + destruct (IH s
                  match msg with
                  | ChunkStream s0 => Some s0
                  | _ => nextStream
                  end (S clock)) as [H1 H2].
      split; [|exact H2]. rewrite forwarded_app. apply Forall_app.
      split; [exact Hout|exact H1].
  - apply IH.
Qed.

Lemma drainStream_emits (currentStream : LlmStream Native) (rest : list Native) :
  (forall chunk w, In chunk rest -> Emits ok fails (normalizer chunk w)) ->
  forall nextStream w clock,
    Forall (fromNormalizer ok fails)
      (forwarded (fst (drainStream normalizer signal currentStream rest nextStream
                         w clock)))
    /\ failsWith Native fails
         (snd (drainStream normalizer signal currentStream rest nextStream w clock)).
Proof.
  induction rest as [|chunk rest IH]; intros Hrest nextStream w clock; simpl.
  - split; [constructor|exact I].
  - destruct (signal clock); simpl.
    + split; [|exact I]. rewrite forwarded_abortTransport. constructor.
    + destruct (drainChunk_emits currentStream
                  (Hrest chunk w (or_introl eq_refl)) nextStream (S clock))
        as [H1 H2].
      unfold andThen.
      destruct (drainChunk signal currentStream (normalizer chunk w) nextStream
                  (S clock)) as [evs [[n w'] c'|o w']]; simpl in *.
      * destruct (IH (fun c x Hc => Hrest c x (or_intror Hc)) n w' c') as [H3 H4].
        split; [|exact H4]. rewrite forwarded_app. apply Forall_app.
        split; [exact H1|exact H3].
      * split; [exact H1|exact H2].
Qed.

Lemma streamLoop_emits (fuel : nat) :
  (forall chunk w, Emits ok fails (normalizer chunk w)) ->
  forall currentStream w clock,
    let g := streamLoop normalizer signal fuel currentStream w clock in
    Forall (fromNormalizer ok fails) (forwarded (events g))
    /\ forall rethrown,
         outcome g = Failed rethrown ->
         exists e, fails e /\ caughtToolAbort (Native := Native) e = inr rethrown.
Proof.
  intros Hall. induction fuel as [|fuel IH]; intros currentStream w clock;
    cbn [streamLoop].
  - simpl. split; [constructor|discriminate].
  - destruct (drainStream_emits currentStream (chunks currentStream)
                (fun c x _ => Hall c x) None w clock) as [H1 H2].
    destruct (drainStream normalizer signal currentStream (chunks currentStream)
                None w clock) as [evs [[n w'] c'|o w']]; simpl in *.
    + destruct n as [s|]; simpl.
      * destruct (IH s w' c') as [H3 H4]. split; [|exact H4].
        rewrite forwarded_app. apply Forall_app. split; [exact H1|exact H3].
      * split; [exact H1|discriminate].
    + split; [exact H1|]. intros e He. subst o. exact H2.
Qed.

(** When the chunks still to come are normalized without a switch
    directive, a round that starts with no switch pending ends with none. *)
Lemma drainChunk_no_switch (currentStream : LlmStream Native)
  (g : Gen (LlmChunk Native) World unit) :
  Emits (fun msg => isSwitch msg = false) (fun _ => True) g ->
  forall clock n w' c',
    snd (drainChunk signal currentStream g None clock) = Continues (n, w') c' ->
    n = None.
Proof.
  intros Hg. induction Hg as [r s|e s He|msg s k Hmsg Hk IH|k Hk IH];
    intros clock n w' c'; simpl.
  - intros H. injection H as <- _ _. reflexivity.
  - destruct (caughtToolAbort e); simpl; intros H; [|discriminate].
    injection H as <- _ _. reflexivity.
  - destruct (signal clock); simpl; [discriminate|].
    destruct msg; try discriminate; apply IH.
  - apply IH.
Qed.

Lemma drainStream_no_switch (currentStream : LlmStream Native) (rest : list Native) :
  (forall chunk w, In chunk rest ->
                   Emits (fun msg => isSwitch msg = false) (fun _ => True)
                     (normalizer chunk w)) ->
  forall w clock n w' c',
    snd (drainStream normalizer signal currentStream rest None w clock)
    = Continues (n, w') c' ->
    n = None.
Proof.
  induction rest as [|chunk rest IH]; intros Hrest w clock n w' c'; simpl.
  - intros H. injection H as <- _ _. reflexivity.
  - destruct (signal clock); simpl; [discriminate|].
    pose proof (drainChunk_no_switch currentStream
                  (Hrest chunk w (or_introl eq_refl)) (S clock)) as Hc.
    unfold andThen.
    destruct (drainChunk signal currentStream (normalizer chunk w) None (S clock))
      as [evs [[n0 w0] c0|o w0]]; simpl in *; [|discriminate].
    rewrite (Hc n0 w0 c0 eq_refl).
    apply IH. intros c x Hin. apply Hrest. right. exact Hin.
Qed.

Lemma streamLoop_single_round (fuel : nat) (currentStream : LlmStream Native)
  (w : World) (clock : nat) :
  (forall chunk x, In chunk (chunks currentStream) ->
                   Emits (fun msg => isSwitch msg = false) (fun _ => True)
                     (normalizer chunk x)) ->
  streamLoop normalizer signal (S fuel) currentStream w clock
  = streamLoop normalizer signal 1 currentStream w clock
  /\ outcome (streamLoop normalizer signal (S fuel) currentStream w clock) <> OutOfFuel.
Proof.
  intros Hrest. cbn [streamLoop].
  pose proof (drainStream_no_switch currentStream (chunks currentStream) Hrest w clock)
    as Hn.
  pose proof (@drainStream_stops Native World normalizer signal currentStream
                (chunks currentStream) None w clock) as Hs.
  destruct (drainStream normalizer signal currentStream (chunks currentStream) None
              w clock) as [evs [[n w'] c'|o w']]; simpl in *.
  - rewrite (Hn n w' c' eq_refl). simpl. split; [reflexivity|discriminate].
  - split; [reflexivity|].
    destruct (Hs o w' eq_refl) as [->|(e & -> & _)]; discriminate.
Qed.

End ForwardFacts.

(** X15.  What [generate] never does: it never forwards a switch directive
    to its caller, and it never fails with a tool abort (a tool abort the
    normalizer throws is forwarded as a chunk instead). *)
Theorem generate_swallows_control :
  forall (Native World : Type)
         (normalizer : Native -> World -> Gen (LlmChunk Native) World unit)
         (signal : nat -> bool) (fuel : nat)
         (response : LlmStreamingResponse Native World),
    let g := generate normalizer signal fuel response in
    Forall (fun msg => isSwitch msg = false) (forwarded (events g))
    /\ forall a, outcome g <> Failed (ThrowToolAbort a).
Proof.
  intros Native World normalizer signal fuel response g.
  assert (Hall : forall chunk w,
             Emits (fun _ : LlmChunk Native => True) (fun _ => True) (normalizer chunk w)).
  { intros chunk w. induction (normalizer chunk w) as [r s|e s|y s k IH|k IH];
      constructor; auto. }
  destruct (@streamLoop_emits Native World normalizer signal _ _ fuel Hall
              (stream response) (context response) 0)
    as [H1 H2].
  split.
  - unfold g, generate. eapply Forall_impl; [|exact H1].
    intros msg [[Hsw _]|(e & _ & He)]; [exact Hsw|].
    pose proof (@caughtToolAbort_cases Native e) as Hc. rewrite He in Hc.
    destruct Hc as [(a & _ & ->)|(v & _ & -> & _)]; reflexivity.
  - intros a Hfail. destruct (H2 _ Hfail) as (e & _ & He).
    pose proof (@caughtToolAbort_cases Native e) as Hc. rewrite He in Hc.
    exact (proj1 Hc a eq_refl).
Qed.



(** X17.  A stream that is normalized without a switch directive is the
    last one: [generate] drains it and ends, finished, cancelled or failed;
    no further round is started, so that the run does not depend on the
    bound put on the number of streams. *)
Theorem generation_ends_without_switch :
  forall (Native World : Type)
         (normalizer : Native -> World -> Gen (LlmChunk Native) World unit)
         (signal : nat -> bool) (fuel : nat)
         (response : LlmStreamingResponse Native World),
    (forall chunk w,
        In chunk (chunks (stream response)) ->
        Emits (fun msg => isSwitch msg = false) (fun _ => True) (normalizer chunk w)) ->
    generate normalizer signal (S fuel) response = generate normalizer signal 1 response
    /\ outcome (generate normalizer signal (S fuel) response) <> OutOfFuel.
Proof.
  intros Native World normalizer signal fuel response Hrest.
  unfold generate. apply streamLoop_single_round. exact Hrest.
Qed.

Lemma generation_ends_without_switch_witness :
  outcome (generate Scenario.toyNormalizer Scenario.never 8
             {| stream := Scenario.bareStream; context := tt |})
  <> OutOfFuel.
Proof.
  refine (proj2 (@generation_ends_without_switch nat unit Scenario.toyNormalizer
                   Scenario.never 7
                   {| stream := Scenario.bareStream; context := tt |} _)).
  intros chunk w Hin. simpl in Hin.
  destruct Hin as [<-|[<-|[]]]; simpl; repeat (constructor; intros); reflexivity.
Defined.

(* ===================================================================== *)
(** * 21. What an Ollama generation leaves of its context *)
(* ===================================================================== *)

Section OllamaInvariant.

Variable plugins : list Plugin.
Variable chat : OllamaStreamingContext -> LlmStream ChatResponse.

(** A property of the context that each update the normalizer makes keeps:
    logging a call, recording a tool call, pushing the two thread entries of
    a completed call, switching the thinking mode, counting usage, and
    preparing the next stream. *)
Variable P : OllamaWorld -> Prop.
Hypothesis Plog : forall e w, P w -> P (logCall e w).
Hypothesis Pcall : forall c w, P w -> P (onContext (pushToolCall c) w).
Hypothesis Pround :
  forall m r w,
    P w ->
    P (onContext (pushThread (ThreadToolResult r))
         (onContext (pushThread (ThreadAssistant m)) w)).
Hypothesis Pthink : forall b w, P w -> P (onContext (setThinking b) w).
Hypothesis Pusage : forall chunk w, P w -> P (onContext (addUsage chunk) w).
Hypothesis Pnext :
  forall w, P w -> P (onContext resetForStream (onContext clearForcedToolChoice w)).

Lemma invariant_processToolCall (chunk : ChatResponse) (t : OllamaToolCall)
  (w : OllamaWorld) :
  P w -> Keeps P (processToolCall plugins chunk t w).
Proof.
  intros Hw. unfold processToolCall, bindM. cbn [bind gets modify].
  apply Keeps_bind; [apply Keeps_yield; apply Pcall; exact Hw|].
  intros _ s1 Hs1. unfold tryCatch. apply Keeps_catch.
  - apply Keeps_bind; [apply Keeps_yield; exact Hs1|].
    intros _ s2 Hs2. cbn [bind gets].
    apply Keeps_bind.
    + apply Keeps_forAwait.
      * apply Keeps_callTool; [exact Plog|exact Hs2].
      * intros y a s Hs. unfold onUpdate. destruct y as [status|r].
        -- unfold bindM. apply Keeps_bind; [apply Keeps_yield; exact Hs|].
           intros _ s' Hs'. constructor. exact Hs'.
        -- constructor. exact Hs.
    + intros c s3 Hs3.
      apply Keeps_bind.
      * unfold liftResult.
        match goal with
        | |- context [processToolExecutionResult ?a ?b ?c ?d] =>
            destruct (processToolExecutionResult a b c d)
        end; constructor; exact Hs3.
      * intros o s4 Hs4.
        apply Keeps_bind; [apply Keeps_yield; exact Hs4|].
        intros _ s5 Hs5. cbn [bind modify].
        apply Keeps_bind; [apply Keeps_aborted; apply Pround; exact Hs5|].
        intros b s6 Hs6. destruct b; constructor; exact Hs6.
  - intros e s Hs. unfold bindM.
    apply Keeps_bind; [apply Keeps_aborted; exact Hs|].
    intros b s' Hs'. destruct b.
    + apply Keeps_bind; [apply Keeps_yield; exact Hs'|].
      intros _ s'' Hs''. constructor. exact Hs''.
    + constructor. exact Hs'.
Qed.

Lemma invariant_textChunk (chunk : ChatResponse) (w : OllamaWorld) :
  P w -> Keeps P (textChunk chunk w).
Proof.
  intros Hw. unfold textChunk.
  destruct (String.eqb (message_content (message chunk)) "<think>");
    [constructor; apply Pthink; exact Hw|].
  destruct (String.eqb (message_content (message chunk)) "</think>");
    [constructor; apply Pthink; exact Hw|].
  unfold bindM. apply Keeps_bind.
  - destruct (message_thinking (message chunk)) as [th|]; [|constructor; exact Hw].
    destruct (nonEmpty th); [apply Keeps_yield|constructor]; exact Hw.
  - intros _ s1 Hs1. apply Keeps_bind.
    + destruct (nonEmpty (message_content (message chunk)) || done chunk).
      * unfold gets. simpl. apply Keeps_yield. exact Hs1.
      * constructor. exact Hs1.
    + intros _ s2 Hs2. unfold gets. simpl.
      destruct (opts_usage (opts (ollama_context s2)) && done chunk);
        [apply Keeps_yield|constructor]; exact Hs2.
Qed.

Lemma invariant_nativeChunkToLlmChunk (chunk : ChatResponse) (w : OllamaWorld) :
  P w -> Keeps P (nativeChunkToLlmChunk plugins chat chunk w).
Proof.
  intros Hw. unfold nativeChunkToLlmChunk, bindM. apply Keeps_bind.
  - destruct (done chunk && (nonZero (eval_count chunk) || nonZero (prompt_eval_count chunk)));
      constructor; [apply Pusage|]; exact Hw.
  - intros _ s1 Hs1.
    destruct (tool_calls (message chunk)) as [[|first others]|];
      try (apply invariant_textChunk; exact Hs1).
    apply Keeps_bind.
    + apply Keeps_forOf; [|exact Hs1].
      intros x s Hs. apply invariant_processToolCall. exact Hs.
    + intros c s2 Hs2. destruct c as [u|r]; [|constructor; exact Hs2].
      unfold doStream, bindM, modify, gets, ret. simpl.
      apply Keeps_yield. apply Pnext. exact Hs2.
Qed.


End OllamaInvariant.

Lemma clearForcedToolChoice_settings (x : OllamaStreamingContext) :
  ctx_model (clearForcedToolChoice x) = ctx_model x
  /\ toolExecutionValidation (opts (clearForcedToolChoice x))
     = toolExecutionValidation (opts x)
  /\ visionFallbackModel (opts (clearForcedToolChoice x)) = visionFallbackModel (opts x)
  /\ opts_usage (opts (clearForcedToolChoice x)) = opts_usage (opts x)
  /\ (toolChoice (opts (clearForcedToolChoice x)) = toolChoice (opts x)
      \/ toolChoice (opts (clearForcedToolChoice x)) = None)
  /\ thread (clearForcedToolChoice x) = thread x.
Proof.
  unfold clearForcedToolChoice.
  destruct (toolChoice (opts x)) as [[| | |name]|] eqn:E; cbn;
    repeat (split; [reflexivity|]); try (split; [|reflexivity]);
    try (left; reflexivity); try (left; exact E); right; reflexivity.
Qed.


Lemma roundEntries_app (l1 l2 : list (OllamaMessage * Json)) :
  roundEntries (l1 ++ l2) = (roundEntries l1 ++ roundEntries l2)%list.
Proof. unfold roundEntries. apply flat_map_app. Qed.

Section TracksFacts.

Variables Y St G : Type.
Variable obs : G -> Y -> G.
Variable I : G -> St -> Prop.

Lemma Tracks_bind {A B} (Q1 : G -> A -> St -> Prop) (Q : G -> B -> St -> Prop)
  (E : G -> Thrown -> St -> Prop) (seen : G) (g : Gen Y St A)
  (f : A -> St -> Gen Y St B) :
  Tracks obs I Q1 E seen g ->
  (forall seen' a s, Q1 seen' a s -> Tracks obs I Q E seen' (f a s)) ->
  Tracks obs I Q E seen (bind g f).
Proof.
  intros Hg Hf. induction Hg as [seen r s Hs|seen e s Hs|seen y s k Hs Hk IH|seen k Hk IH];
    simpl.
  - apply Hf. exact Hs.
  - constructor. exact Hs.
  - constructor; [exact Hs|exact IH].
  - constructor. intros b. apply IH.
Qed.

Lemma Tracks_catch {A} (Q : G -> A -> St -> Prop) (E1 E : G -> Thrown -> St -> Prop)
  (seen : G) (g : Gen Y St A) (h : Thrown -> St -> Gen Y St A) :
  Tracks obs I Q E1 seen g ->
  (forall seen' e s, E1 seen' e s -> Tracks obs I Q E seen' (h e s)) ->
  Tracks obs I Q E seen (catch g h).
Proof.
  intros Hg Hh. induction Hg as [seen r s Hs|seen e s Hs|seen y s k Hs Hk IH|seen k Hk IH];
    simpl.
  - constructor. exact Hs.
  - apply Hh. exact Hs.
  - constructor; [exact Hs|exact IH].
  - constructor. intros b. apply IH.
Qed.

Lemma Tracks_forOf {X R} (body : X -> St -> Gen Y St (Ctl unit R)) (l : list X) :
  (forall x seen s,
      I seen s ->
      Tracks obs I (related I) (related I) seen (body x s)) ->
  forall seen s,
    I seen s ->
    Tracks obs I (related I) (related I) seen (forOf l body s).
Proof.
  intros Hbody. induction l as [|x l IH]; intros seen s Hs; simpl.
  - constructor. exact Hs.
  - eapply Tracks_bind; [apply Hbody; exact Hs|].
    intros seen' c s' Hs'. destruct c; [apply IH|constructor]; exact Hs'.
Qed.

(** A loop over a generator that keeps a property of the state, by a body
    whose yields leave what is remembered as it is. *)
Lemma Tracks_forAwait {Y1 A R} (P : St -> Prop) (seen : G) (g : Gen Y1 St unit)
  (body : Y1 -> A -> St -> Gen Y St (Ctl A R)) :
  Keeps P g ->
  (forall y a s,
      P s ->
      Tracks obs I (fun seen' _ s' => seen' = seen /\ P s')
        (fun seen' _ s' => seen' = seen /\ P s') seen (body y a s)) ->
  forall acc,
    Tracks obs I (fun seen' _ s' => seen' = seen /\ P s')
      (fun seen' _ s' => seen' = seen /\ P s') seen (forAwait g body acc).
Proof.
  intros Hg Hbody. induction Hg as [r s Hs|e s Hs|y s k Hs Hk IH|k Hk IH];
    intros acc; simpl.
  - constructor. split; [reflexivity|exact Hs].
  - constructor. split; [reflexivity|exact Hs].
  - eapply Tracks_bind; [apply Hbody; exact Hs|].
    intros seen' c s' [-> Hs']. destruct c; [apply IH; exact Hs'|].
    constructor. split; [reflexivity|exact Hs'].
  - constructor. intros b. apply IH.
Qed.

Lemma fold_left_snoc (l : list Y) (y : Y) (seen : G) :
  fold_left obs (l ++ [y]) seen = obs (fold_left obs l seen) y.
Proof. rewrite fold_left_app. reflexivity. Qed.

End TracksFacts.

Lemma withResult_fold {Native} (msgs : list (LlmChunk Native)) (results : list Json) :
  fold_left withResult msgs results = (results ++ finalResults msgs)%list.
Proof.
  unfold finalResults. revert results.
  induction msgs as [|msg msgs IH] using rev_ind; intros results.
  - simpl. rewrite app_nil_r. reflexivity.
  - rewrite !fold_left_app. simpl. unfold withResult at 1 3.
    destruct (finalResult msg) as [r|]; rewrite IH; [|reflexivity].
    rewrite app_assoc. reflexivity.
Qed.

Lemma processToolExecutionResult_defined (providerId toolName : string) (params : Json)
  (lastUpdate : option PluginExecutionResult) (o : ToolExecutionOutcome) :
  processToolExecutionResult providerId toolName params lastUpdate = inl o ->
  finalResult
    (Native := ChatResponse)
    (ChunkTool "0" toolName Completed JUndefined (Some (params, outcome_content o)) true)
  = Some (outcome_content o).
Proof.
  unfold processToolExecutionResult. destruct lastUpdate as [u|]; [|discriminate].
  destruct (abortDecision (validation u)); [discriminate|].
  intros H. injection H as <-. simpl. unfold orElse.
  destruct (result u); simpl; try reflexivity;
    match goal with
    | |- context [if ?c then _ else _] => destruct c
    end; reflexivity.
Qed.

Section OllamaTracks.

Variable plugins : list Plugin.
Variable chat : OllamaStreamingContext -> LlmStream ChatResponse.
Variable start : list ThreadEntry.

Lemma threadOf_same (f : OllamaWorld -> OllamaWorld) (results : list Json)
  (w : OllamaWorld) :
  thread (ollama_context (f w)) = thread (ollama_context w) ->
  threadOf start results w -> threadOf start results (f w).
Proof. intros E (rounds & H1 & H2). exists rounds. rewrite E. split; assumption. Qed.

Lemma threadOf_round (m : OllamaMessage) (r : Json) (results : list Json)
  (w : OllamaWorld) :
  threadOf start results w ->
  threadOf start (results ++ [r])
    (onContext (pushThread (ThreadToolResult r))
       (onContext (pushThread (ThreadAssistant m)) w)).
Proof.
  intros (rounds & H1 & H2). exists (rounds ++ [(m, r)])%list. split.
  - cbn [onContext ollama_context pushThread thread]. rewrite H1, roundEntries_app.
    rewrite <- !app_assoc. reflexivity.
  - rewrite map_app, H2. reflexivity.
Qed.

Lemma Tracks_processToolCall (chunk : ChatResponse) (t : OllamaToolCall)
  (results : list Json) (w : OllamaWorld) :
  threadOf start results w ->
  Tracks withResult (threadOf start) (related (threadOf start))
    (related (threadOf start)) results
    (processToolCall plugins chunk t w).
Proof.
  intros Hw. unfold processToolCall, bindM. cbn [bind gets modify yield].
  assert (H1 : forall c, threadOf start results (onContext (pushToolCall c) w)).
  { intros c. apply (threadOf_same (onContext (pushToolCall c))); [reflexivity|exact Hw]. }
  constructor; [apply H1|]. cbn [bind withResult finalResult].
  unfold tryCatch. cbn [bind catch gets yield].
  constructor; [apply H1|]. cbn [bind catch withResult finalResult].
  eapply Tracks_catch.
  - eapply Tracks_bind.
    + apply (@Tracks_forAwait _ _ _ withResult (threadOf start) _ _ _
               (threadOf start results) results).
      * apply Keeps_callTool; [|apply H1].
        intros e x Hx. apply (threadOf_same (logCall e)); [reflexivity|exact Hx].
      * intros y a s Hs. unfold onUpdate. destruct y as [status|r].
        -- unfold bindM. cbn [bind yield ret]. constructor; [exact Hs|].
           cbn [bind withResult finalResult]. constructor.
           split; [reflexivity|exact Hs].
        -- constructor. split; [reflexivity|exact Hs].
    + intros seen' c s3 [-> Hs3]. cbn beta.
      unfold liftResult.
      match goal with
      | |- context [processToolExecutionResult ?a ?b ?c ?d] =>
          destruct (processToolExecutionResult a b c d) as [o|e] eqn:Eo
      end.
      * cbn [bind ret yield modify aborted]. constructor; [exact Hs3|].
        cbn [bind]. unfold withResult.
        pose proof (processToolExecutionResult_defined _ _ _ _ Eo) as Hdef.
        cbn [finalResult] in Hdef |- *. rewrite Hdef.
        constructor. intros b.
        assert (Hr : threadOf start (results ++ [outcome_content o])
                       (onContext (pushThread (ThreadToolResult (outcome_content o)))
                          (onContext (pushThread (ThreadAssistant (message chunk))) s3))).
        { apply threadOf_round. exact Hs3. }
        destruct b; constructor; exact Hr.
      * cbn [bind throw]. constructor. split; [reflexivity|exact Hs3].
  - intros seen' e s [-> Hs]. unfold bindM. cbn [bind aborted].
    constructor. intros b. destruct b.
    + cbn [bind yield ret]. constructor; [exact Hs|].
      cbn [bind withResult finalResult]. constructor. exact Hs.
    + cbn [bind throw]. constructor. exact Hs.
Qed.

Lemma Tracks_textChunk (chunk : ChatResponse) (results : list Json) (w : OllamaWorld) :
  threadOf start results w ->
  Tracks withResult (threadOf start) (related (threadOf start))
    (related (threadOf start)) results (textChunk chunk w).
Proof.
  intros Hw. unfold textChunk.
  destruct (String.eqb (message_content (message chunk)) "<think>");
    [constructor; apply (threadOf_same (onContext (setThinking true)));
     [reflexivity|exact Hw]|].
  destruct (String.eqb (message_content (message chunk)) "</think>");
    [constructor; apply (threadOf_same (onContext (setThinking false)));
     [reflexivity|exact Hw]|].
  unfold bindM. eapply Tracks_bind with (Q1 := related (threadOf start)).
  - destruct (message_thinking (message chunk)) as [th|]; [|constructor; exact Hw].
    destruct (nonEmpty th); [|constructor; exact Hw].
    unfold yield. constructor; [exact Hw|]. constructor. exact Hw.
  - intros seen' [] s1 Hs1. eapply Tracks_bind with (Q1 := related (threadOf start)).
    + destruct (nonEmpty (message_content (message chunk)) || done chunk).
      * unfold gets, yield. cbn [bind]. constructor; [exact Hs1|].
        constructor. exact Hs1.
      * constructor. exact Hs1.
    + intros seen'' [] s2 Hs2. unfold gets. cbn [bind].
      destruct (opts_usage (opts (ollama_context s2)) && done chunk).
      * unfold yield. constructor; [exact Hs2|]. constructor. exact Hs2.
      * constructor. exact Hs2.
Qed.

Lemma Tracks_nativeChunkToLlmChunk (chunk : ChatResponse) (results : list Json)
  (w : OllamaWorld) :
  threadOf start results w ->
  Tracks withResult (threadOf start) (related (threadOf start))
    (related (threadOf start)) results
    (nativeChunkToLlmChunk plugins chat chunk w).
Proof.
  intros Hw. unfold nativeChunkToLlmChunk, bindM. eapply Tracks_bind with (Q1 := related (threadOf start)).
  - destruct (done chunk && (nonZero (eval_count chunk) || nonZero (prompt_eval_count chunk)));
      constructor; [|exact Hw].
    apply (threadOf_same (onContext (addUsage chunk))); [reflexivity|exact Hw].
  - intros seen' [] s1 Hs1.
    destruct (tool_calls (message chunk)) as [[|first others]|];
      try (apply Tracks_textChunk; exact Hs1).
    eapply Tracks_bind with (Q1 := related (threadOf start)).
    + apply (@Tracks_forOf _ _ _ withResult (threadOf start)); [|exact Hs1].
      intros x seen s Hs. apply Tracks_processToolCall. exact Hs.
    + intros seen'' c s2 Hs2. destruct c as [u|r]; [|constructor; exact Hs2].
      unfold doStream, bindM, modify, gets, ret, yield. cbn [bind].
      assert (Hn : threadOf start seen''
                     (onContext resetForStream (onContext clearForcedToolChoice s2))).
      { apply (threadOf_same
                 (fun x => onContext resetForStream (onContext clearForcedToolChoice x)));
          [|exact Hs2].
        cbn [onContext ollama_context resetForStream thread].
        exact (proj2 (proj2 (proj2 (proj2 (proj2
                 (clearForcedToolChoice_settings (ollama_context s2))))))). }
      constructor; [exact Hn|]. constructor. exact Hn.
Qed.

End OllamaTracks.

Section GenerateTracks.

Variables Native World G : Type.
Variable normalizer : Native -> World -> Gen (LlmChunk Native) World unit.
Variable signal : nat -> bool.
Variable obs : G -> LlmChunk Native -> G.
Variable I : G -> World -> Prop.

Hypothesis obs_stale : forall seen n msg, obs seen (clearStaleDone n msg) = obs seen msg.
Hypothesis obs_switch : forall seen s, obs seen (ChunkStream s) = seen.
Hypothesis obs_caught :
  forall seen e msg, caughtToolAbort e = inl msg -> obs seen msg = seen.
Hypothesis normalized :
  forall chunk seen w,
    I seen w ->
    Tracks obs I (related I) (related I) seen (normalizer chunk w).

Lemma left_emit (seen : G) (msg : LlmChunk Native)
  (t : Trace Native World (option (LlmStream Native) * World)) :
  tracked obs I (obs seen msg) t -> tracked obs I seen (emit [Forwarded msg] t).
Proof.
  unfold tracked, emit. destruct t as [evs [[n w] c|o w]]; cbn [fst snd app forwarded fold_left].
  - intros H. exact H.
  - intros [H|(Hc & l & y & E & H)]; [left; exact H|right].
    split; [exact Hc|]. exists (msg :: l), y. rewrite E. split; [reflexivity|exact H].
Qed.

Lemma left_andThen (seen : G)
  (t : Trace Native World (option (LlmStream Native) * World))
  (f : option (LlmStream Native) * World -> nat
       -> Trace Native World (option (LlmStream Native) * World)) :
  tracked obs I seen t ->
  (forall n w c, I (fold_left obs (forwarded (fst t)) seen) w ->
                 tracked obs I (fold_left obs (forwarded (fst t)) seen) (f (n, w) c)) ->
  tracked obs I seen (andThen t f).
Proof.
  unfold tracked, andThen, emit. destruct t as [evs [[n w] c|o w]]; cbn [fst snd].
  - intros H Hf. specialize (Hf n w c H).
    destruct (f (n, w) c) as [evs' [[n' w'] c'|o' w']]; cbn [fst snd] in *;
      rewrite forwarded_app.
    + rewrite fold_left_app. exact Hf.
    + destruct Hf as [Hf|(Hc & l & y & E & Hf)].
      * left. rewrite fold_left_app. exact Hf.
      * right. split; [exact Hc|]. exists (forwarded evs ++ l)%list, y.
        rewrite E, app_assoc, fold_left_app. split; [reflexivity|exact Hf].
  - intros H _. exact H.
Qed.

Lemma drainChunk_tracks (currentStream : LlmStream Native)
  (g : Gen (LlmChunk Native) World unit) (seen : G) :
  Tracks obs I (related I) (related I) seen g ->
  forall nextStream clock,
    tracked obs I seen (drainChunk signal currentStream g nextStream clock).
Proof.
  intros Hg. induction Hg as [seen r s Hs|seen e s Hs|seen y s k Hs Hk IH|seen k Hk IH];
    intros nextStream clock; cbn [drainChunk].
  - exact Hs.
  - destruct (caughtToolAbort e) as [msg|rethrown] eqn:Ec.
    + unfold tracked. cbn [fst snd forwarded fold_left]. rewrite (obs_caught seen e Ec).
      exact Hs.
    + left. exact Hs.
  - destruct (signal clock).
    + unfold tracked. cbn [fst snd isCancelled]. rewrite forwarded_app, forwarded_abortTransport,
        app_nil_r.
      destruct y as [a|ty text d|s'|id name st status call d|u|id|raw];
        try (right; split; [reflexivity|];
             eexists [], _; split; [reflexivity|exact Hs]).
      left. exact Hs.
    + destruct y as [a|ty text d|s'|id name st status call d|u|id|raw];
        try (apply left_emit; rewrite obs_stale; apply IH).
      unfold emit. cbn [app fst snd]. rewrite obs_switch in IH.
      specialize (IH (Some s') (S clock)).
      destruct (drainChunk signal currentStream (k s) (Some s') (S clock)).
      exact IH.
  - apply IH.
Qed.

Lemma drainStream_tracks (currentStream : LlmStream Native) (rest : list Native) :
  forall seen nextStream w clock,
    I seen w ->
    tracked obs I seen (drainStream normalizer signal currentStream rest nextStream w clock).
Proof.
  induction rest as [|chunk rest IH]; intros seen nextStream w clock Hw;
    cbn [drainStream].
  - exact Hw.
  - destruct (signal clock).
    + left. cbn [fst snd]. rewrite forwarded_abortTransport. exact Hw.
    + apply left_andThen.
      * apply drainChunk_tracks. apply normalized. exact Hw.
      * intros n w' c Hw'. apply IH. exact Hw'.
Qed.

Lemma streamLoop_tracks (fuel : nat) :
  forall seen currentStream w clock,
    I seen w ->
    let g := streamLoop normalizer signal fuel currentStream w clock in
    uptoLast obs I seen (forwarded (events g)) (isCancelled (outcome g)) (world g).
Proof.
  induction fuel as [|fuel IH]; intros seen currentStream w clock Hw;
    cbn [streamLoop].
  - left. exact Hw.
  - pose proof (drainStream_tracks currentStream (chunks currentStream) None clock Hw)
      as Hd.
    unfold tracked in Hd.
    destruct (drainStream normalizer signal currentStream (chunks currentStream) None
                w clock) as [evs [[n w'] c'|o w']]; cbn [fst snd] in Hd; cbn [nextRound].
    + destruct n as [s|]; [|left; exact Hd].
      specialize (IH _ s w' c' Hd). cbn zeta in IH.
      unfold after. cbn [events outcome world]. rewrite forwarded_app.
      destruct IH as [H|(Hc & l & y & E & H)].
      * left. rewrite fold_left_app. exact H.
      * right. split; [exact Hc|]. exists (forwarded evs ++ l)%list, y.
        rewrite E, app_assoc, fold_left_app. split; [reflexivity|exact H].
    + exact Hd.
Qed.

End GenerateTracks.

(** X19.  The thread of an Ollama generation grows by whole tool rounds.
    Wherever the normalizer is suspended or ends, the thread is the thread
    the generation started with followed by whole rounds, each the assistant
    message that asked for a tool call and then the result of the call: the
    entries already there are never rewritten, and no assistant message is
    pushed without the result of its call.  In the context a run of
    [generate] leaves, the thread is the payload built from the conversation
    for the model selected, followed by such rounds, and the results of the
    rounds are, in order, the results carried by the last chunks of tool
    calls (done set, result defined) that the run forwarded: all of them, or
    all but the very last chunk forwarded when the run was cancelled right
    after forwarding it, since the last chunk of a call is yielded before
    its round is pushed.  ([generate] throws before its first chunk exactly
    when [selectModel] throws.) *)
Theorem ollama_thread_grows_by_rounds :
  forall (plugins : list Plugin)
         (chat : OllamaStreamingContext -> LlmStream ChatResponse),
    (forall (start : list ThreadEntry) (chunk : ChatResponse) (w : OllamaWorld),
        (exists rounds,
            thread (ollama_context w) = (start ++ roundEntries rounds)%list) ->
        Keeps (fun w' =>
                 exists rounds,
                   thread (ollama_context w') = (start ++ roundEntries rounds)%list)
          (nativeChunkToLlmChunk plugins chat chunk w))
    /\ (forall (signal : nat -> bool) (fuel : nat) (model : ChatModel)
               (conversation : list Message) (o : option LlmCompletionOpts),
           match selectModel model conversation o,
                 ollama_generate plugins chat signal fuel model conversation o with
           | inl selected, inl g =>
               exists rounds,
                 thread (ollama_context (world g))
                 = (map ThreadPayload
                      (@buildPayload OllamaEngine selected (ThreadMessages conversation))
                    ++ roundEntries rounds)%list
                 /\ (map snd rounds = finalResults (forwarded (events g))
                     \/ (outcome g = Cancelled
                         /\ exists msgs msg,
                              forwarded (events g) = (msgs ++ [msg])%list
                              /\ map snd rounds = finalResults msgs))
           | inr error, inr thrown => thrown = error
           | _, _ => False
           end).
Proof.
  intros plugins chat.
  assert (Hround : forall (start : list ThreadEntry) m r w,
             (exists rounds,
                 thread (ollama_context w) = (start ++ roundEntries rounds)%list) ->
             exists rounds,
               thread (ollama_context
                         (onContext (pushThread (ThreadToolResult r))
                            (onContext (pushThread (ThreadAssistant m)) w)))
               = (start ++ roundEntries rounds)%list).
  { intros start m r w [rounds H]. exists (rounds ++ [(m, r)])%list.
    cbn [onContext ollama_context pushThread thread]. rewrite H, roundEntries_app.
    rewrite <- !app_assoc. reflexivity. }
  assert (Hnext : forall (start : list ThreadEntry) w,
             (exists rounds,
                 thread (ollama_context w) = (start ++ roundEntries rounds)%list) ->
             exists rounds,
               thread (ollama_context
                         (onContext resetForStream (onContext clearForcedToolChoice w)))
               = (start ++ roundEntries rounds)%list).
  { intros start w H. cbn [onContext ollama_context resetForStream thread].
    destruct (clearForcedToolChoice_settings (ollama_context w))
      as (_ & _ & _ & _ & _ & E).
    rewrite E. exact H. }
  split.
  - intros start chunk w.
    apply (invariant_nativeChunkToLlmChunk plugins chat
             (fun w' =>
                exists rounds,
                  thread (ollama_context w') = (start ++ roundEntries rounds)%list));
      try (intros; assumption).
    + intros m r w0. apply Hround.
    + intros w0. apply Hnext.
  - intros signal fuel model conversation o.
    unfold ollama_generate, ollama_stream.
    destruct (selectModel model conversation o) as [selected|error]; [|reflexivity].
    cbn zeta. unfold generate. cbn [stream context].
    set (start := map ThreadPayload
                    (@buildPayload OllamaEngine selected (ThreadMessages conversation))).
    match goal with
    | |- context [streamLoop ?nz signal fuel ?cs ?w0 0] =>
        pose proof (@streamLoop_tracks ChatResponse OllamaWorld (list Json) nz signal
                      withResult (threadOf start)) as Ht;
        specialize (fun h1 h2 h3 h4 => Ht h1 h2 h3 h4 fuel [] cs w0 0);
        set (g := streamLoop nz signal fuel cs w0 0) in *
    end.
    cbn zeta in Ht.
    destruct Ht as [(rounds & H1 & H2)|(Hc & msgs & msg & E & rounds & H1 & H2)].
    + intros seen n msg. destruct n, msg as [a|[|] text [|]|s'|id name st status call d|u|id|raw];
        reflexivity.
    + reflexivity.
    + intros seen e msg He.
      pose proof (@caughtToolAbort_cases ChatResponse e) as Hcases. rewrite He in Hcases.
      destruct Hcases as [(a & _ & ->)|(v & _ & -> & _)]; reflexivity.
    + intros chunk seen w Hw. apply Tracks_nativeChunkToLlmChunk. exact Hw.
    + exists []. split; [|reflexivity].
      cbn. rewrite app_nil_r. reflexivity.
    + exists rounds. split; [exact H1|]. left. exact H2.
    + exists rounds. split; [exact H1|]. right.
      split; [|exists msgs, msg; split; assumption].
      destruct (outcome g); try discriminate Hc. reflexivity.
Qed.

(* ===================================================================== *)
(** * 22. A tool round through the Ollama normalizer *)
(* ===================================================================== *)

(** X20.  A tool call run to its end.  In a run without cancellation, a
    native chunk that carries one tool call, owned by a single-shot plugin
    whose execution resolves with [res], validation (if any) allowing it, is
    normalized and forwarded as three chunks: preparing, running, and
    completed with done set, which carries the result; the assistant message
    and the result are appended to the thread, the plugin has been called
    once with the payload resolved, and the normalizer ends with a switch to
    the stream the server opens for the context so extended, the record of
    tool calls emptied. *)
Theorem ollama_tool_round_completes :
  forall (plugins : list Plugin)
         (chat : OllamaStreamingContext -> LlmStream ChatResponse)
         (signal : nat -> bool) (currentStream : LlmStream ChatResponse)
         (chunk : ChatResponse) (t : OllamaToolCall) (w : OllamaWorld)
         (nextStream : option (LlmStream ChatResponse)) (clock : nat)
         (p : Plugin) (payload : Json)
         (execute : PluginExecutionContext -> Json -> Json + Thrown) (res : Json),
    let tc := recordedCall (afterUsage chunk w) t in
    let ctx := {| context_model := model_id (ctx_model (ollama_context w)) |} in
    (forall n, signal n = false) ->
    tool_calls (message chunk) = Some [t] ->
    resolveToolOwner plugins (call_function tc) (call_args tc) = Some (p, payload) ->
    allows (toolExecutionValidation (opts (ollama_context w))) ctx
      (call_function tc) (call_args tc) = true ->
    execution p = Execute execute ->
    execute ctx payload = inl res ->
    exists s w' clock',
      drainChunk signal currentStream (nativeChunkToLlmChunk plugins chat chunk w)
        nextStream clock
      = ([Forwarded (preparingChunk plugins tc); Forwarded (runningChunk plugins tc);
          Forwarded (completedChunk plugins tc (contentOf res))],
         Continues (Some s, w') clock')
      /\ s = chat (ollama_context w')
      /\ thread (ollama_context w')
         = (thread (ollama_context w)
            ++ roundEntries [(message chunk, contentOf res)])%list
      /\ toolCalls (ollama_context w') = []
      /\ calls w'
         = (calls (afterValidation logCall
                     (toolExecutionValidation (opts (ollama_context w)))
                     (call_function tc) (call_args tc)
                     w)
            ++ [CalledExecute (getName p) payload])%list.
Proof.
  intros plugins chat signal currentStream chunk t w nextStream clock p payload
         execute res tc ctx quiet single Hres Hallow Hexec Hrun.
  unfold tc, ctx, recordedCall, afterUsage, allows in *.
  cbn [call_function call_args] in *.
  unfold nativeChunkToLlmChunk. rewrite single.
  unfold preparingChunk, runningChunk, completedChunk, contentOf, afterValidation.
  destruct (done chunk && (nonZero (eval_count chunk) || nonZero (prompt_eval_count chunk)));
    destruct nextStream;
    unfold processToolCall; step; rewrite !quiet; step;
    (destruct (toolExecutionValidation (opts (ollama_context w))) as [f|];
     unfold callTool; step; rewrite Hres; step; rewrite !quiet; step;
     try rewrite Hallow; step;
     unfold runTool; rewrite Hexec; step; rewrite Hrun; step;
     unfold processToolExecutionResult; step;
     try (destruct (decision (f _ _ _)); try discriminate Hallow);
     step; rewrite !quiet; step;
     unfold doStream; step; rewrite !quiet; step;
     do 3 eexists; (split; [reflexivity|]); (split; [reflexivity|]);
     cbn [ollama_context onContext resetForStream thread toolCalls calls logCall];
     (split;
      [rewrite (proj2 (proj2 (proj2 (proj2 (proj2
                  (clearForcedToolChoice_settings _))))));
       cbn; rewrite <- app_assoc; reflexivity|]);
     split; reflexivity).
Qed.

Lemma ollama_tool_round_completes_witness :
  forwarded
    (fst (drainChunk Scenario.never (Scenario.server (ollama_context (Scenario.startWorld allow)))
            (nativeChunkToLlmChunk Scenario.registry Scenario.server Scenario.toolChunk
               (Scenario.startWorld allow))
            None 0))
  = [ChunkTool "0" "search" Preparing (JString "Preparing search") None false;
     ChunkTool "0" "search" Running (JString "Searching")
       (Some (JString "cats", JUndefined)) false;
     ChunkTool "0" "search" Completed (JString "Search done")
       (Some (JString "cats", JObject [("hits", JNumber 3)])) true].
Proof.
  destruct (@ollama_tool_round_completes Scenario.registry Scenario.server
              Scenario.never (Scenario.server (ollama_context (Scenario.startWorld allow)))
              Scenario.toolChunk Scenario.searchCall (Scenario.startWorld allow) None 0
              Scenario.search (JString "cats")
              (fun _ _ => inl (JObject [("hits", JNumber 3)]))
              (JObject [("hits", JNumber 3)])
              (fun n => eq_refl) eq_refl eq_refl eq_refl eq_refl eq_refl)
    as (s & w' & clock' & H & _).
  rewrite H. reflexivity.
Defined.

(** X21.  A tool nobody owns.  In a run without cancellation, a native chunk
    that carries one call of a tool that no plugin of the registry owns is
    not fatal: the call is forwarded as preparing, running, and completed
    with done set, its result being the error "Tool ... does not exist ...";
    the assistant message and that error are appended to the thread for the
    model to read, neither a validation callback nor a plugin is called, and
    the normalizer ends with a switch to the next stream. *)
Theorem ollama_unknown_tool_reported :
  forall (plugins : list Plugin)
         (chat : OllamaStreamingContext -> LlmStream ChatResponse)
         (signal : nat -> bool) (currentStream : LlmStream ChatResponse)
         (chunk : ChatResponse) (t : OllamaToolCall) (w : OllamaWorld)
         (nextStream : option (LlmStream ChatResponse)) (clock : nat),
    let tc := recordedCall (afterUsage chunk w) t in
    let content :=
      errorResult ("Tool " ++ call_function tc
                     ++ " does not exist. Check the tool list and try again.") in
    (forall n, signal n = false) ->
    tool_calls (message chunk) = Some [t] ->
    resolveToolOwner plugins (call_function tc) (call_args tc) = None ->
    exists s w' clock',
      drainChunk signal currentStream (nativeChunkToLlmChunk plugins chat chunk w)
        nextStream clock
      = ([Forwarded (preparingChunk plugins tc); Forwarded (runningChunk plugins tc);
          Forwarded (completedChunk plugins tc content)],
         Continues (Some s, w') clock')
      /\ s = chat (ollama_context w')
      /\ thread (ollama_context w')
         = (thread (ollama_context w) ++ roundEntries [(message chunk, content)])%list
      /\ calls w' = calls w.
Proof.
  intros plugins chat signal currentStream chunk t w nextStream clock tc content
         quiet single Hres.
  unfold content, tc, recordedCall, afterUsage in *.
  cbn [call_function call_args] in *.
  unfold nativeChunkToLlmChunk. rewrite single.
  unfold preparingChunk, runningChunk, completedChunk.
  destruct (done chunk && (nonZero (eval_count chunk) || nonZero (prompt_eval_count chunk)));
    destruct nextStream;
    unfold processToolCall; step; rewrite !quiet; step;
    unfold callTool; step; rewrite Hres; step;
    unfold notFoundUpdate; step;
    unfold processToolExecutionResult; step; rewrite !quiet; step;
    unfold doStream; step; rewrite !quiet; step;
    do 3 eexists; (split; [reflexivity|]); (split; [reflexivity|]);
    cbn [ollama_context onContext resetForStream thread toolCalls calls logCall];
    (split;
     [rewrite (proj2 (proj2 (proj2 (proj2 (proj2
                 (clearForcedToolChoice_settings _))))));
      cbn; rewrite <- app_assoc; reflexivity|]);
    reflexivity.
Qed.

Lemma ollama_unknown_tool_reported_witness :
  forwarded
    (fst (drainChunk Scenario.never
            (Scenario.server (ollama_context (Scenario.startWorld allow)))
            (nativeChunkToLlmChunk [] Scenario.server Scenario.toolChunk
               (Scenario.startWorld allow))
            None 0))
  = [ChunkTool "0" "search" Preparing (JString EmptyString) None false;
     ChunkTool "0" "search" Running (JString EmptyString)
       (Some (JString "cats", JUndefined)) false;
     ChunkTool "0" "search" Completed JUndefined
       (Some (JString "cats",
              errorResult
                "Tool search does not exist. Check the tool list and try again."))
       true].
Proof.
  destruct (@ollama_unknown_tool_reported [] Scenario.server
              Scenario.never
              (Scenario.server (ollama_context (Scenario.startWorld allow)))
              Scenario.toolChunk Scenario.searchCall (Scenario.startWorld allow) None 0
              (fun n => eq_refl) eq_refl eq_refl)
    as (s & w' & clock' & H & _).
  rewrite H. reflexivity.
Defined.

(* ===================================================================== *)
(** * 23. An Ollama stream without tool calls *)
(* ===================================================================== *)




Section TextStream.

Local Open Scope list_scope.

Variable plugins : list Plugin.
Variable chat : OllamaStreamingContext -> LlmStream ChatResponse.




End TextStream.

Section SingleRound.

Variables Native World : Type.
Variable normalizer : Native -> World -> Gen (LlmChunk Native) World unit.
Variable signal : nat -> bool.
Variable P : World -> Prop.



End SingleRound.



(* ===================================================================== *)
(** * 24. Single-shot completion with the Ollama provider *)
(* ===================================================================== *)

Lemma Always_impl {Y St R} (Q Q' : Ending St R -> Prop) (g : Gen Y St R) :
  (forall e, Q e -> Q' e) -> Always Q g -> Always Q' g.
Proof.
  intros HQ Hg. induction Hg as [r s H|e s H|y s k Hk IH|k Hk IH].
  - constructor. apply HQ. exact H.
  - constructor. apply HQ. exact H.
  - constructor. exact IH.
  - constructor. exact IH.
Qed.

Lemma Always_bind {Y St A B} (Q1 : Ending St A -> Prop) (Q : Ending St B -> Prop)
  (g : Gen Y St A) (f : A -> St -> Gen Y St B) :
  Always Q1 g ->
  (forall a s, Q1 (Returned a s) -> Always Q (f a s)) ->
  (forall e s, Q1 (Threw e s) -> Q (Threw e s)) ->
  Always Q (bind g f).
Proof.
  intros Hg Hf He. induction Hg as [r s H|e s H|y s k Hk IH|k Hk IH]; simpl.
  - apply Hf. exact H.
  - constructor. apply He. exact H.
  - constructor. exact IH.
  - constructor. exact IH.
Qed.

Lemma Keeps_Always {Y St R} (P : St -> Prop) (g : Gen Y St R) :
  Keeps P g -> Always (fun e => P (endState e)) g.
Proof.
  intros Hg. induction Hg as [r s Hs|e s Hs|y s k Hs Hk IH|k Hk IH].
  - constructor. exact Hs.
  - constructor. exact Hs.
  - constructor. apply IH. exact Hs.
  - constructor. exact IH.
Qed.

Lemma Always_collect {Y St R} (Q : Ending St R -> Prop) (g : Gen Y St R) :
  Always Q g -> forall signal clock, Q (ending (collect signal clock g)).
Proof.
  intros Hg signal. induction Hg as [r s H|e s H|y s k Hk IH|k Hk IH];
    intros clock; simpl.
  - exact H.
  - exact H.
  - apply IH.
  - apply IH.
Qed.

Section ChatFacts.

Local Open Scope list_scope.

Variable plugins : list Plugin.
Variable respond : list ThreadEntry -> ChatResponse.
Variable model : ChatModel.
Variable o : option LlmCompletionOpts.

(** One tool call of [chat]: it throws leaving the thread as it was, or
    appends the assistant message and the result of the call to the thread
    and the call to the tool call infos. *)
Lemma chatToolCall_round (response : ChatResponse) (toolCall : OllamaToolCall)
  (infos : list LlmToolCallInfo) (w : ChatWorld) :
  Always
    (fun e =>
       match e with
       | Threw _ s => chat_thread s = chat_thread w
       | Returned c s =>
           exists content,
             loopValue c
             = infos ++ [{| info_name := function_name toolCall;
                            info_params := function_arguments toolCall;
                            info_result := content |}]
             /\ chat_thread s
                = chat_thread w ++ roundEntries [(message response, content)]
       end)
    (chatToolCall plugins model o response toolCall infos w).
Proof.
  unfold chatToolCall, bindM.
  apply (Always_bind (Q1 := fun e => chat_thread (endState e) = chat_thread w)).
  - apply (Keeps_Always (P := fun s => chat_thread s = chat_thread w)).
    apply Keeps_forAwait.
    + apply Keeps_callTool; [|reflexivity]. intros e x Hx. exact Hx.
    + intros y a s Hs. unfold keepResult. destruct y; constructor; exact Hs.
  - intros c s Hs. simpl in Hs.
    apply (Always_bind (Q1 := fun e => chat_thread (endState e) = chat_thread w)).
    + unfold liftResult.
      destruct (processToolExecutionResult "ollama" (function_name toolCall)
                  (function_arguments toolCall) (loopValue c));
        constructor; exact Hs.
    + intros r s' Hs'. simpl in Hs'.
      destruct (outcome_canceled r).
      * constructor. exact Hs'.
      * unfold modify, ret. simpl. constructor.
        exists (outcome_content r). split; [reflexivity|].
        unfold chatPush, roundEntries. cbn [chat_thread flat_map fst snd app].
        rewrite Hs', <- app_assoc. reflexivity.
    + intros e s' Hs'. exact Hs'.
  - intros e s Hs. exact Hs.
Qed.

(** The loop of [chat] over the tool calls of a response. *)
Lemma chatToolCalls_rounds (response : ChatResponse) (l : list OllamaToolCall) :
  forall (infos : list LlmToolCallInfo) (w : ChatWorld),
    Always
      (fun e =>
         exists rounds,
           chat_thread (endState e) = chat_thread w ++ roundEntries rounds
           /\ match e with
              | Threw _ _ => True
              | Returned c _ =>
                  exists added,
                    loopValue c = infos ++ added
                    /\ map snd rounds = map info_result added
                    /\ map info_name added = map function_name l
              end)
      (forEach l (chatToolCall plugins model o response) infos w).
Proof.
  induction l as [|toolCall l IH]; intros infos w; simpl.
  - constructor. exists []. simpl. rewrite app_nil_r. split; [reflexivity|].
    exists []. rewrite app_nil_r. repeat split.
  - eapply Always_bind; [apply chatToolCall_round| |].
    + intros c s (content & Hc & Hs).
      destruct c as [infos'|[]]. simpl in Hc.
      eapply Always_impl; [|apply IH].
      intros e (rounds & Ht & He).
      exists ((message response, content) :: rounds). split.
      * rewrite Ht, Hs. unfold roundEntries. simpl. rewrite <- app_assoc. reflexivity.
      * destruct e as [c' s'|e' s']; [|exact I].
        destruct He as (added & Hadd & Hres & Hnames).
        exists ({| info_name := function_name toolCall;
                   info_params := function_arguments toolCall;
                   info_result := content |} :: added).
        rewrite Hadd, Hc, <- app_assoc. simpl. rewrite Hres, Hnames.
        repeat split.
    + intros e s Hs. exists []. simpl. rewrite app_nil_r. split; [exact Hs|exact I].
Qed.

Lemma ollama_chat_rounds (fuel : nat) :
  forall (w : ChatWorld),
    Always
      (fun e =>
         exists rounds,
           chat_thread (endState e) = chat_thread w ++ roundEntries rounds
           /\ match e with
              | Returned (Some r) _ =>
                  map snd rounds = map info_result (response_toolCalls r)
              | _ => True
              end)
      (ollama_chat plugins respond model o fuel w).
Proof.
  induction fuel as [|fuel IH]; intros w; cbn [ollama_chat].
  - unfold ret. constructor. exists []. simpl. rewrite app_nil_r. split; [reflexivity|exact I].
  - unfold bindM, gets. cbn [bind].
    destruct (tool_calls (message (respond (chat_thread w)))) as [[|first others]|].
    + unfold ret. constructor. exists []. simpl. rewrite app_nil_r.
      split; reflexivity.
    + eapply Always_bind; [apply chatToolCalls_rounds| |].
      * intros c s (rounds1 & Ht1 & added & Hadd & Hres & _).
        simpl in Ht1, Hadd.
        eapply Always_bind; [apply IH| |].
        -- intros completion s2 (rounds2 & Ht2 & Hc). simpl in Ht2.
           destruct completion as [completion|]; unfold ret; constructor;
             exists (rounds1 ++ rounds2); rewrite roundEntries_app, app_assoc;
             simpl; rewrite Ht2, Ht1; (split; [reflexivity|]); [|exact I].
           cbn [response_toolCalls]. rewrite Hadd, !map_app, Hres, Hc. reflexivity.
        -- intros e s2 (rounds2 & Ht2 & _). simpl in Ht2.
           exists (rounds1 ++ rounds2). rewrite roundEntries_app, app_assoc.
           simpl. rewrite Ht2, Ht1. split; [reflexivity|exact I].
      * intros e s (rounds1 & Ht1 & _). exists rounds1. split; [exact Ht1|exact I].
    + unfold ret. constructor. exists []. simpl. rewrite app_nil_r.
      split; reflexivity.
Qed.

End ChatFacts.

(** X23.  [chat] of the Ollama provider extends the thread it is given by
    whole tool rounds.  However it ends, and whatever the cancellation
    signal answers, the thread is the thread given followed, for each tool
    call completed, by the assistant message that asked for it and by its
    result; and when it returns a response, the results of the tool calls
    the response lists are, in order, the results appended to the thread.
    So it is for [complete], whose thread starts as the payload built from
    the conversation. *)
Theorem ollama_chat_thread_and_tool_calls :
  forall (plugins : list Plugin) (respond : list ThreadEntry -> ChatResponse)
         (model : ChatModel) (o : option LlmCompletionOpts) (fuel : nat)
         (signal : nat -> bool) (clock : nat),
    (forall (w : ChatWorld),
        let run := collect signal clock (ollama_chat plugins respond model o fuel w) in
        exists rounds,
          chat_thread (endState (ending run))
          = (chat_thread w ++ roundEntries rounds)%list
          /\ forall r s,
               ending run = Returned (Some r) s ->
               map info_result (response_toolCalls r) = map snd rounds)
    /\ (forall (conversation : list Message),
           let run := collect signal clock
                        (ollama_complete plugins respond fuel model conversation o) in
           exists rounds,
             chat_thread (endState (ending run))
             = (map ThreadPayload
                  (@buildPayload OllamaEngine model (ThreadMessages conversation))
                ++ roundEntries rounds)%list
             /\ forall r s,
                  ending run = Returned (Some r) s ->
                  map info_result (response_toolCalls r) = map snd rounds).
Proof.
  intros plugins respond model o fuel signal clock.
  assert (H : forall (w : ChatWorld),
             let run := collect signal clock
                          (ollama_chat plugins respond model o fuel w) in
             exists rounds,
               chat_thread (endState (ending run))
               = (chat_thread w ++ roundEntries rounds)%list
               /\ forall r s,
                    ending run = Returned (Some r) s ->
                    map info_result (response_toolCalls r) = map snd rounds).
  { intros w run.
    destruct (Always_collect (ollama_chat_rounds plugins respond model o fuel w)
                signal clock) as (rounds & Ht & He).
    exists rounds. split; [exact Ht|].
    intros r s Hr. fold run in He. rewrite Hr in He. symmetry. exact He. }
  split; [exact H|].
  intros conversation. unfold ollama_complete. apply H.
Qed.

(** X24.  [chat] of the Ollama provider stops at the first tool call that is
    not run to its end.  When the response of the server carries tool calls
    and the first of them, owned by a plugin, is cancelled at entry, denied
    or aborted by validation, [chat] throws at once: the error "Tool
    execution was canceled" when the signal is found set at entry or the
    decision is deny, the tool-abort object when the decision is abort.  The
    thread is left as it was, no plugin is executed, the other tool calls of
    the response are not looked at and the server is not asked again. *)
Theorem ollama_chat_stops_at_refused_call :
  forall (plugins : list Plugin) (respond : list ThreadEntry -> ChatResponse)
         (model : ChatModel) (o : option LlmCompletionOpts) (fuel : nat)
         (w : ChatWorld) (signal : nat -> bool) (clock : nat)
         (first : OllamaToolCall) (others : list OllamaToolCall),
    let ctx := {| context_model := model_id model |} in
    let tool := function_name first in
    let args := function_arguments first in
    tool_calls (message (respond (chat_thread w))) = Some (first :: others) ->
    resolveToolOwner plugins tool args <> None ->
    (signal clock = true ->
     collect signal clock (ollama_chat plugins respond model o (S fuel) w)
     = {| yielded := [];
          ending := Threw (ThrowError "Tool execution was canceled") w;
          reads := S clock |})
    /\ (forall validate,
           signal clock = false ->
           match o with
           | Some opts => toolExecutionValidation opts
           | None => None
           end = Some validate ->
           (decision (validate ctx tool args) = deny ->
            collect signal clock (ollama_chat plugins respond model o (S fuel) w)
            = {| yielded := [];
                 ending := Threw (ThrowError "Tool execution was canceled")
                             (chatLog (CalledValidation tool args) w);
                 reads := S clock |})
           /\ (decision (validate ctx tool args) = abort ->
               collect signal clock (ollama_chat plugins respond model o (S fuel) w)
               = {| yielded := [];
                    ending := Threw (ThrowToolAbort
                                       {| abort_name := tool; abort_params := args;
                                          abort_reason := validate ctx tool args |})
                                (chatLog (CalledValidation tool args) w);
                    reads := S clock |})).
Proof.
  intros plugins respond model o fuel w signal clock first others ctx tool args
         Hcalls Hres.
  unfold ctx, tool, args in *.
  destruct (resolveToolOwner plugins (function_name first) (function_arguments first))
    as [[p payload]|] eqn:E; [clear Hres|congruence].
  assert (Hrun : forall sig,
             collect sig clock (ollama_chat plugins respond model o (S fuel) w)
             = collect sig clock
                 (bind
                    (bind
                       (chatToolCall plugins model o (respond (chat_thread w)) first [] w)
                       (fun c s' =>
                          match c with
                          | Next a =>
                              forEach others
                                (chatToolCall plugins model o (respond (chat_thread w)))
                                a s'
                          | Return r => Ret (Return r) s'
                          end))
                    (fun c s0 =>
                       bind (ollama_chat plugins respond model o fuel s0)
                         (fun completion =>
                            match completion with
                            | None => ret None
                            | Some completion =>
                                ret (Some
                                       {| response_content := response_content completion;
                                          response_toolCalls :=
                                            (loopValue c
                                             ++ response_toolCalls completion)%list;
                                          response_usage :=
                                            match response_usage completion with
                                            | Some u =>
                                                if wantsUsage o
                                                then Some (addCounts u
                                                             (respond (chat_thread w)))
                                                else Some u
                                            | None => None
                                            end |})
                            end)))).
  { intros sig. cbn [ollama_chat]. unfold bindM at 1, gets. cbn [bind].
    rewrite Hcalls. reflexivity. }
  rewrite Hrun. clear Hrun.
  split; [intros Hsig|intros validate Hsig Hval; split; intros Hdec];
    unfold chatToolCall at 1, bindM at 1 2;
    unfold callTool; rewrite E; unfold bindM, aborted; cbn [bind forAwait collect];
    rewrite Hsig.
  - unfold yield, canceledUpdate. cbn. reflexivity.
  - rewrite Hval. unfold modify. cbn [bind forAwait].
    rewrite Hdec. cbn. rewrite Hdec. cbn. reflexivity.
  - rewrite Hval. unfold modify. cbn [bind forAwait].
    rewrite Hdec. cbn. rewrite Hdec. cbn. reflexivity.
Qed.

Lemma ollama_chat_stops_at_refused_call_witness :
  collect Scenario.never 0
    (ollama_chat Scenario.registry (fun _ => Scenario.toolChunk) Scenario.plainModel
       (Some (Scenario.validatedBy deny)) 1
       {| chat_thread := []; chat_calls := [] |})
  = {| yielded := [];
       ending := Threw (ThrowError "Tool execution was canceled")
                   {| chat_thread := [];
                      chat_calls := [CalledValidation "search" (JString "cats")] |};
       reads := 1 |}.
Proof.
  assert (Hres : resolveToolOwner Scenario.registry "search" (JString "cats") <> None)
    by discriminate.
  exact (proj1 (proj2 (@ollama_chat_stops_at_refused_call Scenario.registry
                         (fun _ => Scenario.toolChunk) Scenario.plainModel
                         (Some (Scenario.validatedBy deny)) 0
                         {| chat_thread := []; chat_calls := [] |} Scenario.never 0
                         Scenario.searchCall [] eq_refl Hres)
                  (Scenario.answering deny) eq_refl eq_refl) eq_refl).
Defined.

(* ===================================================================== *)
(** * 25. The result of a tool execution, and text chunks *)
(* ===================================================================== *)

(** X25.  [processToolExecutionResult] on the last result update of a tool
    call: it throws exactly when no update was seen (an [Error]) or when the
    validation answer says abort (the tool-abort object, which carries the
    tool name, the parameters and that answer); otherwise it returns a
    content that is never falsy (the result when it is truthy, the error "No
    result from tool" otherwise), classified canceled exactly when the update is
    marked canceled or the validation answer says deny. *)
Theorem tool_result_classified :
  forall (providerId toolName : string) (params : Json)
         (lastUpdate : option PluginExecutionResult),
    match processToolExecutionResult providerId toolName params lastUpdate with
    | inr (ThrowToolAbort a) =>
        exists u v,
          lastUpdate = Some u /\ validation u = Some v /\ decision v = abort
          /\ a = {| abort_name := toolName; abort_params := params; abort_reason := v |}
    | inr (ThrowError message) =>
        lastUpdate = None
        /\ message = "[" ++ providerId ++ "] tool call " ++ toolName
                     ++ " did not return any result"
    | inr (ThrowValue _) => False
    | inl r =>
        exists u,
          lastUpdate = Some u
          /\ (forall v, validation u = Some v -> decision v <> abort)
          /\ truthy (outcome_content r) = true
          /\ (truthy (result u) = true -> outcome_content r = result u)
          /\ (truthy (result u) = false ->
              outcome_content r = errorResult "No result from tool")
          /\ (outcome_canceled r = true <->
              canceled u = true
              \/ exists v, validation u = Some v /\ decision v = deny)
    end.
Proof.
  intros providerId toolName params [u|]; [|split; reflexivity].
  unfold processToolExecutionResult.
  destruct (validation u) as [v|] eqn:Ev; simpl.
  - destruct (decision v) eqn:Ed; simpl.
    + exists u. split; [reflexivity|]. split; [intros v' Hv'; congruence|].
      split; [|split; [|split]].
      * unfold orElse. destruct (truthy (result u)) eqn:Et; [exact Et|reflexivity].
      * intros Ht. unfold orElse. rewrite Ht. reflexivity.
      * intros Ht. unfold orElse. rewrite Ht. reflexivity.
      * rewrite orb_false_r. split; [intros H; left; exact H|].
        intros [H|(v' & Hv' & Hd)]; [exact H|congruence].
    + exists u. split; [reflexivity|]. split; [intros v' Hv'; congruence|].
      split; [|split; [|split]].
      * unfold orElse. destruct (truthy (result u)) eqn:Et; [exact Et|reflexivity].
      * intros Ht. unfold orElse. rewrite Ht. reflexivity.
      * intros Ht. unfold orElse. rewrite Ht. reflexivity.
      * rewrite orb_true_r. split; [|reflexivity].
        intros _. right. exists v. split; [exact Ev|exact Ed].
    + exists u, v. repeat split; try reflexivity; assumption.
  - exists u. split; [reflexivity|]. split; [intros v' Hv'; congruence|].
    split; [|split; [|split]].
    + unfold orElse. destruct (truthy (result u)) eqn:Et; [exact Et|reflexivity].
    + intros Ht. unfold orElse. rewrite Ht. reflexivity.
    + intros Ht. unfold orElse. rewrite Ht. reflexivity.
    + rewrite orb_false_r. split; [intros H; left; exact H|].
      intros [H|(v' & Hv' & _)]; [exact H|congruence].
Qed.

(** X26.  A native chunk of the Ollama client that carries no tool call.
    The normalizer first counts the usage the chunk reports.  A chunk whose
    text is the tag [<think>] or [</think>] then switches the thinking mode
    on or off and yields nothing, even when it is the final chunk.  Any
    other chunk yields, in this order: its thinking text, if not empty, as
    reasoning; its text, if it is not empty or the chunk is final, as
    reasoning in thinking mode and as content otherwise; and, when usage is
    asked for and the chunk is final, the usage counted so far, this chunk
    included.  Each chunk yielded carries the done flag of the native chunk.
    The normalizer never reads the cancellation signal and never throws
    here. *)
Theorem text_chunk_normalized :
  forall (plugins : list Plugin)
         (chat : OllamaStreamingContext -> LlmStream ChatResponse)
         (signal : nat -> bool) (clock : nat) (chunk : ChatResponse) (w : OllamaWorld),
    noToolCalls chunk = true ->
    let w1 := afterUsage chunk w in
    let x := ollama_context w1 in
    let text := message_content (message chunk) in
    collect signal clock (nativeChunkToLlmChunk plugins chat chunk w)
    = if String.eqb text "<think>"
      then {| yielded := [];
              ending := Returned tt (onContext (setThinking true) w1);
              reads := clock |}
      else if String.eqb text "</think>"
      then {| yielded := [];
              ending := Returned tt (onContext (setThinking false) w1);
              reads := clock |}
      else
        {| yielded :=
             (match message_thinking (message chunk) with
              | Some th =>
                  if nonEmpty th then [ChunkContent TypeReasoning th (done chunk)]
                  else []
              | None => []
              end
              ++ (if nonEmpty text || done chunk
                  then [ChunkContent (if thinking x then TypeReasoning else TypeContent)
                          text (done chunk)]
                  else [])
              ++ (if opts_usage (opts x) && done chunk
                  then [ChunkUsage (usage x)]
                  else []))%list;
           ending := Returned tt w1;
           reads := clock |}.
Proof.
  intros plugins chat signal clock chunk w Hnone w1 x text.
  unfold x, w1, text, afterUsage. unfold noToolCalls in Hnone.
  unfold nativeChunkToLlmChunk, bindM.
  assert (Htext : forall s,
             (match tool_calls (message chunk) with
              | Some (first :: others) =>
                  fun s0 =>
                    bind (forOf (first :: others) (processToolCall plugins chunk) s0)
                      (fun c =>
                         match c with
                         | Next _ =>
                             fun s1 =>
                               bind (modify (onContext clearForcedToolChoice) s1)
                                 (fun _ s2 =>
                                    bind (doStream chat s2)
                                      (fun s3 => yield (ChunkStream s3)))
                         | Return _ => ret tt
                         end)
              | _ => textChunk chunk
              end) s = textChunk chunk s).
  { intros s. destruct (tool_calls (message chunk)) as [[|first others]|];
      [reflexivity|discriminate|reflexivity]. }
  destruct (done chunk && (nonZero (eval_count chunk) || nonZero (prompt_eval_count chunk)));
    cbn [bind modify ret]; rewrite Htext; unfold textChunk;
    destruct (String.eqb (message_content (message chunk)) "<think>");
    try reflexivity;
    destruct (String.eqb (message_content (message chunk)) "</think>");
    try reflexivity;
    unfold bindM, gets, yield, ret;
    destruct (message_thinking (message chunk)) as [th|];
    try destruct (nonEmpty th);
    destruct (nonEmpty (message_content (message chunk)) || done chunk);
    cbn [bind collect yielded ending reads app ollama_context onContext opts addUsage];
    destruct (opts_usage (opts (ollama_context w)) && done chunk);
    reflexivity.
Qed.

Lemma text_chunk_normalized_witness :
  collect Scenario.never 0
    (nativeChunkToLlmChunk Scenario.registry Scenario.server (textOnly "<think>" true)
       (Scenario.startWorld allow))
  = {| yielded := [];
       ending := Returned tt (onContext (setThinking true) (Scenario.startWorld allow));
       reads := 0 |}.
Proof.
  exact (@text_chunk_normalized Scenario.registry Scenario.server Scenario.never 0
           (textOnly "<think>" true) (Scenario.startWorld allow) eq_refl).
Defined.
